(** * Dataset analysis pipeline: retrying client wrapper, batch driver and
      summary aggregator of [dataset_analysis_multithreaded.py]

    A shallow embedding of [DatasetAnalyzer] and the properties its
    specification states about it.

    Modelling conventions.
    - A Python [str] is a list of Unicode code points ([list N]).
    - Every value that [json.loads] can produce, and that the program
      passes around as a result, is a [json]; Python [None] is [JNull]
      and a [dict] is an association list in insertion order.
    - [json.loads] is the strict decoder of CPython with its default
      hooks.  The limits of the interpreter (recursion depth, number of
      digits of an integer literal) are not modelled.
    - Python integers are [Z]; [//] is [Z.div] (both round to the floor).
    - The LLM client, the completion order of the worker pool and the
      clock are oracles collected in a [world].  The texts that come
      from outside (the answers and messages of the client, the cells
      of the table) hold no lone surrogate: they were decoded from
      UTF-8.  A lone surrogate only enters a run through a [\u] escape
      that [json.loads] decodes.
    - A file holds a JSON document; a directory is an association list
      from file names to contents, in listing order.  [json.dump] to a
      file opened in UTF-8 with [ensure_ascii=False] raises on a text
      with a lone surrogate and leaves the file truncated; such a file
      is kept by name only, since [json.load] refuses it.
    - The dictionaries of the summary are keyed by the values Python
      can hash among those [json.loads] gives: texts, numbers, booleans
      and [None], numbers and booleans being the same key when they are
      equal as numbers. *)

From Stdlib Require Import String Ascii.
From Stdlib Require Import List ZArith NArith Bool Lia.
From Stdlib Require Import Sorted Permutation DecimalString.
From Stdlib Require DecimalZ.
Import ListNotations.

Set Warnings "-register-all".
Local Open Scope Z_scope.

(* ================================================================== *)
(** ** Python strings *)
(* ================================================================== *)

Module PyStr.

(** A character is a code point, a text is a list of characters. *)
Abbreviation char := N (only parsing).
Abbreviation str := (list N) (only parsing).

(** A literal of the development: the code points of an ASCII text. *)
Definition lit (s : string) : str := map N_of_ascii (list_ascii_of_string s).

(** Literals of JSON text are written with ['] for the double quote
    (code point 34) and [|] for the line feed (code point 10). *)
Definition qchar (a : ascii) : char :=
  let n := N_of_ascii a in
  if N.eqb n 39 then 34%N else if N.eqb n 124 then 10%N else n.

Definition qlit (s : string) : str := map qchar (list_ascii_of_string s).

Fixpoint str_eqb (s t : str) : bool :=
  match s, t with
  | [], [] => true
  | a :: s', b :: t' => N.eqb a b && str_eqb s' t'
  | _, _ => false
  end.

(** [s.startswith(sub)] *)
Fixpoint startswith (s sub : str) : bool :=
  match sub, s with
  | [], _ => true
  | a :: sub', b :: s' => N.eqb a b && startswith s' sub'
  | _ :: _, [] => false
  end.

(** Lowest offset at which [sub] occurs in [s]. *)
Fixpoint find_nat (sub s : str) : option nat :=
  if startswith s sub then Some 0%nat
  else match s with
       | [] => None
       | _ :: t => option_map S (find_nat sub t)
       end.

(** Highest offset at which [sub] occurs in [s]. *)
Fixpoint rfind_nat (sub s : str) : option nat :=
  match s with
  | [] => if startswith [] sub then Some 0%nat else None
  | _ :: t =>
      match rfind_nat sub t with
      | Some i => Some (S i)
      | None => if startswith s sub then Some 0%nat else None
      end
  end.

Definition len {A} (l : list A) : Z := Z.of_nat (List.length l).

(** Python's normalisation of a slice bound or search start. *)
Definition norm_index (n i : Z) : Z :=
  if i <? 0 then Z.max 0 (i + n) else Z.min i n.

(** [l[a:b]] *)
Definition py_slice {A} (l : list A) (a b : Z) : list A :=
  let a' := norm_index (len l) a in
  let b' := norm_index (len l) b in
  firstn (Z.to_nat (b' - a')) (skipn (Z.to_nat a') l).

(** [s.find(sub, start)]: the lowest index [>= start] where [sub] occurs,
    [-1] when there is none. *)
Definition find (s sub : str) (start : Z) : Z :=
  if len s <? start then -1
  else
    let st := norm_index (len s) start in
    match find_nat sub (skipn (Z.to_nat st) s) with
    | Some i => st + Z.of_nat i
    | None => -1
    end.

(** [s.rfind(sub)] *)
Definition rfind (s sub : str) : Z :=
  match rfind_nat sub s with
  | Some i => Z.of_nat i
  | None => -1
  end.

(** [sub in s] *)
Definition contains (s sub : str) : bool :=
  match find_nat sub s with Some _ => true | None => false end.

(** [str.isspace] on one code point (CPython's [_PyUnicode_IsWhitespace]). *)
Definition isspace (c : char) : bool :=
  (((9 <=? c) && (c <=? 13)) || ((28 <=? c) && (c <=? 32))
   || (c =? 133) || (c =? 160) || (c =? 5760)
   || ((8192 <=? c) && (c <=? 8202))
   || (c =? 8232) || (c =? 8233) || (c =? 8239) || (c =? 8287)
   || (c =? 12288))%N.

Fixpoint lstrip (s : str) : str :=
  match s with
  | [] => []
  | c :: t => if isspace c then lstrip t else s
  end.

Definition rstrip (s : str) : str := rev (lstrip (rev s)).

(** [s.strip()] *)
Definition strip (s : str) : str := rstrip (lstrip s).

(** [str(n)] for an integer. *)
Definition str_of_Z (z : Z) : str :=
  match z with
  | Z0 => lit "0"
  | _ => lit (NilEmpty.string_of_int (Z.to_int z))
  end.

(** A code point of the surrogate range, for which UTF-8 has no
    encoding. *)
Definition is_surrogate (c : char) : bool :=
  ((55296 <=? c) && (c <=? 57343))%N.

(** [s.encode('utf-8')] does not raise. *)
Definition encodable_text (s : str) : bool :=
  forallb (fun c => negb (is_surrogate c)) s.

End PyStr.
Import PyStr.

(* ================================================================== *)
(** ** JSON values and [json.loads] *)
(* ================================================================== *)

(** A Python [float] read from a decimal literal is kept as that decimal,
    [(-1)^neg * mant * 10^exp]; only its truth value is ever inspected. *)
Inductive pyfloat : Type :=
| FNaN
| FInf (neg : bool)
| FDec (neg : bool) (mant : N) (exp : Z).

Inductive json : Type :=
| JNull
| JBool (b : bool)
| JInt (z : Z)
| JFloat (f : pyfloat)
| JString (s : str)
| JArray (items : list json)
| JObject (members : list (str * json)).

Definition dict := list (str * json).

(** Every text of the value, keys included, can be encoded in UTF-8:
    [json.dump] with [ensure_ascii=False] to a file opened in UTF-8
    writes the whole document.  Otherwise the write of the text with the
    lone surrogate raises [UnicodeEncodeError]. *)
Fixpoint encodable (v : json) : bool :=
  match v with
  | JString s => encodable_text s
  | JArray items => forallb encodable items
  | JObject members =>
      forallb (fun member => let '(k, x) := member in
                             encodable_text k && encodable x) members
  | _ => true
  end.

Module Dict.

(** [k in d] *)
Fixpoint mem {V} (d : list (str * V)) (k : str) : bool :=
  match d with
  | [] => false
  | (k', _) :: t => str_eqb k' k || mem t k
  end.

(** [d.get(k)] *)
Fixpoint get {V} (d : list (str * V)) (k : str) : option V :=
  match d with
  | [] => None
  | (k', v) :: t => if str_eqb k' k then Some v else get t k
  end.

(** [d.get(k, default)] *)
Definition get_default {V} (d : list (str * V)) (k : str) (default : V) : V :=
  match get d k with Some v => v | None => default end.

(** [d[k] = v]: an existing key keeps its position, a new key goes last. *)
Fixpoint set {V} (d : list (str * V)) (k : str) (v : V) : list (str * V) :=
  match d with
  | [] => [(k, v)]
  | (k', v') :: t =>
      if str_eqb k' k then (k', v) :: t else (k', v') :: set t k v
  end.

(** [dict(pairs)] *)
Definition of_pairs {V} (pairs : list (str * V)) : list (str * V) :=
  fold_left (fun d kv => set d (fst kv) (snd kv)) pairs [].

(** The dictionary without the key [k]. *)
Definition remove {V} (d : list (str * V)) (k : str) : list (str * V) :=
  filter (fun kv => negb (str_eqb (fst kv) k)) d.

End Dict.

(** A decimal [mant * 10^exp] converts to the float zero exactly when it is
    at most half the least subnormal, [2^-1075] (ties go to the even
    neighbour, which is zero). *)
Definition rounds_to_zero (mant : N) (exp : Z) : bool :=
  if 0 <=? exp then N.eqb mant 0
  else Z.of_N mant * 2 ^ 1075 <=? 10 ^ (- exp).

Definition float_truthy (f : pyfloat) : bool :=
  match f with
  | FNaN => true
  | FInf _ => true
  | FDec _ m e => negb (rounds_to_zero m e)
  end.

(** [bool(v)] *)
Definition truthy (v : json) : bool :=
  match v with
  | JNull => false
  | JBool b => b
  | JInt z => negb (z =? 0)
  | JFloat f => float_truthy f
  | JString s => match s with [] => false | _ => true end
  | JArray l => match l with [] => false | _ => true end
  | JObject d => match d with [] => false | _ => true end
  end.

(* ================================================================== *)
(** ** Python floats *)
(* ================================================================== *)

(** [float(text)] rounds a decimal literal to the nearest binary64, and
    [float.__repr__] writes the shortest decimal that is read back as
    the same binary64.  Both are needed to compare numbers used as
    dictionary keys and to write such keys in a JSON document. *)
Module PyFloat.

(** A binary64 value: not a number, an infinity, or [(-1)^neg * m * 2^e]
    with [m < 2^53] and [-1074 <= e <= 971], where [2^52 <= m] unless
    [e = -1074]. *)
Inductive double : Type :=
| DNaN
| DInf (neg : bool)
| DNum (neg : bool) (m : Z) (e : Z).

(** The fraction [n * 2^e2 * 10^e10], as a numerator and a positive
    denominator. *)
Definition frac (n e2 e10 : Z) : Z * Z :=
  (n * 2 ^ Z.max e2 0 * 10 ^ Z.max e10 0,
   2 ^ Z.max (- e2) 0 * 10 ^ Z.max (- e10) 0).

Definition frac_le (a b : Z * Z) : bool := fst a * snd b <=? fst b * snd a.
Definition frac_lt (a b : Z * Z) : bool := fst a * snd b <? fst b * snd a.

(** [floor (log2 (num / den))] for positive [num] and [den]. *)
Definition floor_log2 (num den : Z) : Z :=
  let l := Z.log2 num - Z.log2 den in
  if frac_le (frac 1 l 0) (num, den) then l else l - 1.

(** The binary64 nearest to [mant * 10^exp] for [mant > 0], ties to the
    even significand: the significand and the exponent, or [None] when
    the value is rounded to an infinity. *)
Definition nearest (mant exp : Z) : option (Z * Z) :=
  let bits := Z.log2 mant + 1 in
  if 400 <? exp then None
  else if 4 * bits + exp <? -400 then Some (0, 0)
  else
    let '(num, den) := frac mant 0 exp in
    let e := Z.max (floor_log2 num den - 52) (-1074) in
    let '(n, d) := (num * 2 ^ Z.max (- e) 0, den * 2 ^ Z.max e 0) in
    let q := n / d in
    let r := n mod d in
    let q' := if (d <? 2 * r) || ((d =? 2 * r) && Z.odd q) then q + 1 else q in
    let '(m, e') := if q' =? 2 ^ 53 then (2 ^ 52, e + 1) else (q', e) in
    if 971 <? e' then None
    else if m =? 0 then Some (0, 0) else Some (m, e').

(** [float(text)] for the decimal literal kept in a [pyfloat]. *)
Definition double_of (f : pyfloat) : double :=
  match f with
  | FNaN => DNaN
  | FInf neg => DInf neg
  | FDec neg mant exp =>
      if N.eqb mant 0 then DNum neg 0 0
      else match nearest (Z.of_N mant) exp with
           | Some (m, e) => DNum neg m e
           | None => DInf neg
           end
  end.

(** [floor (log10 (q * 2^e))] for [q > 0]. *)
Definition floor_log10 (q e : Z) : Z :=
  let est := (Z.log2 q + e) * 30103 / 100000 in
  if frac_le (frac 1 0 (est + 1)) (frac q e 0) then est + 1
  else if frac_le (frac 1 0 est) (frac q e 0) then est
  else est - 1.

(** The decimal [c * 10^k] is read back as [q * 2^e]: it lies between the
    midpoints to the two neighbours, a midpoint counting when [q] is
    even. *)
Definition reads_back (q e c k : Z) : bool :=
  let lower := if (q =? 2 ^ 52) && (-1074 <? e) then frac (4 * q - 1) (e - 2) 0
               else frac (2 * q - 1) (e - 1) 0 in
  let upper := frac (2 * q + 1) (e - 1) 0 in
  let v := frac c 0 k in
  if Z.even q then frac_le lower v && frac_le v upper
  else frac_lt lower v && frac_lt v upper.

(** The decimals with [n] digits next to [q * 2^e], when one of them is
    read back as [q * 2^e]: the nearer one of the two, the even one when
    they are as near. *)
Definition with_digits (q e : Z) (n : nat) : option (Z * Z) :=
  let k := floor_log10 q e - Z.of_nat n + 1 in
  let '(num, den) := frac q e (- k) in
  let below := num / den in
  let above := below + 1 in
  let r := num mod den in
  match reads_back q e below k, reads_back q e above k with
  | true, true =>
      if (2 * r <? den) || ((2 * r =? den) && Z.even below)
      then Some (below, k) else Some (above, k)
  | true, false => Some (below, k)
  | false, true => Some (above, k)
  | false, false => None
  end.

Fixpoint strip_zeros (fuel : nat) (c k : Z) : Z * Z :=
  match fuel with
  | O => (c, k)
  | S fuel' => if (c mod 10 =? 0) && negb (c =? 0)
               then strip_zeros fuel' (c / 10) (k + 1) else (c, k)
  end.

(** The shortest decimal that is read back as [q * 2^e]. *)
Definition shortest (q e : Z) : Z * Z :=
  let found :=
    fold_left (fun acc n => match acc with
                            | Some _ => acc
                            | None => with_digits q e n
                            end) (seq 1 17) None in
  match found with
  | Some (c, k) => strip_zeros 20 c k
  | None => (q, 0)
  end.

Definition zeros (n : Z) : str := repeat 48%N (Z.to_nat n).

(** [float.__repr__] of a positive finite value. *)
Definition repr_positive (q e : Z) : str :=
  let '(c, k) := shortest q e in
  let digits := str_of_Z c in
  let n := Z.of_nat (List.length digits) in
  let decpt := n + k in
  if (decpt <=? -4) || (16 <? decpt) then
    let x := decpt - 1 in
    firstn 1 digits
    ++ (if 1 <? n then lit "." ++ skipn 1 digits else [])
    ++ lit "e" ++ (if x <? 0 then lit "-" else lit "+")
    ++ (if Z.abs x <? 10 then lit "0" else []) ++ str_of_Z (Z.abs x)
  else if decpt <=? 0 then lit "0." ++ zeros (- decpt) ++ digits
  else if n <=? decpt then digits ++ zeros (decpt - n) ++ lit ".0"
  else firstn (Z.to_nat decpt) digits ++ lit "."
       ++ skipn (Z.to_nat decpt) digits.

(** The text [json.dump] writes for a float. *)
Definition float_text (d : double) : str :=
  match d with
  | DNaN => lit "NaN"
  | DInf neg => (if neg then lit "-" else []) ++ lit "Infinity"
  | DNum neg m e =>
      (if neg then lit "-" else [])
      ++ (if m =? 0 then lit "0.0" else repr_positive m e)
  end.

End PyFloat.

Module JsonDecoder.

(** The decoder's whitespace: space, tab, line feed, carriage return. *)
Definition is_ws (c : char) : bool :=
  ((c =? 32) || (c =? 9) || (c =? 10) || (c =? 13))%N.

Fixpoint skip_ws (s : str) : str :=
  match s with
  | [] => []
  | c :: t => if is_ws c then skip_ws t else s
  end.

Definition is_digit (c : char) : bool := ((48 <=? c) && (c <=? 57))%N.

Fixpoint take_digits (s : str) : str * str :=
  match s with
  | [] => ([], [])
  | c :: t =>
      if is_digit c then let '(ds, r) := take_digits t in (c :: ds, r)
      else ([], s)
  end.

Definition digits_value (ds : str) : N :=
  fold_left (fun acc d => (acc * 10 + (d - 48))%N) ds 0%N.

(** Optional fraction: a dot and at least one digit. *)
Definition take_frac (s : str) : option str * str :=
  match s with
  | c :: t =>
      if (c =? 46)%N then
        match take_digits t with
        | ([], _) => (None, s)
        | (ds, r) => (Some ds, r)
        end
      else (None, s)
  | [] => (None, s)
  end.

(** An optional sign of an exponent. *)
Definition take_sign (s : str) : bool * str :=
  match s with
  | sg :: u =>
      if (sg =? 45)%N then (true, u)
      else if (sg =? 43)%N then (false, u) else (false, s)
  | [] => (false, s)
  end.

(** Optional exponent: e or E, an optional sign, at least one digit. *)
Definition take_exp (s : str) : option Z * str :=
  match s with
  | c :: t =>
      if ((c =? 101) || (c =? 69))%N then
        let '(neg, t') := take_sign t in
        match take_digits t' with
        | ([], _) => (None, s)
        | (ds, r) =>
            let v := Z.of_N (digits_value ds) in
            (Some (if neg then - v else v), r)
        end
      else (None, s)
  | [] => (None, s)
  end.

Definition number_tail (neg : bool) (ints rest : str) : json * str :=
  let '(frac, r1) := take_frac rest in
  let '(ex, r2) := take_exp r1 in
  match frac, ex with
  | None, None =>
      let v := Z.of_N (digits_value ints) in
      (JInt (if neg then - v else v), r2)
  | _, _ =>
      let fd := match frac with Some ds => ds | None => [] end in
      let e := match ex with Some e => e | None => 0 end in
      (JFloat (FDec neg (digits_value (ints ++ fd)) (e - len fd)), r2)
  end.

(** An optional minus sign. *)
Definition take_minus (s : str) : bool * str :=
  match s with
  | c :: t => if (c =? 45)%N then (true, t) else (false, s)
  | [] => (false, s)
  end.

(** A number at the head of [s]: an optional minus sign, then a lone zero
    or a digit run with a non-zero lead, then the optional fraction and
    the optional exponent. *)
Definition scan_number (s : str) : option (json * str) :=
  let '(neg, s1) := take_minus s in
  match s1 with
  | c :: t =>
      if (c =? 48)%N then Some (number_tail neg [c] t)
      else if is_digit c then
        let '(ds, r) := take_digits s1 in Some (number_tail neg ds r)
      else None
  | [] => None
  end.

Definition hex_value (c : char) : option N :=
  if ((48 <=? c) && (c <=? 57))%N then Some (c - 48)%N
  else if ((97 <=? c) && (c <=? 102))%N then Some (c - 87)%N
  else if ((65 <=? c) && (c <=? 70))%N then Some (c - 55)%N
  else None.

Definition hex4 (a b c d : char) : option N :=
  match hex_value a, hex_value b, hex_value c, hex_value d with
  | Some x, Some y, Some z, Some w =>
      Some (((x * 16 + y) * 16 + z) * 16 + w)%N
  | _, _, _, _ => None
  end.

(** The one-character escapes after a backslash. *)
Definition backslash (c : char) : option char :=
  if (c =? 34)%N then Some 34%N
  else if (c =? 92)%N then Some 92%N
  else if (c =? 47)%N then Some 47%N
  else if (c =? 98)%N then Some 8%N
  else if (c =? 102)%N then Some 12%N
  else if (c =? 110)%N then Some 10%N
  else if (c =? 114)%N then Some 13%N
  else if (c =? 116)%N then Some 9%N
  else None.

Definition is_high_surrogate (u : N) : bool := ((55296 <=? u) && (u <=? 56319))%N.
Definition is_low_surrogate (u : N) : bool := ((56320 <=? u) && (u <=? 57343))%N.

(** The six characters of an escape of a low surrogate, and its value. *)
Definition low_surrogate (b u h1 h2 h3 h4 : char) : option N :=
  if ((b =? 92) && (u =? 117))%N then
    match hex4 h1 h2 h3 h4 with
    | Some lo => if is_low_surrogate lo then Some lo else None
    | None => None
    end
  else None.

(** What the escape of [uni], followed by [s], decodes to: a high
    surrogate joins a low surrogate escaped right after it. *)
Definition joined (uni : N) (s : str) : option N :=
  if is_high_surrogate uni then
    match s with
    | b :: u :: h1 :: h2 :: h3 :: h4 :: _ =>
        match low_surrogate b u h1 h2 h3 h4 with
        | Some lo => Some (65536 + (uni - 55296) * 1024 + (lo - 56320))%N
        | None => None
        end
    | _ => None
    end
  else None.

(** The body of a string after its opening quote, in strict mode: the
    decoded text and what follows the closing quote. *)
Fixpoint scan_string (s acc : str) : option (str * str) :=
  match s with
  | [] => None
  | c :: r =>
      if (c =? 34)%N then Some (rev acc, r)
      else if (c =? 92)%N then
        match r with
        | [] => None
        | e :: r1 =>
            if (e =? 117)%N then
              match r1 with
              | h1 :: h2 :: h3 :: h4 :: r2 =>
                  match hex4 h1 h2 h3 h4 with
                  | None => None
                  | Some uni =>
                      match joined uni r2, r2 with
                      | Some code, _ :: _ :: _ :: _ :: _ :: _ :: r3 =>
                          scan_string r3 (code :: acc)
                      | _, _ => scan_string r2 (uni :: acc)
                      end
                  end
              | _ => None
              end
            else
              match backslash e with
              | Some d => scan_string r1 (d :: acc)
              | None => None
              end
        end
      else if (c <=? 31)%N then None
      else scan_string r (c :: acc)
  end.

Definition scan_literal (word : str) (v : json) (s : str) : option (json * str) :=
  if startswith s word then Some (v, skipn (List.length word) s) else None.

(** [scan_once]: one JSON value at the head of [s].  [parse_item] reads
    the items of an array from the first one on, [parse_member] the
    members of an object from the first key on; both collect in reverse.
    The fuel bounds the depth of the calls; [loads] gives enough. *)
Fixpoint scan_once (fuel : nat) (s : str) : option (json * str) :=
  match fuel with
  | O => None
  | S fuel' =>
      match s with
      | [] => None
      | c :: r =>
          if (c =? 34)%N then
            match scan_string r [] with
            | Some (t, r') => Some (JString t, r')
            | None => None
            end
          else if (c =? 123)%N then
            match skip_ws r with
            | c1 :: r1 =>
                if (c1 =? 125)%N then Some (JObject [], r1)
                else if (c1 =? 34)%N then parse_member fuel' r1 []
                else None
            | [] => None
            end
          else if (c =? 91)%N then
            match skip_ws r with
            | c1 :: r1 =>
                if (c1 =? 93)%N then Some (JArray [], r1)
                else parse_item fuel' (c1 :: r1) []
            | [] => None
            end
          else if (c =? 110)%N then scan_literal (lit "null") JNull s
          else if (c =? 116)%N then scan_literal (lit "true") (JBool true) s
          else if (c =? 102)%N then scan_literal (lit "false") (JBool false) s
          else
            match scan_number s with
            | Some x => Some x
            | None =>
                if (c =? 78)%N then scan_literal (lit "NaN") (JFloat FNaN) s
                else if (c =? 73)%N then
                  scan_literal (lit "Infinity") (JFloat (FInf false)) s
                else if (c =? 45)%N then
                  scan_literal (lit "-Infinity") (JFloat (FInf true)) s
                else None
            end
      end
  end

(** An array item at the head of [s], then [,] and another item, or []]. *)
with parse_item (fuel : nat) (s : str) (acc : list json) : option (json * str) :=
  match fuel with
  | O => None
  | S fuel' =>
      match scan_once fuel' s with
      | None => None
      | Some (v, r) =>
          match skip_ws r with
          | c :: r1 =>
              if (c =? 93)%N then Some (JArray (rev (v :: acc)), r1)
              else if (c =? 44)%N then parse_item fuel' (skip_ws r1) (v :: acc)
              else None
          | [] => None
          end
      end
  end

(** A member after the opening quote of its key: key, [:], value, then [,]
    and the quote of the next key, or [}]. *)
with parse_member (fuel : nat) (s : str) (acc : list (str * json)) : option (json * str) :=
  match fuel with
  | O => None
  | S fuel' =>
      match scan_string s [] with
      | None => None
      | Some (key, r) =>
          match skip_ws r with
          | c :: r1 =>
              if (c =? 58)%N then
                match scan_once fuel' (skip_ws r1) with
                | None => None
                | Some (v, r2) =>
                    match skip_ws r2 with
                    | c2 :: r3 =>
                        if (c2 =? 125)%N then
                          Some (JObject (Dict.of_pairs (rev ((key, v) :: acc))), r3)
                        else if (c2 =? 44)%N then
                          match skip_ws r3 with
                          | c3 :: r4 =>
                              if (c3 =? 34)%N then parse_member fuel' r4 ((key, v) :: acc)
                              else None
                          | [] => None
                          end
                        else None
                    | [] => None
                    end
                end
              else None
          | [] => None
          end
      end
  end.

(** [json.loads(s)]: [None] stands for [JSONDecodeError].  A text that
    starts with a byte order mark is refused; the value must be followed
    by whitespace only. *)
Definition loads (s : str) : option json :=
  if startswith s [65279%N] then None
  else
    match scan_once (2 * List.length s + 2) (skip_ws s) with
    | Some (v, r) => match skip_ws r with [] => Some v | _ => None end
    | None => None
    end.

End JsonDecoder.

Definition json_loads := JsonDecoder.loads.

(* ================================================================== *)
(** ** The retrying API client wrapper *)
(* ================================================================== *)

(** The prompt is a fixed template, chosen by the mislabel-analysis switch,
    filled with four texts of the row; it is kept as the choice and the
    four texts, since it only travels to the client. *)
Record prompt : Type := Prompt {
  prompt_mislabel : bool;
  prompt_target_dataset_id : str;
  prompt_article_id : str;
  prompt_aggregated_text : str;
  prompt_type_label : str
}.

Definition create_analysis_prompt (enable_mislabel_analysis : bool)
    (target_dataset_id article_id aggregated_text type_label : str) : prompt :=
  Prompt enable_mislabel_analysis target_dataset_id article_id
         aggregated_text type_label.

(** What one call of the client does: it raises, or it answers a text.
    Everything raised inside the outer [try] before the JSON is decoded
    is absorbed by the same handler and is a [Raise]. *)
Inductive response : Type :=
| Raise (msg : str)
| Content (content : str).

(** The calls made and the pauses taken, in order. *)
Inductive event : Type :=
| EvCall (p : prompt)
| EvSleep (seconds : Z).

Definition fence_json : str := lit "```json".
Definition fence : str := lit "```".
Definition lbrace : str := lit "{".
Definition rbrace : str := lit "}".

(** The text handed to [json.loads] (lines 176 to 185). *)
Definition extract_json (content : str) : str :=
  if contains content fence_json then
    let json_start := find content fence_json 0 + 7 in
    let json_end := find content fence json_start in
    strip (py_slice content json_start json_end)
  else if contains content lbrace && contains content rbrace then
    let json_start := find content lbrace 0 in
    let json_end := rfind content rbrace + 1 in
    py_slice content json_start json_end
  else content.

Definition parse_response (content : str) : option json :=
  json_loads (extract_json content).

(** The four [return] statements of [call_api_with_retry]. *)
Inductive api_return : Type :=
| RetParsed (result : json)
| RetParseFallback (raw_response item_id : str)
| RetApiError (msg item_id : str)
| RetLoopExit.

(** The text "JSON" followed by the four Chinese characters of the source. *)
Definition json_parse_failed : str :=
  lit "JSON" ++ [35299; 26512; 22833; 36133]%N.

(** The Python value each [return] yields. *)
Definition py_value (r : api_return) : json :=
  match r with
  | RetParsed result => result
  | RetParseFallback raw item_id =>
      JObject [(lit "error", JString json_parse_failed);
               (lit "raw_response", JString raw);
               (lit "item_id", JString item_id)]
  | RetApiError msg item_id =>
      JObject [(lit "error", JString msg); (lit "item_id", JString item_id)]
  | RetLoopExit => JNull
  end.

Definition after (evs : list event) (k : api_return * list event)
  : api_return * list event := (fst k, evs ++ snd k).

(** The body of the [for] loop over the remaining attempts; [client n] is
    what the client does at the call of attempt [n]. *)
Fixpoint retry_loop (client : nat -> response) (max_retries : Z)
    (p : prompt) (item_id : str) (attempts : list nat)
  : api_return * list event :=
  match attempts with
  | [] => (RetLoopExit, [])
  | attempt :: rest =>
      match client attempt with
      | Content content =>
          match parse_response content with
          | Some result => (RetParsed result, [EvCall p])
          | None =>
              if Z.of_nat attempt =? max_retries - 1
              then (RetParseFallback content item_id, [EvCall p])
              else after [EvCall p]
                         (retry_loop client max_retries p item_id rest)
          end
      | Raise msg =>
          if Z.of_nat attempt <? max_retries - 1
          then after [EvCall p; EvSleep (2 ^ Z.of_nat attempt)]
                     (retry_loop client max_retries p item_id rest)
          else (RetApiError msg item_id, [EvCall p])
      end
  end.

(** [range(n)] *)
Definition range (n : Z) : list nat := seq 0 (Z.to_nat n).

Definition call_api_with_retry (client : nat -> response) (max_retries : Z)
    (p : prompt) (item_id : str) : api_return * list event :=
  retry_loop client max_retries p item_id (range max_retries).

(* ================================================================== *)
(** ** The analyzer: per-item processor and batch runner *)
(* ================================================================== *)

(** A row of the table by the four texts the program reads from it,
    [str(row[...])].  The cells were decoded from UTF-8 by the reader of
    the table, so none of them holds a lone surrogate. *)
Record row : Type := Row {
  target_dataset_id : str;
  article_id : str;
  aggregated_text : str;
  type_label : str;
  row_texts :
    encodable_text target_dataset_id && encodable_text article_id
    && encodable_text aggregated_text && encodable_text type_label = true
}.

(** The table: its column names and its rows, each with its index label. *)
Record dataframe : Type := DataFrame {
  columns : list str;
  rows : list (Z * row)
}.

Record config : Type := Config {
  max_retries : Z;
  enable_mislabel_analysis : bool
}.

(** The answer or the message of the client holds no lone surrogate. *)
Definition response_encodable (r : response) : bool :=
  match r with
  | Raise msg => encodable_text msg
  | Content content => encodable_text content
  end.

(** The environment of a run: what the client does at each call made for
    an item, in which order the futures of a batch complete, and what
    the clock shows at each reading.  What the client hands over was
    decoded from UTF-8. *)
Record world : Type := World {
  llm : str -> nat -> response;
  as_completed : Z -> list (option dict) -> list (option dict);
  clock : nat -> str;
  llm_texts : forall item_id n, response_encodable (llm item_id n) = true
}.

(** The mutable part: the whole files of the output directory with what
    they hold, the two shared fields guarded by the lock, the file of
    final results when it is whole, the clock readings so far, the
    history of the calls of [json.dump] on files of the output
    directory, and the names of the files that a failed write left
    truncated. *)
Record state : Type := State {
  temp_dir : list (str * json);
  completed_count : Z;
  failed_items : list json;
  final_file : option json;
  ticks : nat;
  write_log : list (str * json);
  truncated : list str
}.

Definition without (name : str) (names : list str) : list str :=
  filter (fun n => negb (str_eqb n name)) names.

(** A write that goes through: the file holds [content]. *)
Definition write_temp (st : state) (name : str) (content : json) : state :=
  State (Dict.set (temp_dir st) name content) (completed_count st)
        (failed_items st) (final_file st) (ticks st)
        (write_log st ++ [(name, content)])
        (without name (truncated st)).

(** A write that raises on the way: [open(name, 'w')] has emptied the
    file, and it is left with the text written before the exception,
    which is no JSON document. *)
Definition cut_temp (st : state) (name : str) (content : json) : state :=
  State (Dict.remove (temp_dir st) name) (completed_count st)
        (failed_items st) (final_file st) (ticks st)
        (write_log st ++ [(name, content)])
        (without name (truncated st) ++ [name]).

(** [with open(name, 'w', encoding='utf-8') as f:
       json.dump(content, f, ensure_ascii=False, indent=2)]
    inside a [try] whose handler only logs: the exception of a text that
    cannot be encoded is swallowed. *)
Definition dump_temp (st : state) (name : str) (content : json) : state :=
  if encodable content then write_temp st name content
  else cut_temp st name content.

Definition item_filename (batch_id item_index : Z) : str :=
  lit "batch_" ++ str_of_Z batch_id ++ lit "_item_" ++ str_of_Z item_index
  ++ lit ".json".

Definition save_intermediate_result (st : state) (result : dict)
    (batch_id item_index : Z) : state :=
  dump_temp st (item_filename batch_id item_index) (JObject result).

(** The message of the [TypeError] that [result['original_data'] = ...]
    raises on a value that is not a dictionary. *)
Definition setitem_error (v : json) : str :=
  match v with
  | JArray _ => lit "list indices must be integers or slices, not str"
  | JString _ => lit "'str' object does not support item assignment"
  | JInt _ => lit "'int' object does not support item assignment"
  | JFloat _ => lit "'float' object does not support item assignment"
  | JBool _ => lit "'bool' object does not support item assignment"
  | JNull => lit "'NoneType' object does not support item assignment"
  | JObject _ => []
  end.

Definition failure_record (batch_id index : Z) (error : str) : json :=
  JObject [(lit "batch_id", JInt batch_id); (lit "index", JInt index);
           (lit "error", JString error)].

Definition original_data (index : Z) (r : row) : json :=
  JObject [(lit "index", JInt index);
           (lit "target_dataset_id", JString (target_dataset_id r));
           (lit "article_id", JString (article_id r));
           (lit "type", JString (type_label r))].

Definition item_id_of (batch_id index : Z) : str :=
  str_of_Z batch_id ++ lit "_" ++ str_of_Z index.

Definition process_single_item (cfg : config) (w : world) (st : state)
    (item : Z * row) (batch_id : Z) : option dict * state :=
  let '(index, r) := item in
  let p := create_analysis_prompt (enable_mislabel_analysis cfg)
             (target_dataset_id r) (article_id r) (aggregated_text r)
             (type_label r) in
  let item_id := item_id_of batch_id index in
  let result :=
    py_value (fst (call_api_with_retry (llm w item_id) (max_retries cfg)
                                       p item_id)) in
  if truthy result then
    match result with
    | JObject d =>
        let d' := Dict.set d (lit "original_data") (original_data index r) in
        let st1 := save_intermediate_result st d' batch_id index in
        (Some d',
         State (temp_dir st1) (completed_count st1 + 1) (failed_items st1)
               (final_file st1) (ticks st1) (write_log st1) (truncated st1))
    | other =>
        (None,
         State (temp_dir st) (completed_count st)
               (failed_items st
                ++ [failure_record batch_id index (setitem_error other)])
               (final_file st) (ticks st) (write_log st) (truncated st))
    end
  else (None, st).

(** The items of a batch, one after the other in submission order.  The
    workers only meet at the lock, around the counter and the failure
    list, so the state they leave is the one of some sequential order;
    the order in which results are collected is [as_completed]. *)
Fixpoint run_items (cfg : config) (w : world) (st : state)
    (items : list (Z * row)) (batch_id : Z) : list (option dict) * state :=
  match items with
  | [] => ([], st)
  | item :: rest =>
      let '(res, st1) := process_single_item cfg w st item batch_id in
      let '(others, st2) := run_items cfg w st1 rest batch_id in
      (res :: others, st2)
  end.

Definition collect (futures : list (option dict)) : list dict :=
  flat_map (fun res => match res with
                       | Some d => if truthy (JObject d) then [d] else []
                       | None => []
                       end) futures.

Definition process_batch (cfg : config) (w : world) (st : state)
    (data_batch : list (Z * row)) (batch_id : Z) : list dict * state :=
  let '(futures, st1) := run_items cfg w st data_batch batch_id in
  (collect (as_completed w batch_id futures), st1).

Definition batch_filename (batch_id : Z) : str :=
  lit "batch_" ++ str_of_Z batch_id ++ lit "_results.json".

Definition save_batch_results (st : state) (results : list dict)
    (batch_id : Z) : state :=
  dump_temp st (batch_filename batch_id) (JArray (map JObject results)).

Definition endswith (s suffix : str) : bool :=
  startswith (rev s) (rev suffix).

(** What iterating over a value gives ([list.extend], [for ... in]): the
    items of a list, the characters of a text, the keys of a dictionary;
    anything else raises. *)
Definition py_iter (v : json) : option (list json) :=
  match v with
  | JArray l => Some l
  | JString s => Some (map (fun c => JString [c]) s)
  | JObject d => Some (map (fun kv => JString (fst kv)) d)
  | _ => None
  end.

(** The files left truncated are listed too, but [json.load] raises on
    them and the handler only logs: they bring nothing, so that going
    through the whole files is enough. *)
Definition load_existing_results (st : state) : list json :=
  fold_left
    (fun all_results entry =>
       if endswith (fst entry) (lit "_results.json") then
         match py_iter (snd entry) with
         | Some batch_results => all_results ++ batch_results
         | None => all_results
         end
       else all_results)
    (temp_dir st) [].

(* ================================================================== *)
(** ** The summary aggregator *)
(* ================================================================== *)

(** The values that can be keys of a Python dictionary, among those
    [json.loads] gives.  A list or a dictionary cannot be hashed: using
    one as a key raises [TypeError]. *)
Inductive hashable : Type :=
| HNone
| HBool (b : bool)
| HInt (z : Z)
| HFloat (f : pyfloat)
| HText (s : str).

Definition as_key (v : json) : option hashable :=
  match v with
  | JNull => Some HNone
  | JBool b => Some (HBool b)
  | JInt z => Some (HInt z)
  | JFloat f => Some (HFloat f)
  | JString s => Some (HText s)
  | JArray _ => None
  | JObject _ => None
  end.

(** What decides whether two keys are the same key of a dictionary:
    [None], the text, or the number.  A finite number is [odd * 2^e]
    with [odd] odd, or zero, so that an integer, a boolean ([True] is 1,
    [False] is 0) and a float with the same value are one key, as are
    the two zeros of the floats.  Every [NaN] that [json.loads] gives is
    the same object, which a dictionary finds by identity. *)
Inductive key_class : Type :=
| CNone
| CText (s : str)
| CNumber (odd e : Z)
| CInfinity (neg : bool)
| CNaN.

Fixpoint odd_part (p : positive) (e : Z) : positive * Z :=
  match p with
  | xO q => odd_part q (e + 1)
  | _ => (p, e)
  end.

Definition number_class (m e : Z) : key_class :=
  match m with
  | Z0 => CNumber 0 0
  | Zpos p => let '(q, e') := odd_part p e in CNumber (Zpos q) e'
  | Zneg p => let '(q, e') := odd_part p e in CNumber (Zneg q) e'
  end.

Definition hash_class (k : hashable) : key_class :=
  match k with
  | HNone => CNone
  | HBool b => number_class (if b then 1 else 0) 0
  | HInt z => number_class z 0
  | HFloat f =>
      match PyFloat.double_of f with
      | PyFloat.DNaN => CNaN
      | PyFloat.DInf neg => CInfinity neg
      | PyFloat.DNum neg m e => number_class (if neg then - m else m) e
      end
  | HText s => CText s
  end.

Definition key_class_eqb (a b : key_class) : bool :=
  match a, b with
  | CNone, CNone => true
  | CText s, CText t => str_eqb s t
  | CNumber m e, CNumber m' e' => (m =? m') && (e =? e')
  | CInfinity neg, CInfinity neg' => Bool.eqb neg neg'
  | CNaN, CNaN => true
  | _, _ => false
  end.

(** The two keys are the same key: equal hashes and [==]. *)
Definition key_eqb (a b : hashable) : bool :=
  key_class_eqb (hash_class a) (hash_class b).

(** The member name [json.dump] writes for a key. *)
Definition key_text (k : hashable) : str :=
  match k with
  | HNone => lit "null"
  | HBool b => if b then lit "true" else lit "false"
  | HInt z => str_of_Z z
  | HFloat f => PyFloat.float_text (PyFloat.double_of f)
  | HText s => s
  end.

(** A dictionary keyed by hashable values, in insertion order: an entry
    keeps the key it was created with. *)
Module KeyDict.

Fixpoint get {V} (d : list (hashable * V)) (k : hashable) : option V :=
  match d with
  | [] => None
  | (k', v) :: t => if key_eqb k' k then Some v else get t k
  end.

Definition get_default {V} (d : list (hashable * V)) (k : hashable)
    (default : V) : V :=
  match get d k with Some v => v | None => default end.

Definition mem {V} (d : list (hashable * V)) (k : hashable) : bool :=
  match get d k with Some _ => true | None => false end.

Fixpoint set {V} (d : list (hashable * V)) (k : hashable) (v : V)
  : list (hashable * V) :=
  match d with
  | [] => [(k, v)]
  | (k', v') :: t =>
      if key_eqb k' k then (k', v) :: t else (k', v') :: set t k v
  end.

Definition of_pairs {V} (pairs : list (hashable * V)) : list (hashable * V) :=
  fold_left (fun d kv => set d (fst kv) (snd kv)) pairs [].

End KeyDict.

Record tallies : Type := Tallies {
  classification_dist : list (hashable * Z);
  pattern_analysis : list (hashable * list json);
  keyword_frequency : list (hashable * Z)
}.

(** [d[k] = d.get(k, 0) + 1] *)
Definition bump (d : list (hashable * Z)) (k : hashable)
  : list (hashable * Z) :=
  KeyDict.set d k (KeyDict.get_default d k 0 + 1).

(** One turn of the loop over the keywords; [None] when the keyword
    cannot be hashed. *)
Definition count_keyword (kf : option (list (hashable * Z))) (keyword : json)
  : option (list (hashable * Z)) :=
  match kf, as_key keyword with
  | Some d, Some k => Some (bump d k)
  | _, _ => None
  end.

Definition has_error (result : dict) : bool := Dict.mem result (lit "error").

(** One turn of the loop of lines 415 to 430; [None] when it raises
    [TypeError]: the classification cannot be hashed, the keywords
    cannot be iterated, or one of them cannot be hashed. *)
Definition tally_result (t : option tallies) (result : dict) : option tallies :=
  match t with
  | None => None
  | Some t =>
      if has_error result then Some t
      else
        match as_key (Dict.get_default result (lit "original_classification")
                                       (JString (lit "unknown"))) with
        | None => None
        | Some orig_class =>
            let cd := bump (classification_dist t) orig_class in
            let pattern :=
              Dict.get_default result (lit "context_pattern") (JString []) in
            let pa :=
              if truthy pattern then
                KeyDict.set (pattern_analysis t) orig_class
                  (KeyDict.get_default (pattern_analysis t) orig_class []
                   ++ [pattern])
              else pattern_analysis t in
            match py_iter (Dict.get_default result (lit "supporting_keywords")
                                            (JArray [])) with
            | None => None
            | Some keywords =>
                match fold_left count_keyword keywords
                                (Some (keyword_frequency t)) with
                | None => None
                | Some kf => Some (Tallies cd pa kf)
                end
            end
        end
  end.

(** Where [x] goes in a list already in descending order of counts: before
    the first entry whose count is not greater. *)
Fixpoint insert_desc (x : hashable * Z) (l : list (hashable * Z))
  : list (hashable * Z) :=
  match l with
  | [] => [x]
  | y :: t => if snd x <? snd y then y :: insert_desc x t else x :: l
  end.

(** [sorted(items, key=lambda x: x[1], reverse=True)]: a stable sort,
    greatest count first. *)
Definition sorted_by_count_desc (items : list (hashable * Z))
  : list (hashable * Z) :=
  fold_right insert_desc [] items.

Record accuracy : Type := Accuracy {
  total_analyzed : Z;
  correct_classifications : Z;
  incorrect_classifications : Z
}.

Record summary : Type := Summary {
  classification_distribution : list (hashable * Z);
  top_keywords : list (hashable * Z);
  context_patterns_by_type : list (hashable * list json);
  accuracy_analysis : option accuracy
}.

Inductive summary_result : Type :=
| NoValidResults
| SummaryOf (s : summary).

Definition is_correct (r : dict) : bool :=
  truthy (Dict.get_default r (lit "is_correct_classification") (JBool true)).

Definition accuracy_of (results : list dict) : accuracy :=
  Accuracy
    (len (filter (fun r => negb (has_error r)) results))
    (len (filter (fun r => negb (has_error r) && is_correct r) results))
    (len (filter (fun r => negb (has_error r) && negb (is_correct r)) results)).

(** [None] when the loop over the results raises. *)
Definition generate_summary (enable_mislabel : bool) (results : list dict)
  : option summary_result :=
  match results with
  | [] => Some NoValidResults
  | _ =>
      match fold_left tally_result results (Some (Tallies [] [] [])) with
      | None => None
      | Some t =>
          Some (SummaryOf
            (Summary
               (classification_dist t)
               (KeyDict.of_pairs
                  (firstn 20 (sorted_by_count_desc (keyword_frequency t))))
               (pattern_analysis t)
               (if enable_mislabel then Some (accuracy_of results) else None)))
      end
  end.

(* ================================================================== *)
(** ** The dataset driver *)
(* ================================================================== *)

Definition required_columns : list str :=
  [lit "target_dataset_id"; lit "article_id"; lit "aggregated_text";
   lit "type"].

Definition str_in (x : str) (l : list str) : bool := existsb (str_eqb x) l.

(** [range(a, b)] *)
Definition range_from (a b : Z) : list Z :=
  map (fun i => a + Z.of_nat i) (seq 0 (Z.to_nat (b - a))).

Definition total_batches (row_count batch_size : Z) : Z :=
  (row_count + batch_size - 1) / batch_size.

Definition start_idx (batch_size batch_num : Z) : Z := batch_num * batch_size.

Definition end_idx (row_count batch_size batch_num : Z) : Z :=
  Z.min ((batch_num + 1) * batch_size) row_count.

(** [df.iloc[start_idx:end_idx]] *)
Definition batch_data {A} (df_rows : list A) (batch_size batch_num : Z) : list A :=
  py_slice df_rows (start_idx batch_size batch_num)
           (end_idx (len df_rows) batch_size batch_num).

(** [datetime.now().isoformat()] *)
Definition now (w : world) (st : state) : str * state :=
  (clock w (ticks st),
   State (temp_dir st) (completed_count st) (failed_items st) (final_file st)
         (S (ticks st)) (write_log st) (truncated st)).

Definition checkpoint_name : str := lit "checkpoint.json".

Definition checkpoint (batch_num : Z) (all_results : list dict)
    (failed : list json) (timestamp : str) : json :=
  JObject [(lit "last_completed_batch", JInt batch_num);
           (lit "total_completed", JInt (len all_results));
           (lit "failed_items", JArray failed);
           (lit "timestamp", JString timestamp)].

(** One turn of the batch loop (lines 356 to 378).  The checkpoint holds
    numbers, the timestamp and the failure records, whose texts the
    program builds itself: its write goes through. *)
Definition batch_step (cfg : config) (w : world) (df_rows : list (Z * row))
    (batch_size : Z) (acc : list dict * state) (batch_num : Z)
  : list dict * state :=
  let '(all_results, st) := acc in
  let '(batch_results, st1) :=
    process_batch cfg w st (batch_data df_rows batch_size batch_num)
                  batch_num in
  let '(all_results1, st2) :=
    match batch_results with
    | [] => (all_results, st1)
    | _ => (all_results ++ batch_results,
            save_batch_results st1 batch_results batch_num)
    end in
  let '(timestamp, st3) := now w st2 in
  (all_results1,
   write_temp st3 checkpoint_name
     (checkpoint batch_num all_results1 (failed_items st3) timestamp)).

Definition batch_loop (cfg : config) (w : world) (df_rows : list (Z * row))
    (batch_size : Z) (batches : list Z) (acc : list dict * state)
  : list dict * state :=
  fold_left (batch_step cfg w df_rows batch_size) batches acc.

Record metadata : Type := Metadata {
  total_processed : Z;
  total_failed : Z;
  processing_time : str;
  meta_batch_size : Z
}.

Record final_results : Type := FinalResults {
  final_summary : summary_result;
  detailed_results : list dict;
  final_failed_items : list json;
  final_metadata : metadata
}.

Inductive read_result : Type :=
| ReadFails (e : str)
| ReadOk (df : dataframe).

(** How [analyze_dataset] ends: one of its two error returns, an exception
    that escapes it, or the final results. *)
Inductive outcome : Type :=
| ErrorRead (e : str)
| ErrorMissingColumns (missing : list str)
| Raises
| Final (r : final_results).

(** The six Chinese characters of the message for an empty result list. *)
Definition no_valid_results : str :=
  [27809; 26377; 26377; 25928; 32467; 26524]%N.

(** A table of the summary as [json.dump] writes it: every key by its
    text, so that two keys may give the same member name. *)
Definition counts_json (d : list (hashable * Z)) : json :=
  JObject (map (fun kv => (key_text (fst kv), JInt (snd kv))) d).

Definition summary_json (s : summary_result) : json :=
  match s with
  | NoValidResults => JObject [(lit "error", JString no_valid_results)]
  | SummaryOf s =>
      JObject
        ([(lit "classification_distribution",
           counts_json (classification_distribution s));
          (lit "top_keywords", counts_json (top_keywords s));
          (lit "context_patterns_by_type",
           JObject (map (fun kv => (key_text (fst kv), JArray (snd kv)))
                        (context_patterns_by_type s)))]
         ++ match accuracy_analysis s with
            | Some a =>
                [(lit "accuracy_analysis",
                  JObject [(lit "total_analyzed", JInt (total_analyzed a));
                           (lit "correct_classifications",
                            JInt (correct_classifications a));
                           (lit "incorrect_classifications",
                            JInt (incorrect_classifications a))])]
            | None => []
            end)
  end.

Definition final_results_name : str := lit "final_analysis_results.json".

(** The content of the final results file. *)
Definition final_json (r : final_results) : json :=
  JObject [(lit "summary", summary_json (final_summary r));
           (lit "detailed_results", JArray (map JObject (detailed_results r)));
           (lit "failed_items", JArray (final_failed_items r));
           (lit "metadata",
            JObject [(lit "total_processed", JInt (total_processed (final_metadata r)));
                     (lit "total_failed", JInt (total_failed (final_metadata r)));
                     (lit "processing_time", JString (processing_time (final_metadata r)));
                     (lit "batch_size", JInt (meta_batch_size (final_metadata r)))])].

Definition analyze_dataset (cfg : config) (w : world) (st : state)
    (parquet_file : read_result) (batch_size start_from_batch : Z)
  : outcome * state :=
  match parquet_file with
  | ReadFails e => (ErrorRead e, st)
  | ReadOk df =>
      let missing_columns :=
        filter (fun col => negb (str_in col (columns df))) required_columns in
      match missing_columns with
      | _ :: _ => (ErrorMissingColumns missing_columns, st)
      | [] =>
          (* the results of earlier batches are read here, and the value
             is only used for its length in a log line *)
          let existing_results :=
            if 0 <? start_from_batch then load_existing_results st else [] in
          let all_results : list dict := [] in
          if batch_size =? 0 then (Raises, st)
          else
            let '(all_results, st1) :=
              batch_loop cfg w (rows df) batch_size
                (range_from start_from_batch
                            (total_batches (len (rows df)) batch_size))
                (all_results, st) in
            match generate_summary (enable_mislabel_analysis cfg) all_results with
            | None => (Raises, st1)
            | Some summary =>
                let '(time, st2) := now w st1 in
                let final :=
                  FinalResults summary all_results (failed_items st2)
                    (Metadata (len all_results) (len (failed_items st2))
                              time batch_size) in
                (* the write of the final file is in no [try]: it raises
                   when a detailed result cannot be encoded (the keys and
                   the patterns of the summary are values of the detailed
                   results, and the other texts are built by the
                   program) *)
                if forallb (fun d => encodable (JObject d)) all_results
                then
                  (Final final,
                   State (temp_dir st2) (completed_count st2)
                         (failed_items st2) (Some (final_json final))
                         (ticks st2) (write_log st2)
                         (without final_results_name (truncated st2)))
                else
                  (Raises,
                   State (temp_dir st2) (completed_count st2)
                         (failed_items st2) None (ticks st2) (write_log st2)
                         (without final_results_name (truncated st2)
                          ++ [final_results_name]))
            end
      end
  end.

(* ================================================================== *)
(** ** Vocabulary of the specification *)
(* ================================================================== *)

(** [sub] is read in [s] from offset [i] on. *)
Definition occurs_at (sub s : str) (i : nat) : Prop :=
  (i <= List.length s)%nat /\ startswith (skipn i s) sub = true.

Definition absent (sub s : str) : Prop := forall i, ~ occurs_at sub s i.

Definition first_at (sub s : str) (i : nat) : Prop :=
  occurs_at sub s i /\ forall j, (j < i)%nat -> ~ occurs_at sub s j.

(** The keywords of a result as keys, when its [supporting_keywords] can
    be iterated (or is missing) and gives values that can be hashed. *)
Definition keywords_of (result : dict) : option (list hashable) :=
  match py_iter (Dict.get_default result (lit "supporting_keywords")
                                  (JArray [])) with
  | Some items =>
      fold_right (fun v acc =>
                    match as_key v, acc with
                    | Some k, Some ks => Some (k :: ks)
                    | _, _ => None
                    end) (Some []) items
  | None => None
  end.

(** The classification of a result as a key, when it can be hashed; a
    missing classification is [unknown]. *)
Definition class_of (result : dict) : option hashable :=
  as_key (Dict.get_default result (lit "original_classification")
                           (JString (lit "unknown"))).

(** A result on which the aggregator does not raise: it is tagged as an
    error, or its classification can be hashed and its keywords can be
    iterated and hashed. *)
Definition well_shaped (result : dict) : bool :=
  has_error result
  || (match class_of result with Some _ => true | None => false end
      && match keywords_of result with Some _ => true | None => false end).

(** The keywords one result brings to the count. *)
Definition keywords_tallied (r : dict) : list hashable :=
  if has_error r then []
  else match keywords_of r with Some ks => ks | None => [] end.

(** All keywords of the results without an [error] key, flattened. *)
Definition all_keywords (results : list dict) : list hashable :=
  flat_map (fun r => match keywords_of r with Some ks => ks | None => [] end)
           (filter (fun r => negb (has_error r)) results).

(** The number of entries of [l] that are the key [k]. *)
Fixpoint occurrences (k : hashable) (l : list hashable) : Z :=
  match l with
  | [] => 0
  | x :: t => (if key_eqb x k then 1 else 0) + occurrences k t
  end.

(** The distinct keys of [l], each by its first occurrence and at the
    place of it. *)
Fixpoint first_seen (l : list hashable) : list hashable :=
  match l with
  | [] => []
  | x :: t => x :: filter (fun y => negb (key_eqb x y)) (first_seen t)
  end.

(** Every keyword with its number of occurrences, in first-seen order. *)
Definition keyword_counts (results : list dict) : list (hashable * Z) :=
  map (fun k => (k, occurrences k (all_keywords results)))
      (first_seen (all_keywords results)).

(** [a] may stand before [b] in a ranking: its count is not smaller. *)
Definition count_ge (a b : hashable * Z) : Prop := snd b <= snd a.

(** The entries of a ranking that have the count [c], in their order. *)
Definition with_count (c : Z) (l : list (hashable * Z))
  : list (hashable * Z) :=
  filter (fun e => snd e =? c) l.

(** The reading of the [is_correct_classification] field: a missing field
    counts as correct, a present one by its truth value. *)
Definition judged_correct (r : dict) : bool :=
  match Dict.get r (lit "is_correct_classification") with
  | None => true
  | Some v => truthy v
  end.

Definition keyword_result (keywords : list string) : dict :=
  [(lit "supporting_keywords", JArray (map (fun k => JString (lit k)) keywords))].

(** A result tagged as an error that has keywords, a classification, a
    pattern and a judgement all the same. *)
Definition error_result (keywords : list string) : dict :=
  [(lit "error", JString (lit "boom"));
   (lit "supporting_keywords", JArray (map (fun k => JString (lit k)) keywords));
   (lit "original_classification", JString (lit "Primary"));
   (lit "context_pattern", JString (lit "cited as source"));
   (lit "is_correct_classification", JBool false)].

(** The [last_completed_batch] values of the checkpoints in a write history. *)
Definition checkpoints_written (log : list (str * json)) : list json :=
  flat_map (fun e =>
              if str_eqb (fst e) checkpoint_name then
                match snd e with
                | JObject d =>
                    match Dict.get d (lit "last_completed_batch") with
                    | Some v => [v]
                    | None => []
                    end
                | _ => []
                end
              else []) log.

(** The index labels recorded in a list of results. *)
Definition processed_indices (results : list dict) : list json :=
  flat_map (fun d =>
              match Dict.get d (lit "original_data") with
              | Some (JObject od) =>
                  match Dict.get od (lit "index") with
                  | Some v => [v]
                  | None => []
                  end
              | _ => []
              end) results.

Definition is_call (e : event) : bool :=
  match e with EvCall _ => true | EvSleep _ => false end.

Definition sleeps (evs : list event) : list Z :=
  flat_map (fun e => match e with EvSleep n => [n] | EvCall _ => [] end) evs.

Definition empty_state : state := State [] 0 [] None 0 [] [].

(** Where a return of the retry loop comes from, for attempts [lo] up to
    [hi - 1]: a decoded value from a text the client answered, the
    fallback from the last text that did not decode, the message from
    the last exception; the return after the loop from nothing. *)
Definition justified (client : nat -> response) (item_id : str)
    (lo hi : nat) (r : api_return) : Prop :=
  match r with
  | RetParsed v =>
      exists k text, (lo <= k < hi)%nat /\ client k = Content text
                     /\ parse_response text = Some v
  | RetParseFallback raw id =>
      id = item_id /\ client (hi - 1)%nat = Content raw
      /\ parse_response raw = None
  | RetApiError msg id => id = item_id /\ client (hi - 1)%nat = Raise msg
  | RetLoopExit => False
  end.

(** Enough fuel for the decoder: a value decoded from [s] with [f] units,
    leaving [r], is decoded with any amount from twice the length read. *)
Definition fuel_ok_once (f : nat) : Prop :=
  forall s v r, JsonDecoder.scan_once f s = Some (v, r) ->
    (List.length r < List.length s)%nat
    /\ forall g, (2 * (List.length s - List.length r) <= g)%nat ->
                 JsonDecoder.scan_once g s = Some (v, r).

Definition fuel_ok_item (f : nat) : Prop :=
  forall s acc v r, JsonDecoder.parse_item f s acc = Some (v, r) ->
    (List.length r < List.length s)%nat
    /\ forall g, (2 * (List.length s - List.length r) <= g)%nat ->
                 JsonDecoder.parse_item g s acc = Some (v, r).

Definition fuel_ok_member (f : nat) : Prop :=
  forall s acc v r, JsonDecoder.parse_member f s acc = Some (v, r) ->
    (List.length r < List.length s)%nat
    /\ forall g, (2 * (List.length s - List.length r) <= g)%nat ->
                 JsonDecoder.parse_member g s acc = Some (v, r).

(** Sample data. *)
(** The row of four texts, when none of them holds a lone surrogate (a
    row of empty texts otherwise). *)
Definition make_row (a b c d : str) : row :=
  (if encodable_text a && encodable_text b && encodable_text c
      && encodable_text d as ok
      return (encodable_text a && encodable_text b && encodable_text c
              && encodable_text d = ok -> row)
   then fun H => Row a b c d H
   else fun _ => Row [] [] [] [] eq_refl) eq_refl.

Definition sample_row (n : Z) : row :=
  make_row (lit "ds" ++ str_of_Z n) (lit "art" ++ str_of_Z n) (lit "text")
           (lit "Primary").

Definition sample_prompt : prompt :=
  create_analysis_prompt true (lit "ds0") (lit "art0") (lit "text")
                         (lit "Primary").

Definition sample_config : config := Config 3 true.

(** A client that always answers the same text, futures collected in
    submission order, and a clock that shows the reading count. *)
Definition constant_world (answer : response) : world :=
  (if response_encodable answer as ok
      return (response_encodable answer = ok -> world)
   then fun H =>
          World (fun _ _ => answer) (fun _ futures => futures)
                (fun n => str_of_Z (Z.of_nat n)) (fun _ _ => H)
   else fun _ =>
          World (fun _ _ => Raise []) (fun _ futures => futures)
                (fun n => str_of_Z (Z.of_nat n)) (fun _ _ => eq_refl))
    eq_refl.

Definition valid_answer : str :=
  qlit "```json|{'original_classification': 'Primary', 'supporting_keywords': ['x'], 'is_correct_classification': true}|```".

Definition three_rows : dataframe :=
  DataFrame required_columns
            [(0, sample_row 0); (1, sample_row 1); (2, sample_row 2)].

(** A run of the three sample rows in batches of two, with a client that
    always answers a valid classification. *)
Definition answering_world : world := constant_world (Content valid_answer).

Definition full_run : outcome * state :=
  analyze_dataset sample_config answering_world empty_state
                  (ReadOk three_rows) 2 0.

(** The state left by the same run when it is interrupted after batch 0. *)
Definition interrupted_state : state :=
  snd (batch_loop sample_config answering_world (rows three_rows) 2 [0]
                  ([], empty_state)).

(** A new process over the same output directory: the analyzer starts
    with a zero count and an empty failure list. *)
Definition restart (st : state) : state :=
  State (temp_dir st) 0 [] (final_file st) (ticks st) (write_log st)
        (truncated st).

Definition resumed_run : outcome * state :=
  analyze_dataset sample_config answering_world (restart interrupted_state)
                  (ReadOk three_rows) 2 1.

Definition detailed_of (o : outcome) : option (list dict) :=
  match o with
  | Final r => Some (detailed_results r)
  | _ => None
  end.

Definition indices_of (o : outcome) : list json :=
  match o with
  | Final r => processed_indices (detailed_results r)
  | _ => []
  end.

Definition total_processed_of (o : outcome) : option Z :=
  match o with
  | Final r => Some (total_processed (final_metadata r))
  | _ => None
  end.

(* ================================================================== *)
(** ** Resuming from the checkpoint ([run_analysis_example.py]) *)
(* ================================================================== *)

(** How [resume_analysis] ends: it gives up (no checkpoint file, a file
    it cannot use, or the user declines), or it sets [START_FROM_BATCH]
    and calls [main]; the value set is an integer, or a float when the
    checkpoint holds one. *)
Inductive resumption : Type :=
| NotResumed
| ResumesFrom (start_from_batch : Z)
| ResumesFromFloat.

(** [resume_analysis], up to its call of [main].  [confirmed] tells
    whether the answer typed by the user, stripped and in lower case, is
    [y] or [yes]. *)
Definition resume_analysis (st : state) (confirmed : bool) : resumption :=
  match Dict.get (temp_dir st) checkpoint_name with
  | None => NotResumed
  | Some (JObject checkpoint) =>
      match Dict.get_default checkpoint (lit "last_completed_batch")
                             (JInt (-1)) with
      | JInt last_batch =>
          if confirmed then ResumesFrom (last_batch + 1) else NotResumed
      | JBool b =>
          if confirmed then ResumesFrom ((if b then 1 else 0) + 1)
          else NotResumed
      | JFloat _ => if confirmed then ResumesFromFloat else NotResumed
      | _ => NotResumed
      end
  | Some _ => NotResumed
  end.

(* ================================================================== *)
(** ** More vocabulary *)
(* ================================================================== *)

(** The events of one attempt that does not end the loop. *)
Definition attempt_events (client : nat -> response) (p : prompt) (a : nat)
  : list event :=
  match client a with
  | Raise _ => [EvCall p; EvSleep (2 ^ Z.of_nat a)]
  | Content _ => [EvCall p]
  end.

(** The attempt raises, or answers a text that does not decode. *)
Definition attempt_fails (client : nat -> response) (a : nat) : Prop :=
  match client a with
  | Raise _ => True
  | Content text => parse_response text = None
  end.

Definition raises (client : nat -> response) (a : nat) : bool :=
  match client a with Raise _ => true | Content _ => false end.

Definition total (l : list Z) : Z := fold_right Z.add 0 l.

(** [x] is a run of consecutive characters of [s]. *)
Definition infix_of {A} (x s : list A) : Prop :=
  exists pre post, s = pre ++ x ++ post.

(** The pool hands back every future once, in some order. *)
Definition fair (w : world) : Prop :=
  forall batch_id futures, Permutation (as_completed w batch_id futures) futures.

(** The item gives a result (the state has no part in it). *)
Definition succeeds (cfg : config) (w : world) (batch_id : Z)
    (item : Z * row) : bool :=
  match fst (process_single_item cfg w empty_state item batch_id) with
  | Some _ => true
  | None => false
  end.

(** The item is recorded as a failure. *)
Definition fails_hard (cfg : config) (w : world) (batch_id : Z)
    (item : Z * row) : bool :=
  let item_id := item_id_of batch_id (fst item) in
  let p := create_analysis_prompt (enable_mislabel_analysis cfg)
             (target_dataset_id (snd item)) (article_id (snd item))
             (aggregated_text (snd item)) (type_label (snd item)) in
  let result :=
    py_value (fst (call_api_with_retry (llm w item_id) (max_retries cfg)
                                       p item_id)) in
  truthy result && match result with JObject _ => false | _ => true end.

Definition results_suffix : str := lit "_results.json".

(** No file of the directory has the name of a batch-results file. *)
Definition no_result_files (dir : list (str * json)) : Prop :=
  forall e, In e dir -> endswith (fst e) results_suffix = false.

(** The [total_completed] values of the checkpoints in a write history. *)
Definition checkpoint_totals (log : list (str * json)) : list json :=
  flat_map (fun e =>
              if str_eqb (fst e) checkpoint_name then
                match snd e with
                | JObject d =>
                    match Dict.get d (lit "total_completed") with
                    | Some v => [v]
                    | None => []
                    end
                | _ => []
                end
              else []) log.

(** The classifications of the results without an [error] key. *)
Definition classes (results : list dict) : list hashable :=
  flat_map (fun r => match class_of r with Some c => [c] | None => [] end)
           (filter (fun r => negb (has_error r)) results).

Definition required_present (df : dataframe) : Prop :=
  filter (fun col => negb (str_in col (columns df))) required_columns = [].

(** The result of an item; the state has no part in it. *)
Definition item_result (cfg : config) (w : world) (batch_id : Z)
    (item : Z * row) : option dict :=
  fst (process_single_item cfg w empty_state item batch_id).

(** The characters of the decimal writing of an integer. *)
Definition sign_or_digit (c : N) : Prop := (c = 45 \/ 48 <= c <= 57)%N.

(** The results of a batch; the state has no part in them. *)
Definition batch_results (cfg : config) (w : world) (df_rows : list (Z * row))
    (batch_size batch_num : Z) : list dict :=
  fst (process_batch cfg w empty_state (batch_data df_rows batch_size batch_num)
                     batch_num).

(** The index labels of the rows of a batch that give a result. *)
Definition batch_successes (cfg : config) (w : world)
    (df_rows : list (Z * row)) (batch_size batch_num : Z) : list json :=
  map (fun item => JInt (fst item))
      (filter (succeeds cfg w batch_num)
              (batch_data df_rows batch_size batch_num)).

(** The number of rows of a batch recorded as failures. *)
Definition batch_failures (cfg : config) (w : world)
    (df_rows : list (Z * row)) (batch_size batch_num : Z) : Z :=
  len (filter (fails_hard cfg w batch_num)
              (batch_data df_rows batch_size batch_num)).

(** The batches a run goes through. *)
Definition batches_of (df : dataframe) (batch_size start_from_batch : Z)
  : list Z :=
  range_from start_from_batch (total_batches (len (rows df)) batch_size).

(** The same state seen through another listing of its output directory
    ([os.listdir] gives the names in an order of its own). *)
Definition listed (st : state) (listing : list (str * json)) : state :=
  State listing (completed_count st) (failed_items st) (final_file st)
        (ticks st) (write_log st) (truncated st).

(** The [context_pattern] of a result, and the patterns that the results
    without an [error] key bring to the class [c]: the truthy ones, in
    the order of the results. *)
Definition pattern_of (r : dict) : json :=
  Dict.get_default r (lit "context_pattern") (JString []).

Definition in_class (c : hashable) (r : dict) : bool :=
  negb (has_error r)
  && match class_of r with Some c' => key_eqb c' c | None => false end.

Definition patterns_of (c : hashable) (results : list dict) : list json :=
  flat_map (fun r => if truthy (pattern_of r) then [pattern_of r] else [])
           (filter (in_class c) results).

(** Every attempt made for any item fails: the client raises, or answers
    a text that does not decode. *)
Definition api_down (cfg : config) (w : world) : Prop :=
  forall item_id k,
    (k < Z.to_nat (max_retries cfg))%nat -> attempt_fails (llm w item_id) k.

(** The summary of a non-empty list of results that all carry an [error]
    key. *)
Definition summary_of_errors (enable_mislabel : bool) : summary_result :=
  SummaryOf (Summary [] [] []
               (if enable_mislabel then Some (Accuracy 0 0 0) else None)).

(** The running totals of a list of sizes, counted from [so_far]. *)
Fixpoint running_totals (so_far : Z) (sizes : list Z) : list Z :=
  match sizes with
  | [] => []
  | n :: rest => (so_far + n) :: running_totals (so_far + n) rest
  end.

(** A client that raises at its first call, answers a text that does not
    decode at the second, and an empty object from the third on. *)
Definition flaky_client : nat -> response :=
  fun a => match a with
           | O => Raise (lit "timeout")
           | S O => Content (lit "not json")
           | _ => Content (lit "{}")
           end.

(** A client whose answer decodes to a dictionary that holds a lone
    surrogate, written as an escape. *)
Definition surrogate_answer : str := qlit "{'a': '\ud83d'}".

Definition surrogate_world : world := constant_world (Content surrogate_answer).

(** A client whose answer has a number for classification and numbers,
    [null] and a boolean among its keywords. *)
Definition numeric_answer : str :=
  qlit "{'original_classification': 1, 'supporting_keywords': [2020, null, true, 1.0, 'x'], 'context_pattern': 0.5, 'is_correct_classification': 0}".

Definition numeric_world : world := constant_world (Content numeric_answer).

(* ================================================================== *)
(** ** The model at work *)
(* ================================================================== *)

Example str_of_Z_samples :
  str_of_Z 0 = lit "0" /\ str_of_Z 12 = lit "12" /\ str_of_Z (-7) = lit "-7"
  /\ item_id_of 3 41 = lit "3_41"
  /\ batch_filename 10 = lit "batch_10_results.json".
Proof. repeat split; reflexivity. Qed.

Example slice_samples :
  py_slice (lit "abcdef") 2 4 = lit "cd"
  /\ py_slice (lit "abcdef") 2 (-1) = lit "cde"
  /\ py_slice (lit "abcdef") 4 2 = []
  /\ py_slice (lit "abcdef") (-2) 99 = lit "ef"
  /\ find (lit "abcabc") (lit "bc") 2 = 4
  /\ find (lit "abcabc") (lit "x") 0 = -1
  /\ rfind (lit "abcabc") (lit "bc") = 4
  /\ strip (qlit " | a b ||") = lit "a b".
Proof. repeat split; reflexivity. Qed.

Example loads_samples :
  json_loads (qlit " [1, -2.50e-1, 'x\n\u00e9', {'a': {'b': []}, 'a': null}, true] ")
  = Some (JArray [JInt 1; JFloat (FDec true 250 (-3));
                  JString [120; 10; 233]%N;
                  JObject [(lit "a", JNull)]; JBool true])
  /\ json_loads (qlit "'\ud83d\ude00'") = Some (JString [128512%N])
  /\ json_loads (lit "NaN") = Some (JFloat FNaN)
  /\ json_loads (lit "01") = None
  /\ json_loads (lit "1.") = None
  /\ json_loads (lit "[1,]") = None
  /\ json_loads (qlit "{'a':1,}") = None
  /\ json_loads (qlit "{'a':1} x") = None
  /\ json_loads (qlit "'a|b'") = None
  /\ json_loads [] = None.
Proof. repeat split; reflexivity. Qed.

Example truthy_samples :
  truthy (JObject []) = false
  /\ truthy (JFloat (FDec false 0 (-1))) = false
  /\ truthy (JFloat (FDec false 5 (-324))) = true
  /\ truthy (JFloat (FDec false 2 (-324))) = false
  /\ truthy (JString (lit "false")) = true.
Proof. repeat split; reflexivity. Qed.

(** A fence that is never closed: the search for the closing fence gives
    [-1], and the slice drops the last character of the text. *)
Example extract_unclosed_fence :
  extract_json (qlit "```json{'a':1}x") = qlit "{'a':1}".
Proof. reflexivity. Qed.

(** Keys of a dictionary: [1], [True] and [1.0] are one key, as are
    [-0.0] and [0]; the text ["1"] and [None] are keys of their own. *)
Example key_samples :
  key_eqb (HInt 1) (HBool true) = true
  /\ key_eqb (HFloat (FDec false 10 (-1))) (HBool true) = true
  /\ key_eqb (HFloat (FDec true 0 0)) (HInt 0) = true
  /\ key_eqb (HFloat FNaN) (HFloat FNaN) = true
  /\ key_eqb (HText (lit "1")) (HInt 1) = false
  /\ key_eqb HNone (HInt 0) = false
  /\ key_eqb (HFloat (FDec false 1 (-1))) (HFloat (FDec false 10 (-2))) = true.
Proof. repeat split; vm_compute; reflexivity. Qed.

(** The member names [json.dump] writes for keys that are no texts. *)
Example key_text_samples :
  map key_text
      [HFloat (FDec false 10 (-1)); HFloat (FDec false 1 22);
       HFloat (FDec false 1 (-5)); HFloat (FDec true 0 0);
       HFloat (FDec false 1 400); HFloat FNaN; HBool true; HNone;
       HInt (-3); HFloat (FDec false 1 (-1))]
  = [lit "1.0"; lit "1e+22"; lit "1e-05"; lit "-0.0"; lit "Infinity";
     lit "NaN"; lit "true"; lit "null"; lit "-3"; lit "0.1"].
Proof. vm_compute. reflexivity. Qed.

(** A run whose answers hold numbers where texts are expected ends with
    final results: the keys of the summary are those numbers. *)
Example numeric_run :
  exists r st,
    analyze_dataset sample_config numeric_world empty_state
                    (ReadOk three_rows) 2 0 = (Final r, st)
    /\ final_summary r
       = SummaryOf
           (Summary [(HInt 1, 3)]
                    [(HBool true, 6); (HInt 2020, 3); (HNone, 3);
                     (HText (lit "x"), 3)]
                    [(HInt 1, [JFloat (FDec false 5 (-1));
                               JFloat (FDec false 5 (-1));
                               JFloat (FDec false 5 (-1))])]
                    (Some (Accuracy 3 0 3)))
    /\ truncated st = [].
Proof. vm_compute. eexists _, _. repeat split. Qed.

(** A run whose answers decode to a lone surrogate: the writes of the
    per-item files and of the batch files fail silently, the write of
    the final file raises, and the only whole file is the checkpoint.
    The three rows count as completed all the same. *)
Example surrogate_run :
  exists st,
    analyze_dataset sample_config surrogate_world empty_state
                    (ReadOk three_rows) 2 0 = (Raises, st)
    /\ truncated st
       = [lit "batch_0_item_0.json"; lit "batch_0_item_1.json";
          lit "batch_0_results.json"; lit "batch_1_item_2.json";
          lit "batch_1_results.json"; lit "final_analysis_results.json"]
    /\ map fst (temp_dir st) = [lit "checkpoint.json"]
    /\ completed_count st = 3
    /\ final_file st = None
    /\ load_existing_results st = [].
Proof. vm_compute. eexists. repeat split. Qed.

(* ================================================================== *)
(** ** Facts about texts *)
(* ================================================================== *)

Section StrFacts.

Lemma str_eqb_refl (s : str) : str_eqb s s = true.
Proof.
  induction s as [|c s IH]; simpl; [reflexivity|].
  now rewrite N.eqb_refl.
Qed.

Lemma str_eqb_eq (s t : str) : str_eqb s t = true <-> s = t.
Proof.
  split.
  - revert t. induction s as [|a s IH]; intros [|b t]; simpl; try discriminate.
    + reflexivity.
    + intros H. apply andb_prop in H. destruct H as [Hab Hst].
      apply N.eqb_eq in Hab. f_equal; auto.
  - intros ->. apply str_eqb_refl.
Qed.

Lemma str_eqb_neq (s t : str) : str_eqb s t = false <-> s <> t.
Proof.
  rewrite <- str_eqb_eq. destruct (str_eqb s t); split; congruence.
Qed.

Lemma str_eqb_sym (s t : str) : str_eqb s t = str_eqb t s.
Proof.
  destruct (str_eqb s t) eqn:E.
  - apply str_eqb_eq in E. subst. symmetry. apply str_eqb_refl.
  - destruct (str_eqb t s) eqn:E'; [|reflexivity].
    apply str_eqb_eq in E'. subst. now rewrite str_eqb_refl in E.
Qed.

Lemma startswith_nil (s : str) : startswith s [] = true.
Proof. destruct s; reflexivity. Qed.

Lemma startswith_app (sub post : str) : startswith (sub ++ post) sub = true.
Proof.
  induction sub as [|c sub IH]; simpl; [apply startswith_nil|].
  now rewrite N.eqb_refl.
Qed.

Lemma find_nat_unfold (sub s : str) :
  find_nat sub s =
  if startswith s sub then Some 0%nat
  else match s with
       | [] => None
       | _ :: t => option_map S (find_nat sub t)
       end.
Proof. destruct s; reflexivity. Qed.

Lemma occurs_at_0 (sub s : str) :
  occurs_at sub s 0 <-> startswith s sub = true.
Proof.
  unfold occurs_at. simpl. split; [tauto|]. intros H. split; [lia|exact H].
Qed.

Lemma occurs_at_S (sub : str) (c : char) (s : str) (i : nat) :
  occurs_at sub (c :: s) (S i) <-> occurs_at sub s i.
Proof. unfold occurs_at. simpl. split; intros [H1 H2]; split; auto; lia. Qed.

Lemma occurs_at_app (pre sub post : str) :
  occurs_at sub (pre ++ sub ++ post) (List.length pre).
Proof.
  split.
  - rewrite length_app. lia.
  - rewrite skipn_app, Nat.sub_diag, skipn_all. simpl. apply startswith_app.
Qed.

Lemma find_nat_first (sub s : str) (i : nat) :
  find_nat sub s = Some i <-> first_at sub s i.
Proof.
  revert i. induction s as [|c s IH]; intros i.
  - rewrite find_nat_unfold. unfold first_at.
    destruct (startswith [] sub) eqn:E.
    + split.
      * intros [= <-]. split; [now apply occurs_at_0|]. intros j Hj. lia.
      * intros [[Hle _] _]. simpl in Hle. f_equal. lia.
    + split; [discriminate|]. intros [[Hle Hs] _]. simpl in Hle.
      assert (i = 0%nat) by lia. subst.
      change (startswith [] sub = true) in Hs. congruence.
  - rewrite find_nat_unfold. unfold first_at.
    destruct (startswith (c :: s) sub) eqn:E.
    + split.
      * intros [= <-]. split; [now apply occurs_at_0|]. intros j Hj. lia.
      * intros [_ Hmin]. destruct i as [|i]; [reflexivity|].
        exfalso. apply (Hmin 0%nat); [lia|]. now apply occurs_at_0.
    + destruct (find_nat sub s) as [k|] eqn:F; simpl.
      * destruct (proj1 (IH k) eq_refl) as [Hocc Hmin]. split.
        -- intros [= <-]. split; [now apply occurs_at_S|].
           intros [|j] Hj.
           ++ rewrite occurs_at_0. congruence.
           ++ rewrite occurs_at_S. apply Hmin. lia.
        -- intros [Hi Hmin']. destruct i as [|i].
           ++ apply occurs_at_0 in Hi. congruence.
           ++ f_equal. f_equal. apply occurs_at_S in Hi.
              assert (Hfi : first_at sub s i).
              { split; [exact Hi|]. intros j Hj Hc.
                apply (Hmin' (S j)); [lia|]. now apply occurs_at_S. }
              apply IH in Hfi. congruence.
      * split; [discriminate|]. intros [Hi Hmin']. destruct i as [|i].
        -- apply occurs_at_0 in Hi. congruence.
        -- apply occurs_at_S in Hi.
           assert (Hfi : first_at sub s i).
           { split; [exact Hi|]. intros j Hj Hc.
             apply (Hmin' (S j)); [lia|]. now apply occurs_at_S. }
           apply IH in Hfi. congruence.
Qed.

Lemma occurs_at_least (sub s : str) (i : nat) :
  occurs_at sub s i -> exists j, first_at sub s j.
Proof.
  revert s. induction i as [i IH] using lt_wf_ind. intros s Hi.
  destruct (find_nat sub s) as [k|] eqn:F.
  - exists k. now apply find_nat_first.
  - revert i IH Hi. induction s as [|c s IHs]; intros i IH Hi.
    + rewrite find_nat_unfold in F. destruct Hi as [Hle Hs]. simpl in Hle.
      assert (i = 0%nat) by lia. subst.
      change (startswith [] sub = true) in Hs. rewrite Hs in F.
      discriminate.
    + rewrite find_nat_unfold in F.
      destruct (startswith (c :: s) sub) eqn:E; [discriminate|].
      destruct (find_nat sub s) eqn:F'; [discriminate|].
      destruct i as [|i].
      * apply occurs_at_0 in Hi. congruence.
      * apply occurs_at_S in Hi.
        destruct (IHs eq_refl i) as [j Hj]; [|exact Hi|].
        -- intros m Hm s' Hs'. apply (IH m); [lia|exact Hs'].
        -- apply find_nat_first in Hj. congruence.
Qed.

Lemma find_nat_absent (sub s : str) :
  find_nat sub s = None <-> absent sub s.
Proof.
  split.
  - intros F i Hi. destruct (occurs_at_least _ _ _ Hi) as [j Hj].
    apply find_nat_first in Hj. congruence.
  - intros Ha. destruct (find_nat sub s) as [k|] eqn:F; [|reflexivity].
    apply find_nat_first in F. destruct F as [Hocc _]. now apply Ha in Hocc.
Qed.

Lemma contains_absent (s sub : str) : contains s sub = false <-> absent sub s.
Proof.
  unfold contains. rewrite <- find_nat_absent.
  destruct (find_nat sub s); split; congruence.
Qed.

Lemma contains_occurs (s sub : str) (i : nat) :
  occurs_at sub s i -> contains s sub = true.
Proof.
  intros Hi. destruct (contains s sub) eqn:E; [reflexivity|].
  apply contains_absent in E. now apply E in Hi.
Qed.

End StrFacts.

(* ================================================================== *)
(** ** The decoder: its fuel is enough *)
(* ================================================================== *)

Section DecoderFuel.

Import JsonDecoder.

Lemma skip_ws_length (s : str) : (List.length (skip_ws s) <= List.length s)%nat.
Proof.
  induction s as [|c s IH]; simpl; [lia|].
  destruct (is_ws c); simpl; lia.
Qed.

Lemma take_digits_length (s ds r : str) :
  take_digits s = (ds, r) ->
  List.length s = (List.length ds + List.length r)%nat.
Proof.
  revert ds r. induction s as [|c s IH]; intros ds r H; simpl in H.
  - injection H as <- <-. reflexivity.
  - destruct (is_digit c).
    + destruct (take_digits s) as [ds' r'] eqn:E. injection H as <- <-.
      simpl. rewrite (IH ds' r' eq_refl). reflexivity.
    + injection H as <- <-. reflexivity.
Qed.

Lemma take_frac_length (s : str) (o : option str) (r : str) :
  take_frac s = (o, r) -> (List.length r <= List.length s)%nat.
Proof.
  unfold take_frac. destruct s as [|c t]; [intros [= <- <-]; lia|].
  destruct (c =? 46)%N; [|intros [= <- <-]; lia].
  destruct (take_digits t) as [ds r'] eqn:E.
  apply take_digits_length in E.
  destruct ds; intros [= <- <-]; simpl in *; lia.
Qed.

Lemma take_sign_length (s : str) (neg : bool) (r : str) :
  take_sign s = (neg, r) -> (List.length r <= List.length s)%nat.
Proof.
  unfold take_sign. destruct s as [|sg u]; [intros [= <- <-]; lia|].
  destruct (sg =? 45)%N; [intros [= <- <-]; simpl; lia|].
  destruct (sg =? 43)%N; intros [= <- <-]; simpl; lia.
Qed.

Lemma take_exp_length (s : str) (o : option Z) (r : str) :
  take_exp s = (o, r) -> (List.length r <= List.length s)%nat.
Proof.
  unfold take_exp. destruct s as [|c t]; [intros [= <- <-]; lia|].
  destruct ((c =? 101) || (c =? 69))%N; [|intros [= <- <-]; lia].
  destruct (take_sign t) as [neg t'] eqn:Es.
  apply take_sign_length in Es.
  destruct (take_digits t') as [ds r'] eqn:E.
  apply take_digits_length in E.
  destruct ds; intros [= <- <-]; simpl in *; lia.
Qed.

Lemma number_tail_length (neg : bool) (ints rest : str) (v : json) (r : str) :
  number_tail neg ints rest = (v, r) ->
  (List.length r <= List.length rest)%nat.
Proof.
  unfold number_tail.
  destruct (take_frac rest) as [frac r1] eqn:Ef.
  destruct (take_exp r1) as [ex r2] eqn:Ee.
  apply take_frac_length in Ef. apply take_exp_length in Ee.
  destruct frac, ex; intros [= <- <-]; lia.
Qed.

Lemma scan_number_length (s : str) (v : json) (r : str) :
  scan_number s = Some (v, r) -> (List.length r < List.length s)%nat.
Proof.
  unfold scan_number.
  destruct (take_minus s) as [neg s1] eqn:Es.
  assert (Hs1 : (List.length s1 <= List.length s)%nat).
  { unfold take_minus in Es. destruct s as [|c t]; [injection Es as <- <-; lia|].
    destruct (c =? 45)%N; injection Es as <- <-; simpl; lia. }
  destruct s1 as [|c t]; [discriminate|].
  destruct (c =? 48)%N.
  - intros [= H]. apply number_tail_length in H. simpl in *. lia.
  - destruct (is_digit c) eqn:D; [|discriminate].
    destruct (take_digits (c :: t)) as [ds r'] eqn:E.
    intros [= H]. apply number_tail_length in H.
    pose proof (take_digits_length _ _ _ E) as Hl.
    simpl in E. rewrite D in E. destruct (take_digits t).
    injection E as <- <-. simpl in *. lia.
Qed.

Lemma startswith_length (s sub : str) :
  startswith s sub = true -> (List.length sub <= List.length s)%nat.
Proof.
  revert s. induction sub as [|a sub IH]; intros s H; simpl; [lia|].
  destruct s as [|b s]; [discriminate|]. simpl in H.
  apply andb_prop in H. destruct H as [_ H]. apply IH in H. simpl. lia.
Qed.

Lemma scan_literal_length (word : str) (v v' : json) (s r : str) :
  word <> [] ->
  scan_literal word v s = Some (v', r) -> (List.length r < List.length s)%nat.
Proof.
  intros Hw. unfold scan_literal.
  destruct (startswith s word) eqn:E; [|discriminate].
  intros [= <- <-]. apply startswith_length in E.
  rewrite length_skipn. destruct word; [contradiction|]. simpl in *. lia.
Qed.

Lemma scan_string_length (s acc t r : str) :
  scan_string s acc = Some (t, r) -> (List.length r < List.length s)%nat.
Proof.
  assert (Hgen : forall n s acc, (List.length s <= n)%nat ->
                   scan_string s acc = Some (t, r) ->
                   (List.length r < List.length s)%nat);
    [|now apply (Hgen (List.length s))].
  clear s acc. intros n.
  induction n as [|n IH]; intros s acc Hle H.
  - destruct s; [discriminate|simpl in Hle; lia].
  - destruct s as [|c r0]; [discriminate|]. cbn [scan_string] in H.
    destruct (c =? 34)%N; [injection H as <- <-; simpl; lia|].
    destruct (c =? 92)%N.
    + destruct r0 as [|e r1]; [discriminate|].
      destruct (e =? 117)%N.
      * destruct r1 as [|h1 [|h2 [|h3 [|h4 r2]]]]; try discriminate.
        destruct (hex4 h1 h2 h3 h4) as [uni|]; [|discriminate].
        simpl in Hle.
        destruct (joined uni r2) as [code|].
        -- destruct r2 as [|x1 [|x2 [|x3 [|x4 [|x5 [|x6 r3]]]]]];
             try (apply IH in H; simpl in *; lia).
        -- apply IH in H; simpl in *; lia.
      * destruct (backslash e); [|discriminate].
        apply IH in H; simpl in *; lia.
    + destruct (c <=? 31)%N; [discriminate|].
      apply IH in H; simpl in *; lia.
Qed.


Ltac ws_len s E :=
  let H := fresh "Hws" in
  pose proof (skip_ws_length s) as H; rewrite E in H; cbn [List.length] in H.

Ltac literal_case :=
  let H := fresh "H" in
  intros H; split;
  [match type of H with
   | scan_literal ?w _ _ = _ =>
       let L := fresh "L" in
       assert (L : w <> []) by discriminate;
       apply (scan_literal_length _ _ _ _ _ L) in H;
       cbn [List.length] in H; lia
   end
  |intros; exact H].

Lemma fuel_once_step (f : nat) :
  fuel_ok_once f -> fuel_ok_item f -> fuel_ok_member f ->
  fuel_ok_once (S f).
Proof.
  intros IHo IHi IHm s v r.
  destruct s as [|c r0]; [discriminate|].
  assert (Hkey :
    scan_once (S f) (c :: r0) = Some (v, r) ->
    (List.length r < List.length (c :: r0))%nat
    /\ forall g, (2 * (List.length (c :: r0) - List.length r) <= S g)%nat ->
                 scan_once (S g) (c :: r0) = Some (v, r)).
  { cbn [scan_once List.length].
    destruct (c =? 34)%N.
    { destruct (scan_string r0 []) as [[t r']|] eqn:Es; [|discriminate].
      intros [= <- <-]. apply scan_string_length in Es. split; [lia|reflexivity]. }
    destruct (c =? 123)%N.
    { destruct (skip_ws r0) as [|c1 r1] eqn:Ews; [discriminate|].
      ws_len r0 Ews.
      destruct (c1 =? 125)%N; [intros [= <- <-]; split; [lia|reflexivity]|].
      destruct (c1 =? 34)%N; [|discriminate].
      intros H. destruct (IHm _ _ _ _ H) as [Hl Hg].
      split; [lia|]. intros g Hb. apply Hg. lia. }
    destruct (c =? 91)%N.
    { destruct (skip_ws r0) as [|c1 r1] eqn:Ews; [discriminate|].
      ws_len r0 Ews.
      destruct (c1 =? 93)%N; [intros [= <- <-]; split; [lia|reflexivity]|].
      intros H. destruct (IHi _ _ _ _ H) as [Hl Hg]. cbn [List.length] in *.
      split; [lia|]. intros g Hb. apply Hg. cbn [List.length]. lia. }
    destruct (c =? 110)%N.
    { literal_case. }
    destruct (c =? 116)%N.
    { literal_case. }
    destruct (c =? 102)%N.
    { literal_case. }
    destruct (scan_number (c :: r0)) as [x|] eqn:En.
    { intros [= ->]. apply scan_number_length in En.
      cbn [List.length] in En. split; [lia|reflexivity]. }
    destruct (c =? 78)%N.
    { literal_case. }
    destruct (c =? 73)%N.
    { literal_case. }
    destruct (c =? 45)%N; [|discriminate].
    literal_case. }
  intros H. destruct (Hkey H) as [Hl Hg]. split; [exact Hl|].
  intros g Hb. destruct g as [|g]; [lia|]. now apply Hg.
Qed.

Lemma fuel_item_step (f : nat) :
  fuel_ok_once f -> fuel_ok_item f -> fuel_ok_item (S f).
Proof.
  intros IHo IHi s acc v r.
  assert (Hkey :
    parse_item (S f) s acc = Some (v, r) ->
    (List.length r < List.length s)%nat
    /\ forall g, (2 * (List.length s - List.length r) <= S g)%nat ->
                 parse_item (S g) s acc = Some (v, r)).
  { cbn [parse_item].
    destruct (scan_once f s) as [[v1 r1]|] eqn:E1; [|discriminate].
    destruct (IHo _ _ _ E1) as [Hl1 Hg1].
    destruct (skip_ws r1) as [|c r2] eqn:Ews; [discriminate|].
    ws_len r1 Ews.
    destruct (c =? 93)%N eqn:E93.
    { intros [= <- <-]. split; [lia|]. intros g Hb.
      rewrite Hg1 by lia. rewrite Ews, E93. reflexivity. }
    destruct (c =? 44)%N eqn:E44; [|discriminate].
    intros H. destruct (IHi _ _ _ _ H) as [Hl2 Hg2].
    pose proof (skip_ws_length r2) as Hws2.
    split; [lia|]. intros g Hb.
    rewrite Hg1 by lia. rewrite Ews, E93, E44. apply Hg2. lia. }
  intros H. destruct (Hkey H) as [Hl Hg]. split; [exact Hl|].
  intros g Hb. destruct g as [|g]; [lia|]. now apply Hg.
Qed.

Lemma fuel_member_step (f : nat) :
  fuel_ok_once f -> fuel_ok_member f -> fuel_ok_member (S f).
Proof.
  intros IHo IHm s acc v r.
  assert (Hkey :
    parse_member (S f) s acc = Some (v, r) ->
    (List.length r < List.length s)%nat
    /\ forall g, (2 * (List.length s - List.length r) <= S g)%nat ->
                 parse_member (S g) s acc = Some (v, r)).
  { cbn [parse_member].
    destruct (scan_string s []) as [[key r0]|] eqn:Ek; [|discriminate].
    apply scan_string_length in Ek.
    destruct (skip_ws r0) as [|c r1] eqn:Ews0; [discriminate|].
    ws_len r0 Ews0.
    destruct (c =? 58)%N; [|discriminate].
    destruct (scan_once f (skip_ws r1)) as [[v1 r2]|] eqn:E1; [|discriminate].
    destruct (IHo _ _ _ E1) as [Hl1 Hg1].
    pose proof (skip_ws_length r1) as Hws1.
    destruct (skip_ws r2) as [|c2 r3] eqn:Ews2; [discriminate|].
    ws_len r2 Ews2.
    destruct (c2 =? 125)%N eqn:E125.
    { intros [= <- <-]. split; [lia|]. intros g Hb.
      rewrite Hg1 by lia. rewrite Ews2, E125. reflexivity. }
    destruct (c2 =? 44)%N eqn:E44; [|discriminate].
    destruct (skip_ws r3) as [|c3 r4] eqn:Ews3; [discriminate|].
    ws_len r3 Ews3.
    destruct (c3 =? 34)%N eqn:E34; [|discriminate].
    intros H. destruct (IHm _ _ _ _ H) as [Hl2 Hg2].
    split; [lia|]. intros g Hb.
    rewrite Hg1 by lia. rewrite Ews2, E125, E44, Ews3, E34. apply Hg2. lia. }
  intros H. destruct (Hkey H) as [Hl Hg]. split; [exact Hl|].
  intros g Hb. destruct g as [|g]; [lia|]. now apply Hg.
Qed.

Lemma decoder_fuel (f : nat) :
  fuel_ok_once f /\ fuel_ok_item f /\ fuel_ok_member f.
Proof.
  induction f as [|f (IHo & IHi & IHm)].
  - unfold fuel_ok_once, fuel_ok_item, fuel_ok_member.
    repeat split; intros; discriminate.
  - split; [now apply fuel_once_step|].
    split; [now apply fuel_item_step|now apply fuel_member_step].
Qed.

(** Whatever amount of fuel decodes a value decodes it with the amount
    that [loads] gives. *)
Lemma loads_fuel_enough (s : str) (f : nat) (v : json) (r : str) :
  scan_once f (skip_ws s) = Some (v, r) ->
  scan_once (2 * List.length s + 2) (skip_ws s) = Some (v, r).
Proof.
  intros H. destruct (decoder_fuel f) as (Ho & _ & _).
  destruct (Ho _ _ _ H) as [Hl Hg]. apply Hg.
  pose proof (skip_ws_length s). lia.
Qed.


(** When [json_loads] refuses a text that has no byte order mark, no amount
    of fuel decodes a value followed by white space only. *)
Lemma loads_refuses (s : str) :
  json_loads s = None ->
  startswith s [65279%N] = false ->
  forall f v r, scan_once f (skip_ws s) = Some (v, r) -> skip_ws r <> [].
Proof.
  intros Hnone Hbom f v r H.
  apply loads_fuel_enough in H.
  unfold json_loads, loads in Hnone. rewrite Hbom, H in Hnone.
  destruct (skip_ws r); discriminate.
Qed.

End DecoderFuel.

Section SliceFacts.

Lemma len_app {A} (x y : list A) : len (x ++ y) = len x + len y.
Proof. unfold len. rewrite length_app. lia. Qed.

Lemma len_nonneg {A} (x : list A) : 0 <= len x.
Proof. unfold len. lia. Qed.

Lemma norm_index_inside (n i : Z) : 0 <= i <= n -> norm_index n i = i.
Proof.
  intros H. unfold norm_index.
  destruct (i <? 0) eqn:E; [apply Z.ltb_lt in E; lia|]. lia.
Qed.

Lemma py_slice_inside {A} (l : list A) (a b : Z) :
  0 <= a <= len l -> 0 <= b <= len l ->
  py_slice l a b = firstn (Z.to_nat (b - a)) (skipn (Z.to_nat a) l).
Proof.
  intros Ha Hb. unfold py_slice. now rewrite !norm_index_inside.
Qed.

Lemma py_slice_mid {A} (x y z : list A) :
  py_slice (x ++ y ++ z) (len x) (len x + len y) = y.
Proof.
  pose proof (len_nonneg x). pose proof (len_nonneg y).
  pose proof (len_nonneg z).
  rewrite py_slice_inside by (rewrite !len_app; lia).
  replace (len x + len y - len x) with (len y) by lia.
  unfold len. rewrite !Nat2Z.id.
  rewrite skipn_app, Nat.sub_diag, skipn_all. simpl.
  rewrite firstn_app, Nat.sub_diag, firstn_all. simpl.
  apply app_nil_r.
Qed.

Lemma find_at_start (s sub : str) (i : nat) :
  first_at sub s i -> find s sub 0 = Z.of_nat i.
Proof.
  intros H. apply find_nat_first in H. unfold find.
  pose proof (len_nonneg s).
  destruct (len s <? 0) eqn:E; [apply Z.ltb_lt in E; lia|].
  rewrite norm_index_inside by lia. simpl. now rewrite H.
Qed.

Lemma find_after (x rest sub : str) (i : nat) :
  first_at sub rest i -> find (x ++ rest) sub (len x) = len x + Z.of_nat i.
Proof.
  intros H. apply find_nat_first in H. unfold find.
  pose proof (len_nonneg x). pose proof (len_nonneg rest).
  rewrite len_app.
  destruct (len x + len rest <? len x) eqn:E; [apply Z.ltb_lt in E; lia|].
  rewrite norm_index_inside by lia.
  unfold len at 1. rewrite Nat2Z.id.
  rewrite skipn_app, Nat.sub_diag, skipn_all. simpl. now rewrite H.
Qed.

Lemma find_nat_char (c : char) (pre rest : str) :
  ~ In c pre -> find_nat [c] (pre ++ c :: rest) = Some (List.length pre).
Proof.
  induction pre as [|x pre IH]; intros Hn.
  - rewrite find_nat_unfold. simpl. now rewrite N.eqb_refl, startswith_nil.
  - rewrite find_nat_unfold. simpl.
    destruct (N.eqb c x) eqn:E.
    + apply N.eqb_eq in E. subst. exfalso. apply Hn. now left.
    + simpl. rewrite IH; [reflexivity|]. intros Hc. apply Hn. now right.
Qed.

Lemma rfind_nat_char_none (c : char) (s : str) :
  ~ In c s -> rfind_nat [c] s = None.
Proof.
  induction s as [|x s IH]; intros Hn; [reflexivity|].
  simpl. rewrite IH by (intros Hc; apply Hn; now right).
  destruct (N.eqb c x) eqn:E; [|reflexivity].
  apply N.eqb_eq in E. subst. exfalso. apply Hn. now left.
Qed.

Lemma rfind_nat_char (c : char) (pre post : str) :
  ~ In c post -> rfind_nat [c] (pre ++ c :: post) = Some (List.length pre).
Proof.
  intros Hn. induction pre as [|x pre IH].
  - simpl. rewrite (rfind_nat_char_none c post Hn).
    now rewrite N.eqb_refl, startswith_nil.
  - simpl. simpl in IH. now rewrite IH.
Qed.

Lemma contains_char (c : char) (pre rest : str) :
  contains (pre ++ c :: rest) [c] = true.
Proof.
  apply (contains_occurs _ _ (List.length pre)).
  apply (occurs_at_app pre [c] rest).
Qed.

End SliceFacts.

(* ================================================================== *)
(** ** The retry loop *)
(* ================================================================== *)

Section RetryLoop.

Variable client : nat -> response.
Variable max : Z.
Variable p : prompt.
Variable item_id : str.

(** Every attempt raises: one call per attempt, a pause of [2^attempt]
    after each but the last, and the last message is returned. *)
Lemma retry_loop_all_raise (msg : nat -> str) (n a : nat) :
  (a + S n = Z.to_nat max)%nat ->
  (forall k, (a <= k < a + S n)%nat -> client k = Raise (msg k)) ->
  retry_loop client max p item_id (seq a (S n)) =
  (RetApiError (msg (a + n)%nat) item_id,
   flat_map (fun k => [EvCall p; EvSleep (2 ^ Z.of_nat k)]) (seq a n)
   ++ [EvCall p]).
Proof.
  revert a. induction n as [|n IH]; intros a Hmax Hall.
  - simpl. rewrite Hall by lia.
    destruct (Z.of_nat a <? max - 1) eqn:E; [apply Z.ltb_lt in E; lia|].
    now rewrite Nat.add_0_r.
  - change (seq a (S (S n))) with (a :: seq (S a) (S n)).
    cbn [retry_loop]. rewrite Hall by lia.
    destruct (Z.of_nat a <? max - 1) eqn:E; [|apply Z.ltb_ge in E; lia].
    rewrite (IH (S a)) by (try lia; intros k Hk; apply Hall; lia).
    unfold after. cbn [fst snd seq flat_map].
    replace (S a + n)%nat with (a + S n)%nat by lia. reflexivity.
Qed.

(** Every attempt answers a text that does not decode: one call per
    attempt, no pause, and the fallback carries the last text. *)
Lemma retry_loop_all_unparsed (text : nat -> str) (n a : nat) :
  (a + S n = Z.to_nat max)%nat ->
  (forall k, (a <= k < a + S n)%nat ->
             client k = Content (text k) /\ parse_response (text k) = None) ->
  retry_loop client max p item_id (seq a (S n)) =
  (RetParseFallback (text (a + n)%nat) item_id, repeat (EvCall p) (S n)).
Proof.
  revert a. induction n as [|n IH]; intros a Hmax Hall.
  - simpl. destruct (Hall a) as [Hc Hp]; [lia|]. rewrite Hc, Hp.
    destruct (Z.of_nat a =? max - 1) eqn:E; [|apply Z.eqb_neq in E; lia].
    now rewrite Nat.add_0_r.
  - change (seq a (S (S n))) with (a :: seq (S a) (S n)).
    cbn [retry_loop]. destruct (Hall a) as [Hc Hp]; [lia|]. rewrite Hc, Hp.
    destruct (Z.of_nat a =? max - 1) eqn:E; [apply Z.eqb_eq in E; lia|].
    rewrite (IH (S a)) by (try lia; intros k Hk; apply Hall; lia).
    unfold after. cbn [fst snd].
    replace (S a + n)%nat with (a + S n)%nat by lia. reflexivity.
Qed.

Lemma retry_loop_justified (n a : nat) :
  (a + S n = Z.to_nat max)%nat ->
  justified client item_id a (a + S n) (fst (retry_loop client max p item_id (seq a (S n)))).
Proof.
  revert a. induction n as [|n IH]; intros a Hmax.
  - simpl. destruct (client a) as [msg|content] eqn:C.
    + destruct (Z.of_nat a <? max - 1) eqn:E; [apply Z.ltb_lt in E; lia|].
      simpl. replace (a + 1 - 1)%nat with a by lia. auto.
    + destruct (parse_response content) as [v|] eqn:P.
      * simpl. exists a, content. repeat split; auto; lia.
      * destruct (Z.of_nat a =? max - 1) eqn:E; [|apply Z.eqb_neq in E; lia].
        simpl. replace (a + 1 - 1)%nat with a by lia. auto.
  - change (seq a (S (S n))) with (a :: seq (S a) (S n)).
    cbn [retry_loop]. specialize (IH (S a)).
    replace (S a + S n)%nat with (a + S (S n))%nat in IH by lia.
    assert (Hrest : justified client item_id a (a + S (S n))
                      (fst (retry_loop client max p item_id (seq (S a) (S n))))).
    { destruct (fst (retry_loop client max p item_id (seq (S a) (S n))));
        simpl in *; try (apply IH; lia).
      destruct IH as (k & text & Hk & Hc & Hp); [lia|].
      exists k, text. repeat split; auto; lia. }
    destruct (client a) as [msg|content] eqn:C.
    + destruct (Z.of_nat a <? max - 1) eqn:E; [|apply Z.ltb_ge in E; lia].
      exact Hrest.
    + destruct (parse_response content) as [v|] eqn:P.
      * simpl. exists a, content. repeat split; auto; lia.
      * destruct (Z.of_nat a =? max - 1) eqn:E; [apply Z.eqb_eq in E; lia|].
        exact Hrest.
Qed.

End RetryLoop.

(* ================================================================== *)
(** ** The retrying API client wrapper: claims *)
(* ================================================================== *)

Lemma range_succ (max : Z) :
  1 <= max -> range max = seq 0 (S (Z.to_nat (max - 1))).
Proof.
  intros H. unfold range. f_equal. lia.
Qed.

Lemma sleeps_backoff (p : prompt) (l : list nat) :
  sleeps (flat_map (fun k => [EvCall p; EvSleep (2 ^ Z.of_nat k)]) l
          ++ [EvCall p])
  = map (fun k => 2 ^ Z.of_nat k) l.
Proof.
  induction l as [|k l IH]; [reflexivity|].
  simpl. simpl in IH. unfold sleeps in *. simpl. now rewrite IH.
Qed.

Lemma calls_backoff (p : prompt) (l : list nat) :
  filter is_call
    (flat_map (fun k => [EvCall p; EvSleep (2 ^ Z.of_nat k)]) l ++ [EvCall p])
  = repeat (EvCall p) (S (List.length l)).
Proof.
  induction l as [|k l IH]; [reflexivity|].
  simpl. simpl in IH. now rewrite IH.
Qed.

(** C3.  When the client raises at every call and [max_retries >= 1], the
    wrapper calls it exactly [max_retries] times, pauses [2^attempt]
    after each failed attempt but the last, and returns the dictionary
    with the message of the last exception and the item id, not [None]. *)
Theorem call_api_always_raising
    (client : nat -> response) (max : Z) (p : prompt) (item_id : str)
    (msg : nat -> str) :
  1 <= max ->
  (forall k, (k < Z.to_nat max)%nat -> client k = Raise (msg k)) ->
  exists evs,
    call_api_with_retry client max p item_id
    = (RetApiError (msg (Z.to_nat (max - 1))) item_id, evs)
    /\ evs = flat_map (fun k => [EvCall p; EvSleep (2 ^ Z.of_nat k)])
                      (range (max - 1)) ++ [EvCall p]
    /\ len (filter is_call evs) = max
    /\ sleeps evs = map (fun k => 2 ^ Z.of_nat k) (range (max - 1))
    /\ py_value (fst (call_api_with_retry client max p item_id))
       = JObject [(lit "error", JString (msg (Z.to_nat (max - 1))));
                  (lit "item_id", JString item_id)]
    /\ py_value (fst (call_api_with_retry client max p item_id)) <> JNull.
Proof.
  intros Hmax Hall.
  assert (Hrun : call_api_with_retry client max p item_id
                 = (RetApiError (msg (Z.to_nat (max - 1))) item_id,
                    flat_map (fun k => [EvCall p; EvSleep (2 ^ Z.of_nat k)])
                             (range (max - 1)) ++ [EvCall p])).
  { unfold call_api_with_retry. rewrite range_succ by exact Hmax.
    rewrite (retry_loop_all_raise client max p item_id msg).
    - reflexivity.
    - lia.
    - intros k Hk. apply Hall. lia. }
  eexists. split; [exact Hrun|]. split; [reflexivity|].
  split; [|split; [|split]].
  - rewrite calls_backoff. unfold len, range.
    rewrite repeat_length, length_seq. lia.
  - apply sleeps_backoff.
  - rewrite Hrun. reflexivity.
  - rewrite Hrun. discriminate.
Qed.

Lemma call_api_always_raising_witness :
  1 <= 3
  /\ (forall k, (k < Z.to_nat 3)%nat ->
                (fun _ : nat => Raise (lit "timeout")) k = Raise (lit "timeout"))
  /\ exists evs,
      call_api_with_retry (fun _ => Raise (lit "timeout")) 3 sample_prompt
                          (lit "0_0")
      = (RetApiError (lit "timeout") (lit "0_0"), evs)
      /\ evs = [EvCall sample_prompt; EvSleep 1; EvCall sample_prompt;
                EvSleep 2; EvCall sample_prompt].
Proof.
  split; [lia|]. split; [reflexivity|].
  destruct (call_api_always_raising (fun _ => Raise (lit "timeout")) 3
              sample_prompt (lit "0_0") (fun _ => lit "timeout"))
    as (evs & Hrun & Hevs & _); [lia|reflexivity|].
  exists evs. split; [exact Hrun|]. rewrite Hevs. reflexivity.
Defined.

(** C4.  When every call succeeds and no answer decodes as JSON, the
    wrapper returns, at the last of its [max_retries] attempts, the
    fallback dictionary with the parse-failure tag under [error], the
    text of that last attempt under [raw_response], and the item id; it
    does not return [None], and it takes no pause. *)
Theorem call_api_never_parsing
    (client : nat -> response) (max : Z) (p : prompt) (item_id : str)
    (text : nat -> str) :
  1 <= max ->
  (forall k, (k < Z.to_nat max)%nat ->
             client k = Content (text k) /\ parse_response (text k) = None) ->
  call_api_with_retry client max p item_id
  = (RetParseFallback (text (Z.to_nat (max - 1))) item_id,
     repeat (EvCall p) (Z.to_nat max))
  /\ py_value (fst (call_api_with_retry client max p item_id))
     = JObject [(lit "error", JString json_parse_failed);
                (lit "raw_response", JString (text (Z.to_nat (max - 1))));
                (lit "item_id", JString item_id)]
  /\ py_value (fst (call_api_with_retry client max p item_id)) <> JNull.
Proof.
  intros Hmax Hall.
  assert (Hrun : call_api_with_retry client max p item_id
                 = (RetParseFallback (text (Z.to_nat (max - 1))) item_id,
                    repeat (EvCall p) (Z.to_nat max))).
  { unfold call_api_with_retry. rewrite range_succ by exact Hmax.
    rewrite (retry_loop_all_unparsed client max p item_id text).
    - simpl. do 2 f_equal. replace (Z.to_nat max) with (S (Z.to_nat (max - 1))) by lia.
      reflexivity.
    - lia.
    - intros k Hk. apply Hall. lia. }
  rewrite Hrun. repeat split. discriminate.
Qed.

Lemma call_api_never_parsing_witness :
  1 <= 2
  /\ (forall k, (k < Z.to_nat 2)%nat ->
                (fun _ : nat => Content (lit "no json here")) k
                = Content (lit "no json here")
                /\ parse_response (lit "no json here") = None)
  /\ call_api_with_retry (fun _ => Content (lit "no json here")) 2
                         sample_prompt (lit "0_0")
     = (RetParseFallback (lit "no json here") (lit "0_0"),
        [EvCall sample_prompt; EvCall sample_prompt]).
Proof.
  split; [lia|]. split; [intros k _; split; reflexivity|].
  apply (call_api_never_parsing (fun _ => Content (lit "no json here")) 2
           sample_prompt (lit "0_0") (fun _ => lit "no json here")).
  - lia.
  - intros k _. split; reflexivity.
Defined.

(** C6, as stated, fails: a client that answers the text [null] makes the
    wrapper return [None], through the return of the decoded value. *)
Lemma call_api_may_return_null :
  ~ (forall (client : nat -> response) (max : Z) (p : prompt) (item_id : str),
        1 <= max ->
        exists d, py_value (fst (call_api_with_retry client max p item_id))
                  = JObject d).
Proof.
  intros H.
  destruct (H (fun _ => Content (lit "null")) 1 sample_prompt (lit "0_0"))
    as [d Hd]; [lia|].
  vm_compute in Hd. discriminate.
Qed.

(** C6, amended.  With [max_retries >= 1] the return after the loop is
    never reached: the wrapper returns the value decoded from a text the
    client answered, or the parse-failure fallback for the text of the
    last attempt, or the message of the exception of the last attempt.
    The two last are non-empty dictionaries; the decoded value is any
    JSON value, and the wrapper returns [None] only when a text the
    client answered decodes to [null]. *)
Theorem call_api_return_reached
    (client : nat -> response) (max : Z) (p : prompt) (item_id : str) :
  1 <= max ->
  let ret := fst (call_api_with_retry client max p item_id) in
  ret <> RetLoopExit
  /\ justified client item_id 0 (Z.to_nat max) ret
  /\ (py_value ret = JNull ->
      exists k text, (k < Z.to_nat max)%nat /\ client k = Content text
                     /\ parse_response text = Some JNull)
  /\ ((forall v, ret <> RetParsed v) ->
      exists d, py_value ret = JObject d /\ truthy (py_value ret) = true).
Proof.
  intros Hmax ret.
  assert (Hj : justified client item_id 0 (Z.to_nat max) ret).
  { subst ret. unfold call_api_with_retry. rewrite range_succ by exact Hmax.
    replace (Z.to_nat max) with (0 + S (Z.to_nat (max - 1)))%nat by lia.
    apply retry_loop_justified. lia. }
  split; [|split; [exact Hj|split]].
  - intros E. rewrite E in Hj. exact Hj.
  - destruct ret as [v|raw id|msg id|]; simpl; intros Hn; try discriminate.
    + subst v. destruct Hj as (k & text & Hk & Hc & Hp).
      exists k, text. repeat split; auto; lia.
    + destruct Hj.
  - destruct ret as [v|raw id|msg id|]; simpl; intros Hnp.
    + now destruct (Hnp v).
    + eexists. split; reflexivity.
    + eexists. split; reflexivity.
    + destruct Hj.
Qed.

Lemma call_api_return_reached_witness :
  1 <= 1
  /\ fst (call_api_with_retry (fun _ => Content (lit "null")) 1
                              sample_prompt (lit "0_0")) <> RetLoopExit.
Proof.
  split; [lia|].
  apply (call_api_return_reached (fun _ => Content (lit "null")) 1
           sample_prompt (lit "0_0")).
  lia.
Defined.

(* ================================================================== *)
(** ** The per-item processor: claims *)
(* ================================================================== *)

Lemma parse_empty_object : parse_response (lit "{}") = Some (JObject []).
Proof. reflexivity. Qed.

(** C10.  When the wrapper returns a falsy value, the per-item processor
    returns [None] and leaves the state as it was: no per-item file, the
    completed count unchanged, no failure record.  In particular a first
    answer that decodes to the empty object is returned at once by the
    wrapper, and the row then leaves no trace. *)
Theorem falsy_result_leaves_no_trace
    (cfg : config) (w : world) (st : state) (index : Z) (r : row)
    (batch_id : Z) :
  let item_id := item_id_of batch_id index in
  let p := create_analysis_prompt (enable_mislabel_analysis cfg)
             (target_dataset_id r) (article_id r) (aggregated_text r)
             (type_label r) in
  let run := call_api_with_retry (llm w item_id) (max_retries cfg) p item_id in
  (truthy (py_value (fst run)) = false ->
   process_single_item cfg w st (index, r) batch_id = (None, st))
  /\ (forall content,
         1 <= max_retries cfg ->
         llm w item_id 0%nat = Content content ->
         parse_response content = Some (JObject []) ->
         run = (RetParsed (JObject []), [EvCall p])
         /\ py_value (fst run) = JObject []
         /\ process_single_item cfg w st (index, r) batch_id = (None, st))
  /\ parse_response (lit "{}") = Some (JObject []).
Proof.
  intros item_id p run.
  assert (Hfalsy : truthy (py_value (fst run)) = false ->
                   process_single_item cfg w st (index, r) batch_id = (None, st)).
  { intros Hf. unfold process_single_item.
    fold item_id. fold p. fold run. now rewrite Hf. }
  split; [exact Hfalsy|]. split; [|exact parse_empty_object].
  intros content Hmax Hc Hp.
  assert (Hrun : run = (RetParsed (JObject []), [EvCall p])).
  { subst run. unfold call_api_with_retry. rewrite range_succ by exact Hmax.
    cbn [seq retry_loop]. now rewrite Hc, Hp. }
  split; [exact Hrun|]. split; [now rewrite Hrun|].
  apply Hfalsy. now rewrite Hrun.
Qed.

Lemma falsy_result_leaves_no_trace_witness :
  1 <= max_retries sample_config
  /\ process_single_item sample_config (constant_world (Content (lit "{}")))
                         empty_state (0, sample_row 0) 0
     = (None, empty_state).
Proof.
  split; [unfold sample_config; simpl; lia|].
  apply (falsy_result_leaves_no_trace sample_config
           (constant_world (Content (lit "{}"))) empty_state 0 (sample_row 0) 0)
    with (content := lit "{}").
  - unfold sample_config. simpl. lia.
  - reflexivity.
  - reflexivity.
Defined.

(* ================================================================== *)
(** ** JSON extraction: claims *)
(* ================================================================== *)

Lemma fence_json_length : List.length fence_json = 7%nat.
Proof. reflexivity. Qed.

Lemma extract_fenced (pre body post : str) :
  first_at fence_json (pre ++ fence_json ++ body ++ fence ++ post)
           (List.length pre) ->
  first_at fence (body ++ fence ++ post) (List.length body) ->
  extract_json (pre ++ fence_json ++ body ++ fence ++ post) = strip body.
Proof.
  intros Hopen Hclose. unfold extract_json.
  rewrite (contains_occurs _ _ _ (proj1 Hopen)).
  rewrite (find_at_start _ _ _ Hopen).
  replace (Z.of_nat (List.length pre) + 7) with (len (pre ++ fence_json))
    by (rewrite len_app; reflexivity).
  replace (pre ++ fence_json ++ body ++ fence ++ post)
    with ((pre ++ fence_json) ++ body ++ fence ++ post)
    by (now rewrite <- app_assoc).
  rewrite (find_after _ _ _ _ Hclose).
  change (Z.of_nat (List.length body)) with (len body).
  now rewrite py_slice_mid.
Qed.

Lemma extract_braces (pre mid post : str) :
  absent fence_json (pre ++ lbrace ++ mid ++ rbrace ++ post) ->
  ~ In 123%N pre -> ~ In 125%N post ->
  extract_json (pre ++ lbrace ++ mid ++ rbrace ++ post)
  = lbrace ++ mid ++ rbrace.
Proof.
  intros Hno Hpre Hpost. unfold extract_json.
  rewrite (proj2 (contains_absent _ _) Hno).
  change (pre ++ lbrace ++ mid ++ rbrace ++ post)
    with (pre ++ 123%N :: mid ++ 125%N :: post).
  rewrite (contains_char 123%N pre).
  replace (pre ++ 123%N :: mid ++ 125%N :: post)
    with ((pre ++ 123%N :: mid) ++ 125%N :: post)
    by (now rewrite <- app_assoc).
  rewrite (contains_char 125%N). cbn [andb].
  unfold rfind, lbrace, rbrace. change (lit "}") with [125%N].
  rewrite (rfind_nat_char 125%N _ post Hpost).
  rewrite <- app_assoc. cbn [app].
  assert (Hfirst : first_at [123%N] (pre ++ 123%N :: mid ++ 125%N :: post)
                            (List.length pre)).
  { apply find_nat_first. now apply find_nat_char. }
  change (lit "{") with [123%N].
  rewrite (find_at_start _ _ _ Hfirst).
  change (Z.of_nat (List.length pre)) with (len pre).
  replace (Z.of_nat (List.length (pre ++ 123%N :: mid)) + 1)
    with (len pre + len (123%N :: mid ++ [125%N])).
  2:{ unfold len. rewrite !length_app. simpl. rewrite length_app. simpl. lia. }
  replace (pre ++ 123%N :: mid ++ 125%N :: post)
    with (pre ++ (123%N :: mid ++ [125%N]) ++ post).
  2:{ simpl. now rewrite <- app_assoc. }
  now rewrite py_slice_mid.
Qed.

Lemma extract_braces_reversed (a b c : str) :
  absent fence_json (a ++ rbrace ++ b ++ lbrace ++ c) ->
  ~ In 123%N a -> ~ In 123%N b -> ~ In 125%N b -> ~ In 125%N c ->
  extract_json (a ++ rbrace ++ b ++ lbrace ++ c) = [].
Proof.
  intros Hno Ha Hb Hb' Hc. unfold extract_json.
  rewrite (proj2 (contains_absent _ _) Hno).
  change (a ++ rbrace ++ b ++ lbrace ++ c)
    with (a ++ 125%N :: b ++ 123%N :: c).
  unfold lbrace, rbrace. change (lit "{") with [123%N].
  change (lit "}") with [125%N].
  rewrite (contains_char 125%N a).
  assert (Hpre : ~ In 123%N (a ++ 125%N :: b)).
  { intros H. apply in_app_or in H. destruct H as [H|[H|H]]; auto.
    discriminate. }
  assert (Hpost : ~ In 125%N (b ++ 123%N :: c)).
  { intros H. apply in_app_or in H. destruct H as [H|[H|H]]; auto.
    discriminate. }
  assert (Hfirst : first_at [123%N] (a ++ 125%N :: b ++ 123%N :: c)
                            (List.length (a ++ 125%N :: b))).
  { apply find_nat_first.
    replace (a ++ 125%N :: b ++ 123%N :: c)
      with ((a ++ 125%N :: b) ++ 123%N :: c)
      by (now rewrite <- app_assoc).
    now apply find_nat_char. }
  rewrite (contains_occurs _ _ _ (proj1 Hfirst)). cbn [andb].
  rewrite (find_at_start _ _ _ Hfirst).
  unfold rfind. rewrite (rfind_nat_char 125%N a _ Hpost).
  pose proof (len_nonneg a) as La. pose proof (len_nonneg b) as Lb.
  pose proof (len_nonneg c) as Lc.
  rewrite py_slice_inside.
  - replace (Z.to_nat (Z.of_nat (List.length a) + 1
                       - Z.of_nat (List.length (a ++ 125%N :: b))))
      with 0%nat; [reflexivity|].
    rewrite length_app. cbn [List.length]. lia.
  - unfold len in *. rewrite !length_app. cbn [List.length].
    rewrite length_app. cbn [List.length]. lia.
  - unfold len in *. rewrite !length_app. cbn [List.length]. lia.
Qed.

Lemma extract_whole (content : str) :
  absent fence_json content ->
  absent lbrace content \/ absent rbrace content ->
  extract_json content = content.
Proof.
  intros Hno Hbr. unfold extract_json.
  rewrite (proj2 (contains_absent _ _) Hno).
  destruct Hbr as [H|H]; rewrite (proj2 (contains_absent _ _) H);
    [reflexivity|now rewrite andb_false_r].
Qed.

(** C2, as stated, fails in its last part: a text without braces can
    decode.  The text [42] has no brace and no fence, and decodes to the
    integer 42. *)
Lemma text_without_braces_can_parse :
  ~ (forall content : str,
        ~ In 123%N content -> ~ In 125%N content ->
        parse_response content = None).
Proof.
  intros H. specialize (H (lit "42")).
  assert (Hp : parse_response (lit "42") = Some (JInt 42)) by reflexivity.
  rewrite H in Hp; [discriminate| |]; vm_compute; intuition discriminate.
Qed.

(** C2, amended.  The wrapper hands to the decoder: (1) when the text
    has the json fence and a closing fence after it, the text between
    the first json fence and the next fence, stripped of surrounding
    white space; (2) when the text has no json fence and has both
    braces, the text from the first opening brace to the last closing
    brace, both included (the empty text, which does not decode, when the
    last closing brace stands before the first opening brace); (3) when
    the text has no json fence and lacks a brace, the whole text.  The
    first sample decodes to the object with [a] bound to 1, so does the
    second; a text with neither fence nor braces decodes exactly as the
    whole text does: prose fails, the text [42] gives the integer 42.  A
    json fence that is never closed is left out of the statement. *)
Theorem extract_json_order :
  (forall content : str,
      (forall pre body post,
          content = pre ++ fence_json ++ body ++ fence ++ post ->
          first_at fence_json content (List.length pre) ->
          first_at fence (body ++ fence ++ post) (List.length body) ->
          extract_json content = strip body)
      /\ (forall pre mid post,
             absent fence_json content ->
             content = pre ++ lbrace ++ mid ++ rbrace ++ post ->
             ~ In 123%N pre -> ~ In 125%N post ->
             extract_json content = lbrace ++ mid ++ rbrace)
      /\ (forall a b c,
             absent fence_json content ->
             content = a ++ rbrace ++ b ++ lbrace ++ c ->
             ~ In 123%N a -> ~ In 123%N b -> ~ In 125%N b -> ~ In 125%N c ->
             extract_json content = [] /\ parse_response content = None)
      /\ (absent fence_json content ->
          absent lbrace content \/ absent rbrace content ->
          extract_json content = content
          /\ parse_response content = json_loads content)
      /\ parse_response content = json_loads (extract_json content))
  /\ parse_response (qlit "prefix ```json|{'a':1}|``` suffix")
     = Some (JObject [(lit "a", JInt 1)])
  /\ parse_response (qlit "noise {'a':1} noise")
     = Some (JObject [(lit "a", JInt 1)])
  /\ parse_response (lit "no json here") = None
  /\ parse_response (lit "42") = Some (JInt 42).
Proof.
  split; [|repeat split; reflexivity].
  intros content. split; [|split; [|split; [|split]]].
  - intros pre body post -> Hopen Hclose. now apply extract_fenced.
  - intros pre mid post Hno -> Hpre Hpost. now apply extract_braces.
  - intros a b c Hno -> Ha Hb Hb' Hc.
    pose proof (extract_braces_reversed a b c Hno Ha Hb Hb' Hc) as E.
    split; [exact E|]. unfold parse_response. now rewrite E.
  - intros Hno Hbr. pose proof (extract_whole content Hno Hbr) as E.
    split; [exact E|]. unfold parse_response. now rewrite E.
  - reflexivity.
Qed.

Lemma extract_json_order_witness :
  first_at fence_json (qlit "prefix ```json|{'a':1}|``` suffix") 7
  /\ first_at fence (qlit "|{'a':1}|``` suffix") 9
  /\ extract_json (qlit "prefix ```json|{'a':1}|``` suffix")
     = qlit "{'a':1}".
Proof.
  assert (Hopen : first_at fence_json (qlit "prefix ```json|{'a':1}|``` suffix") 7).
  { apply find_nat_first. reflexivity. }
  assert (Hclose : first_at fence (qlit "|{'a':1}|``` suffix") 9).
  { apply find_nat_first. reflexivity. }
  split; [exact Hopen|]. split; [exact Hclose|].
  exact (proj1 (proj1 extract_json_order
                  (qlit "prefix ```json|{'a':1}|``` suffix"))
               (lit "prefix ") (qlit "|{'a':1}|") (lit " suffix")
               eq_refl Hopen Hclose).
Defined.

(* ================================================================== *)
(** ** Batches: claims *)
(* ================================================================== *)

Section Batches.

Context {A : Type}.
Variable df_rows : list A.
Variable batch_size : Z.
Hypothesis batch_size_pos : 1 <= batch_size.

Local Abbreviation R := (len df_rows).
Local Abbreviation T := (total_batches (len df_rows) batch_size).

Lemma total_batches_ceil : (T - 1) * batch_size < R <= T * batch_size.
Proof.
  unfold total_batches.
  pose proof (Z.div_mod (R + batch_size - 1) batch_size) as Hdm.
  pose proof (Z.mod_pos_bound (R + batch_size - 1) batch_size) as Hb.
  assert (Hnz : batch_size <> 0) by lia. specialize (Hdm Hnz).
  assert (Hpos : 0 < batch_size) by lia. specialize (Hb Hpos).
  set (q := (R + batch_size - 1) / batch_size) in *.
  set (m := (R + batch_size - 1) mod batch_size) in *.
  nia.
Qed.

Lemma total_batches_nonneg : 0 <= T.
Proof.
  pose proof total_batches_ceil as Hc. pose proof (len_nonneg df_rows) as HR.
  nia.
Qed.

Lemma batch_bounds (b : Z) :
  0 <= b < T ->
  0 <= start_idx batch_size b
  /\ start_idx batch_size b < end_idx R batch_size b
  /\ end_idx R batch_size b <= R.
Proof.
  intros Hb. pose proof total_batches_ceil as Hc.
  unfold start_idx, end_idx. nia.
Qed.

Lemma batch_data_rows (b : Z) :
  0 <= b < T ->
  batch_data df_rows batch_size b
  = firstn (Z.to_nat (end_idx R batch_size b - start_idx batch_size b))
           (skipn (Z.to_nat (start_idx batch_size b)) df_rows).
Proof.
  intros Hb. destruct (batch_bounds b Hb) as (H1 & H2 & H3).
  unfold batch_data. apply py_slice_inside; lia.
Qed.

Lemma range_from_succ (a : Z) (n : nat) :
  range_from a (a + Z.of_nat (S n))
  = range_from a (a + Z.of_nat n) ++ [a + Z.of_nat n].
Proof.
  unfold range_from.
  replace (Z.to_nat (a + Z.of_nat (S n) - a)) with (S n) by lia.
  replace (Z.to_nat (a + Z.of_nat n - a)) with n by lia.
  rewrite seq_S, map_app. reflexivity.
Qed.

Lemma firstn_then_slice (l : list A) (a b : nat) :
  (a <= b)%nat -> firstn a l ++ firstn (b - a) (skipn a l) = firstn b l.
Proof.
  revert a b. induction l as [|x l IH]; intros a b Hab.
  - now rewrite skipn_nil, !firstn_nil.
  - destruct a as [|a].
    + simpl. now rewrite Nat.sub_0_r.
    + destruct b as [|b]; [lia|]. simpl. f_equal. apply IH. lia.
Qed.

Lemma batches_prefix (n : nat) :
  Z.of_nat n <= T ->
  concat (map (batch_data df_rows batch_size) (range_from 0 (Z.of_nat n)))
  = firstn (Z.to_nat (Z.min (Z.of_nat n * batch_size) R)) df_rows.
Proof.
  induction n as [|n IH]; intros Hn.
  - pose proof (len_nonneg df_rows) as HR.
    replace (Z.min (Z.of_nat 0 * batch_size) R) with 0 by lia. reflexivity.
  - change (Z.of_nat (S n)) with (0 + Z.of_nat (S n)) at 1.
    rewrite range_from_succ, map_app, concat_app. cbn [map concat Z.add].
    rewrite IH by lia. rewrite app_nil_r.
    replace (Z.of_nat (S n)) with (Z.of_nat n + 1) by lia.
    assert (Hb : 0 <= Z.of_nat n < T) by lia.
    rewrite (batch_data_rows _ Hb).
    destruct (batch_bounds _ Hb) as (H1 & H2 & H3).
    unfold start_idx, end_idx in *.
    replace (Z.min (Z.of_nat n * batch_size) R) with (Z.of_nat n * batch_size)
      by lia.
    replace (Z.to_nat (Z.min ((Z.of_nat n + 1) * batch_size) R
                       - Z.of_nat n * batch_size))
      with (Z.to_nat (Z.min ((Z.of_nat n + 1) * batch_size) R)
            - Z.to_nat (Z.of_nat n * batch_size))%nat by lia.
    now rewrite firstn_then_slice by lia.
Qed.

Lemma batches_cover :
  concat (map (batch_data df_rows batch_size) (range_from 0 T)) = df_rows.
Proof.
  pose proof total_batches_nonneg as HT. pose proof total_batches_ceil as Hc.
  rewrite <- (Z2Nat.id T HT). rewrite batches_prefix by lia.
  rewrite Z2Nat.id by exact HT.
  replace (Z.min (T * batch_size) R) with R by lia.
  unfold len. rewrite Nat2Z.id. apply firstn_all.
Qed.

Lemma index_in_one_batch (i : Z) :
  0 <= i < R ->
  exists b, 0 <= b < T
            /\ start_idx batch_size b <= i < end_idx R batch_size b
            /\ forall b', 0 <= b' < T ->
                 start_idx batch_size b' <= i < end_idx R batch_size b' ->
                 b' = b.
Proof.
  intros Hi. pose proof total_batches_ceil as Hc.
  pose proof (Z.div_mod i batch_size) as Hdm.
  pose proof (Z.mod_pos_bound i batch_size) as Hm.
  assert (Hnz : batch_size <> 0) by lia. specialize (Hdm Hnz).
  assert (Hpos : 0 < batch_size) by lia. specialize (Hm Hpos).
  set (q := i / batch_size) in *. set (m := i mod batch_size) in *.
  exists q. unfold start_idx, end_idx.
  assert (Hq : 0 <= q) by nia.
  assert (HqT : q < T) by nia.
  split; [lia|]. split; [nia|].
  intros b' Hb' Hin. nia.
Qed.

End Batches.

(** C5.  For a table of [R] rows and a batch size [B >= 1], the number of
    batches is the ceiling of [R / B], and the batch ranges from
    [batch * B] to [min ((batch + 1) * B) R] split the rows exactly: put
    end to end the batches give the table back, and every row index lies
    in exactly one of them. *)
Theorem batches_partition {A : Type} (df_rows : list A) (batch_size : Z) :
  1 <= batch_size ->
  let R := len df_rows in
  let T := total_batches R batch_size in
  (T - 1) * batch_size < R <= T * batch_size
  /\ concat (map (batch_data df_rows batch_size) (range_from 0 T)) = df_rows
  /\ (forall b, 0 <= b < T ->
        0 <= start_idx batch_size b < end_idx R batch_size b
        /\ end_idx R batch_size b <= R
        /\ batch_data df_rows batch_size b
           = firstn (Z.to_nat (end_idx R batch_size b - start_idx batch_size b))
                    (skipn (Z.to_nat (start_idx batch_size b)) df_rows))
  /\ (forall i, 0 <= i < R ->
        exists b, 0 <= b < T
                  /\ start_idx batch_size b <= i < end_idx R batch_size b
                  /\ forall b', 0 <= b' < T ->
                       start_idx batch_size b' <= i < end_idx R batch_size b' ->
                       b' = b).
Proof.
  intros HB R T. split; [|split; [|split]].
  - now apply total_batches_ceil.
  - now apply batches_cover.
  - intros b Hb. destruct (batch_bounds df_rows batch_size HB b Hb) as (H1 & H2 & H3).
    repeat split; auto. now apply batch_data_rows.
  - intros i Hi. now apply index_in_one_batch.
Qed.

Lemma batches_partition_witness :
  1 <= 2
  /\ total_batches (len (rows three_rows)) 2 = 2
  /\ concat (map (batch_data (rows three_rows) 2) [0; 1]) = rows three_rows.
Proof.
  split; [lia|]. split; [reflexivity|].
  exact (proj1 (proj2 (batches_partition (rows three_rows) 2 ltac:(lia)))).
Defined.

(* ================================================================== *)
(** ** Writes to the output directory *)
(* ================================================================== *)

Section Writes.

Variable st : state.
Variable name : str.
Variable content : json.

Lemma dump_temp_log :
  write_log (dump_temp st name content) = write_log st ++ [(name, content)].
Proof. unfold dump_temp. now destruct (encodable content). Qed.

Lemma dump_temp_completed :
  completed_count (dump_temp st name content) = completed_count st.
Proof. unfold dump_temp. now destruct (encodable content). Qed.

Lemma dump_temp_failed :
  failed_items (dump_temp st name content) = failed_items st.
Proof. unfold dump_temp. now destruct (encodable content). Qed.

Lemma dump_temp_final :
  final_file (dump_temp st name content) = final_file st.
Proof. unfold dump_temp. now destruct (encodable content). Qed.

Lemma dump_temp_ticks : ticks (dump_temp st name content) = ticks st.
Proof. unfold dump_temp. now destruct (encodable content). Qed.

Lemma dump_temp_whole :
  encodable content = true ->
  dump_temp st name content = write_temp st name content.
Proof. unfold dump_temp. now intros ->. Qed.

Lemma dump_temp_cut :
  encodable content = false ->
  dump_temp st name content = cut_temp st name content.
Proof. unfold dump_temp. now intros ->. Qed.

End Writes.

(* ================================================================== *)
(** ** Checkpoints: claims *)
(* ================================================================== *)

Section Checkpoints.

Variable cfg : config.
Variable w : world.

Lemma checkpoints_written_app (l1 l2 : list (str * json)) :
  checkpoints_written (l1 ++ l2)
  = checkpoints_written l1 ++ checkpoints_written l2.
Proof. unfold checkpoints_written. apply flat_map_app. Qed.

Lemma item_file_is_no_checkpoint (batch_id index : Z) :
  str_eqb (item_filename batch_id index) checkpoint_name = false.
Proof. reflexivity. Qed.

Lemma batch_file_is_no_checkpoint (batch_id : Z) :
  str_eqb (batch_filename batch_id) checkpoint_name = false.
Proof. reflexivity. Qed.

Lemma process_single_item_checkpoints (st : state) (item : Z * row) (b : Z) :
  checkpoints_written (write_log (snd (process_single_item cfg w st item b)))
  = checkpoints_written (write_log st).
Proof.
  destruct item as [index r]. unfold process_single_item.
  destruct (truthy _); [|reflexivity].
  destruct (py_value _); try reflexivity.
  cbn [snd write_log]. unfold save_intermediate_result.
  rewrite dump_temp_log, checkpoints_written_app.
  cbn [checkpoints_written flat_map fst].
  rewrite item_file_is_no_checkpoint. now rewrite !app_nil_r.
Qed.

Lemma run_items_checkpoints (items : list (Z * row)) (st : state) (b : Z) :
  checkpoints_written (write_log (snd (run_items cfg w st items b)))
  = checkpoints_written (write_log st).
Proof.
  revert st. induction items as [|item items IH]; intros st; [reflexivity|].
  cbn [run_items].
  pose proof (process_single_item_checkpoints st item b) as H1.
  destruct (process_single_item cfg w st item b) as [res st1].
  specialize (IH st1).
  destruct (run_items cfg w st1 items b) as [others st2].
  cbn [snd] in *. congruence.
Qed.

Lemma process_batch_checkpoints (st : state) (data : list (Z * row)) (b : Z) :
  checkpoints_written (write_log (snd (process_batch cfg w st data b)))
  = checkpoints_written (write_log st).
Proof.
  unfold process_batch.
  pose proof (run_items_checkpoints data st b) as H.
  destruct (run_items cfg w st data b) as [futures st1]. exact H.
Qed.

(** Each turn of the loop ends with the write of its checkpoint, whatever
    the batch produced. *)
Lemma batch_step_ends_with_checkpoint
    (df_rows : list (Z * row)) (batch_size : Z)
    (acc : list dict * state) (b : Z) :
  exists log failed timestamp,
    write_log (snd (batch_step cfg w df_rows batch_size acc b))
    = log ++ [(checkpoint_name,
               checkpoint b (fst (batch_step cfg w df_rows batch_size acc b))
                          failed timestamp)]
    /\ checkpoints_written log = checkpoints_written (write_log (snd acc)).
Proof.
  destruct acc as [all_results st]. unfold batch_step.
  pose proof (process_batch_checkpoints st
                (batch_data df_rows batch_size b) b) as H.
  destruct (process_batch cfg w st (batch_data df_rows batch_size b) b)
    as [batch_results st1].
  cbn [snd] in H.
  destruct batch_results as [|d batch_results].
  - cbn [now write_temp snd fst write_log].
    eexists _, _, _. split; [reflexivity|exact H].
  - cbn [now write_temp snd fst write_log]. unfold save_batch_results.
    eexists _, _, _. split; [reflexivity|].
    rewrite dump_temp_log, checkpoints_written_app.
    cbn [checkpoints_written flat_map fst].
    rewrite batch_file_is_no_checkpoint, !app_nil_r. exact H.
Qed.

Lemma batch_step_checkpoints
    (df_rows : list (Z * row)) (batch_size : Z)
    (acc : list dict * state) (b : Z) :
  checkpoints_written
    (write_log (snd (batch_step cfg w df_rows batch_size acc b)))
  = checkpoints_written (write_log (snd acc)) ++ [JInt b].
Proof.
  destruct (batch_step_ends_with_checkpoint df_rows batch_size acc b)
    as (log & failed & ts & Hlog & Hprev).
  rewrite Hlog, checkpoints_written_app, Hprev. reflexivity.
Qed.

Lemma batch_loop_checkpoints
    (df_rows : list (Z * row)) (batch_size : Z) (batches : list Z)
    (acc : list dict * state) :
  checkpoints_written
    (write_log (snd (batch_loop cfg w df_rows batch_size batches acc)))
  = checkpoints_written (write_log (snd acc)) ++ map JInt batches.
Proof.
  revert acc. induction batches as [|b batches IH]; intros acc.
  - simpl. now rewrite app_nil_r.
  - unfold batch_loop in *. cbn [fold_left map].
    rewrite IH, batch_step_checkpoints, <- app_assoc. reflexivity.
Qed.

End Checkpoints.

Lemma range_from_increasing (a b : Z) : StronglySorted Z.lt (range_from a b).
Proof.
  unfold range_from. generalize (Z.to_nat (b - a)) as n. intros n.
  assert (H : forall k, StronglySorted Z.lt
                          (map (fun i => a + Z.of_nat i) (seq k n))).
  { induction n as [|n IH]; intros k; [constructor|].
    cbn [seq map]. constructor; [apply IH|].
    apply Forall_forall. intros x Hx. apply in_map_iff in Hx.
    destruct Hx as (i & <- & Hi). apply in_seq in Hi. lia. }
  apply H.
Qed.

(** C7.  In one run of [analyze_dataset] that reaches the batch loop, the
    checkpoints written carry, in order, the numbers of the batches
    iterated, from [start_from_batch] to the last batch: one checkpoint
    per turn of the loop, also for a batch without any result, and the
    values of [last_completed_batch] strictly increase. *)
Theorem checkpoints_strictly_increase
    (cfg : config) (w : world) (st : state) (df : dataframe)
    (batch_size start_from_batch : Z) :
  filter (fun col => negb (str_in col (columns df))) required_columns = [] ->
  batch_size <> 0 ->
  let batches :=
    range_from start_from_batch (total_batches (len (rows df)) batch_size) in
  let st' := snd (analyze_dataset cfg w st (ReadOk df) batch_size
                                  start_from_batch) in
  checkpoints_written (write_log st')
  = checkpoints_written (write_log st) ++ map JInt batches
  /\ StronglySorted Z.lt batches
  /\ (forall acc b,
         exists log failed timestamp,
           write_log (snd (batch_step cfg w (rows df) batch_size acc b))
           = log ++ [(checkpoint_name,
                      checkpoint b
                        (fst (batch_step cfg w (rows df) batch_size acc b))
                        failed timestamp)]).
Proof.
  intros Hcols Hbs batches st'. split; [|split].
  - subst st'. unfold analyze_dataset. rewrite Hcols.
    destruct (batch_size =? 0) eqn:E; [apply Z.eqb_eq in E; contradiction|].
    pose proof (batch_loop_checkpoints cfg w (rows df) batch_size batches
                  ([], st)) as Hloop.
    fold batches.
    destruct (batch_loop cfg w (rows df) batch_size batches ([], st))
      as [all_results st1].
    cbn [snd] in Hloop.
    destruct (generate_summary _ all_results); [|exact Hloop].
    cbv beta iota zeta delta [now].
    match goal with
    | |- context [forallb ?f all_results] => destruct (forallb f all_results)
    end; exact Hloop.
  - apply range_from_increasing.
  - intros acc b.
    destruct (batch_step_ends_with_checkpoint cfg w (rows df) batch_size acc b)
      as (log & failed & ts & Hlog & _).
    now exists log, failed, ts.
Qed.

Lemma checkpoints_strictly_increase_witness :
  filter (fun col => negb (str_in col (columns three_rows))) required_columns
  = []
  /\ 2 <> 0
  /\ checkpoints_written
       (write_log
          (snd (analyze_dataset sample_config
                  (constant_world (Content (lit "{}")))
                  empty_state (ReadOk three_rows) 2 0)))
     = [JInt 0; JInt 1].
Proof.
  split; [reflexivity|]. split; [lia|].
  exact (proj1 (checkpoints_strictly_increase sample_config
                  (constant_world (Content (lit "{}")))
                  empty_state three_rows 2 0 eq_refl ltac:(lia))).
Defined.

(* ================================================================== *)
(** ** The summary aggregator: counting keywords *)
(* ================================================================== *)

Section KeywordCounts.

Lemma str_in_In (k : str) (l : list str) : str_in k l = true <-> In k l.
Proof.
  unfold str_in. rewrite existsb_exists. split.
  - intros (x & Hx & E). apply str_eqb_eq in E. now subst.
  - intros H. exists k. split; [exact H|apply str_eqb_refl].
Qed.

Lemma str_in_not_In (k : str) (l : list str) : str_in k l = false <-> ~ In k l.
Proof.
  rewrite <- str_in_In. destruct (str_in k l); split; congruence.
Qed.

(** Two keys are the same key exactly when they have the same class. *)
Lemma key_class_eqb_eq (a b : key_class) :
  key_class_eqb a b = true <-> a = b.
Proof.
  destruct a as [|s|m e|n|], b as [|t|m' e'|n'|]; cbn [key_class_eqb];
    try (split; [discriminate|discriminate]); try tauto.
  - rewrite str_eqb_eq. split; congruence.
  - rewrite andb_true_iff, !Z.eqb_eq. split; [intros [-> ->]|intros [= -> ->]];
      auto.
  - rewrite Bool.eqb_true_iff. split; congruence.
Qed.

Lemma key_eqb_class (a b : hashable) :
  key_eqb a b = true <-> hash_class a = hash_class b.
Proof. apply key_class_eqb_eq. Qed.

Lemma key_eqb_refl (k : hashable) : key_eqb k k = true.
Proof. now apply key_eqb_class. Qed.

Lemma key_eqb_sym (a b : hashable) : key_eqb a b = key_eqb b a.
Proof.
  destruct (key_eqb a b) eqn:E, (key_eqb b a) eqn:E'; try reflexivity.
  - apply key_eqb_class in E. symmetry in E. apply key_eqb_class in E.
    congruence.
  - apply key_eqb_class in E'. symmetry in E'. apply key_eqb_class in E'.
    congruence.
Qed.

Lemma key_eqb_same (a b c : hashable) :
  key_eqb a b = true -> key_eqb a c = key_eqb b c.
Proof.
  intros H. apply key_eqb_class in H.
  destruct (key_eqb a c) eqn:E, (key_eqb b c) eqn:E'; try reflexivity.
  - apply key_eqb_class in E. rewrite H in E. apply key_eqb_class in E.
    congruence.
  - apply key_eqb_class in E'. rewrite <- H in E'. apply key_eqb_class in E'.
    congruence.
Qed.

(** [k] is one of the keys of [l]. *)
Local Abbreviation key_in k l := (existsb (key_eqb k) l).

Lemma key_in_same (a b : hashable) (l : list hashable) :
  key_eqb a b = true -> key_in a l = key_in b l.
Proof.
  intros H. induction l as [|x l IH]; [reflexivity|].
  cbn [existsb]. now rewrite IH, (key_eqb_same a b x H).
Qed.

Lemma key_in_filter (k x : hashable) (l : list hashable) :
  key_eqb x k = false ->
  key_in k (filter (fun y => negb (key_eqb x y)) l) = key_in k l.
Proof.
  intros H. induction l as [|y l IH]; [reflexivity|].
  cbn [filter existsb]. destruct (key_eqb x y) eqn:E; cbn [negb existsb].
  - rewrite IH. rewrite (key_eqb_sym k y), <- (key_eqb_same x y k E), H.
    reflexivity.
  - now rewrite IH.
Qed.

Lemma first_seen_in (k : hashable) (l : list hashable) :
  key_in k (first_seen l) = key_in k l.
Proof.
  induction l as [|x l IH]; [reflexivity|].
  cbn [first_seen existsb]. destruct (key_eqb k x) eqn:E; [reflexivity|].
  cbn [orb]. rewrite key_in_filter; [exact IH|].
  now rewrite key_eqb_sym.
Qed.

Lemma key_in_class (k : hashable) (l : list hashable) :
  key_in k l = true <-> In (hash_class k) (map hash_class l).
Proof.
  rewrite existsb_exists, in_map_iff. split.
  - intros (x & Hx & E). apply key_eqb_class in E. now exists x.
  - intros (x & E & Hx). exists x. split; [exact Hx|].
    now apply key_eqb_class.
Qed.

(** No two entries of [first_seen] are the same key. *)
Lemma first_seen_distinct (l : list hashable) :
  NoDup (map hash_class (first_seen l)).
Proof.
  induction l as [|x l IH]; [constructor|].
  cbn [first_seen map]. constructor.
  - rewrite in_map_iff. intros (y & E & Hy). apply filter_In in Hy.
    destruct Hy as [_ Hy]. symmetry in E. apply key_eqb_class in E.
    now rewrite E in Hy.
  - clear - IH. induction (first_seen l) as [|y f IHf]; [constructor|].
    cbn [map] in IH. inversion IH as [|? ? Hy Hf]; subst.
    cbn [filter]. destruct (negb (key_eqb x y)); [|now apply IHf].
    cbn [map]. constructor; [|now apply IHf].
    intros H. apply Hy. apply in_map_iff in H.
    destruct H as (z & E & Hz). apply filter_In in Hz.
    apply in_map_iff. exists z. now split.
Qed.

Lemma first_seen_snoc (l : list hashable) (k : hashable) :
  first_seen (l ++ [k])
  = if key_in k l then first_seen l else first_seen l ++ [k].
Proof.
  induction l as [|x l IH]; [reflexivity|].
  cbn [app first_seen]. rewrite IH. cbn [existsb].
  destruct (key_eqb k x) eqn:E.
  - cbn [orb]. destruct (key_in k l); [reflexivity|].
    rewrite filter_app. cbn [filter]. rewrite key_eqb_sym, E. cbn [negb].
    now rewrite app_nil_r.
  - cbn [orb]. destruct (key_in k l); [reflexivity|].
    rewrite filter_app. cbn [filter]. rewrite key_eqb_sym, E. reflexivity.
Qed.

Lemma occurrences_snoc (k' : hashable) (l : list hashable) (k : hashable) :
  occurrences k' (l ++ [k])
  = occurrences k' l + (if key_eqb k k' then 1 else 0).
Proof.
  induction l as [|x l IH]; simpl; [lia|]. rewrite IH. lia.
Qed.

Lemma occurrences_absent (k : hashable) (l : list hashable) :
  key_in k l = false -> occurrences k l = 0.
Proof.
  induction l as [|x l IH]; intros Hn; [reflexivity|].
  cbn [existsb] in Hn. apply orb_false_elim in Hn. destruct Hn as [H1 H2].
  cbn [occurrences]. rewrite key_eqb_sym, H1, IH by exact H2. reflexivity.
Qed.

(** The count of a key does not depend on how the key is written. *)
Lemma occurrences_same (a b : hashable) (l : list hashable) :
  key_eqb a b = true -> occurrences a l = occurrences b l.
Proof.
  intros H. induction l as [|x l IH]; [reflexivity|].
  cbn [occurrences].
  now rewrite IH, (key_eqb_sym x a), (key_eqb_same a b x H), (key_eqb_sym b x).
Qed.

Lemma get_counts (f : hashable -> Z) (l : list hashable) (k : hashable) :
  (forall a b, key_eqb a b = true -> f a = f b) ->
  KeyDict.get (map (fun x => (x, f x)) l) k
  = if key_in k l then Some (f k) else None.
Proof.
  intros Hf. induction l as [|x l IH]; [reflexivity|].
  cbn [map KeyDict.get existsb].
  rewrite (key_eqb_sym k x). destruct (key_eqb x k) eqn:E.
  - cbn [orb]. now rewrite (Hf x k E).
  - exact IH.
Qed.

Lemma set_fresh {V} (d : list (str * V)) (k : str) (v : V) :
  ~ In k (map fst d) -> Dict.set d k v = d ++ [(k, v)].
Proof.
  induction d as [|[k' v'] d IH]; intros Hn; [reflexivity|].
  cbn [Dict.set app]. destruct (str_eqb k' k) eqn:E.
  - apply str_eqb_eq in E. subst. exfalso. apply Hn. now left.
  - rewrite IH; [reflexivity|]. intros H. apply Hn. now right.
Qed.

Lemma key_set_fresh {V} (d : list (hashable * V)) (k : hashable) (v : V) :
  key_in k (map fst d) = false -> KeyDict.set d k v = d ++ [(k, v)].
Proof.
  induction d as [|[k' v'] d IH]; intros Hn; [reflexivity|].
  cbn [map fst existsb] in Hn. apply orb_false_elim in Hn.
  destruct Hn as [H1 H2].
  cbn [KeyDict.set app]. rewrite key_eqb_sym, H1. now rewrite IH.
Qed.

Lemma set_counts (f : hashable -> Z) (l : list hashable) (k : hashable)
    (v : Z) :
  NoDup (map hash_class l) -> key_in k l = true ->
  KeyDict.set (map (fun x => (x, f x)) l) k v
  = map (fun x => (x, if key_eqb x k then v else f x)) l.
Proof.
  induction l as [|x l IH]; intros Hnd Hin; [discriminate|].
  cbn [map] in Hnd. inversion Hnd as [|? ? Hx Hl]; subst.
  cbn [map KeyDict.set]. destruct (key_eqb x k) eqn:E.
  - f_equal. apply map_ext_in. intros y Hy.
    destruct (key_eqb y k) eqn:E'; [|reflexivity].
    exfalso. apply Hx. apply key_eqb_class in E, E'.
    rewrite E, <- E'. now apply in_map.
  - f_equal. apply IH; [exact Hl|].
    cbn [existsb] in Hin. now rewrite key_eqb_sym, E in Hin.
Qed.

Lemma map_fst_counts {K} (f : K -> Z) (l : list K) :
  map fst (map (fun x => (x, f x)) l) = l.
Proof. rewrite map_map. simpl. apply map_id. Qed.

(** Counting one keyword after the other gives every keyword once, by
    its first occurrence and at the place of it, with its number of
    occurrences. *)
Lemma bump_all (ks : list hashable) :
  fold_left bump ks []
  = map (fun k => (k, occurrences k ks)) (first_seen ks).
Proof.
  induction ks as [|k ks IH] using rev_ind; [reflexivity|].
  rewrite fold_left_app. cbn [fold_left]. rewrite IH.
  unfold bump, KeyDict.get_default.
  rewrite get_counts by (intros a b Hab; now apply occurrences_same).
  rewrite first_seen_snoc, first_seen_in.
  destruct (key_in k ks) eqn:Hin.
  - rewrite set_counts.
    + apply map_ext. intros x. rewrite occurrences_snoc.
      rewrite (key_eqb_sym k x).
      destruct (key_eqb x k) eqn:E; [|f_equal; lia].
      now rewrite (occurrences_same x k ks E).
    + apply first_seen_distinct.
    + now rewrite first_seen_in.
  - rewrite key_set_fresh.
    + rewrite map_app. cbn [map]. f_equal.
      * apply map_ext_in. intros x Hx. rewrite occurrences_snoc.
        destruct (key_eqb k x) eqn:E; [|f_equal; lia].
        exfalso.
        assert (H : key_in k (first_seen ks) = true).
        { apply existsb_exists. now exists x. }
        rewrite first_seen_in, Hin in H. discriminate.
      * rewrite occurrences_snoc, key_eqb_refl.
        now rewrite (occurrences_absent k ks Hin).
    + now rewrite map_fst_counts, first_seen_in.
Qed.

Lemma count_keywords_fold (items : list json) (ks : list hashable)
    (d : list (hashable * Z)) :
  fold_right (fun v acc =>
                match as_key v, acc with
                | Some k, Some ks => Some (k :: ks)
                | _, _ => None
                end) (Some []) items = Some ks ->
  fold_left count_keyword items (Some d) = Some (fold_left bump ks d).
Proof.
  revert ks d. induction items as [|v items IH]; intros ks d H.
  - simpl in H. injection H as <-. reflexivity.
  - cbn [fold_right] in H. destruct (as_key v) as [k|] eqn:Ek; [|discriminate].
    destruct (fold_right _ _ items) as [ks'|] eqn:Ef; [|discriminate].
    injection H as <-. cbn [fold_left count_keyword]. rewrite Ek.
    now rewrite (IH ks' _ eq_refl).
Qed.

Lemma count_keyword_none (items : list json) :
  fold_left count_keyword items None = None.
Proof. induction items as [|v items IH]; [reflexivity|exact IH]. Qed.

(** The loop over the keywords raises exactly when one of them cannot be
    hashed. *)
Lemma count_keywords_raise (items : list json) (d : list (hashable * Z)) :
  fold_right (fun v acc =>
                match as_key v, acc with
                | Some k, Some ks => Some (k :: ks)
                | _, _ => None
                end) (Some []) items = None ->
  fold_left count_keyword items (Some d) = None.
Proof.
  revert d. induction items as [|v items IH]; intros d H; [discriminate|].
  cbn [fold_right] in H. cbn [fold_left count_keyword].
  destruct (as_key v) as [k|]; [|apply count_keyword_none].
  destruct (fold_right _ _ items) as [ks'|] eqn:Ef; [discriminate|].
  now apply IH.
Qed.

Lemma tally_well_shaped (t : tallies) (r : dict) :
  well_shaped r = true ->
  exists t', tally_result (Some t) r = Some t'
             /\ keyword_frequency t'
                = fold_left bump (keywords_tallied r) (keyword_frequency t).
Proof.
  unfold well_shaped, keywords_tallied, tally_result. intros H.
  destruct (has_error r); [now exists t|]. cbn [orb] in H.
  unfold class_of in H.
  destruct (as_key (Dict.get_default r (lit "original_classification") _))
    as [c|]; [|discriminate].
  cbn [andb] in H. unfold keywords_of in *.
  destruct (py_iter (Dict.get_default r (lit "supporting_keywords") _))
    as [items|]; [|discriminate].
  destruct (fold_right _ _ items) as [ks|] eqn:Ef; [|discriminate].
  rewrite (count_keywords_fold items ks _ Ef).
  eexists. split; reflexivity.
Qed.

(** On a result that is not well shaped the turn of the loop raises. *)
Lemma tally_ill_shaped (t : tallies) (r : dict) :
  well_shaped r = false -> tally_result (Some t) r = None.
Proof.
  unfold well_shaped, tally_result. intros H.
  destruct (has_error r); [discriminate|]. cbn [orb] in H.
  unfold class_of in H.
  destruct (as_key (Dict.get_default r (lit "original_classification") _))
    as [c|]; [|reflexivity].
  cbn [andb] in H. unfold keywords_of in *.
  destruct (py_iter (Dict.get_default r (lit "supporting_keywords") _))
    as [items|]; [|reflexivity].
  destruct (fold_right _ _ items) as [ks|] eqn:Ef; [discriminate|].
  now rewrite (count_keywords_raise items _ Ef).
Qed.

Lemma tally_none (results : list dict) :
  fold_left tally_result results None = None.
Proof. induction results as [|r results IH]; [reflexivity|exact IH]. Qed.

Lemma all_keywords_cons (r : dict) (results : list dict) :
  all_keywords (r :: results) = keywords_tallied r ++ all_keywords results.
Proof.
  unfold all_keywords, keywords_tallied. cbn [filter].
  destruct (has_error r); reflexivity.
Qed.

Lemma tally_fold (results : list dict) (t : tallies) :
  forallb well_shaped results = true ->
  exists t', fold_left tally_result results (Some t) = Some t'
             /\ keyword_frequency t'
                = fold_left bump (all_keywords results) (keyword_frequency t).
Proof.
  revert t. induction results as [|r results IH]; intros t H.
  - exists t. split; reflexivity.
  - cbn [forallb] in H. apply andb_prop in H. destruct H as [Hr Hrs].
    destruct (tally_well_shaped t r Hr) as (t1 & H1 & K1).
    destruct (IH t1 Hrs) as (t2 & H2 & K2).
    exists t2. cbn [fold_left]. rewrite H1. split; [exact H2|].
    now rewrite K2, K1, all_keywords_cons, fold_left_app.
Qed.

(** The loop over the results goes through exactly when every result is
    well shaped. *)
Lemma tally_fold_raise (results : list dict) (t : tallies) :
  forallb well_shaped results = false ->
  fold_left tally_result results (Some t) = None.
Proof.
  revert t. induction results as [|r results IH]; intros t H; [discriminate|].
  cbn [forallb] in H. cbn [fold_left].
  destruct (well_shaped r) eqn:Hr.
  - destruct (tally_well_shaped t r Hr) as (t1 & H1 & _). rewrite H1.
    now apply IH.
  - rewrite (tally_ill_shaped t r Hr). apply tally_none.
Qed.

End KeywordCounts.

(* ================================================================== *)
(** ** The summary aggregator: ranking *)
(* ================================================================== *)

Section Ranking.

Lemma insert_desc_perm (x : hashable * Z) (l : list (hashable * Z)) :
  Permutation (insert_desc x l) (x :: l).
Proof.
  induction l as [|y l IH]; [reflexivity|].
  cbn [insert_desc]. destruct (snd x <? snd y); [|reflexivity].
  rewrite IH. apply perm_swap.
Qed.

Lemma sorted_perm (l : list (hashable * Z)) :
  Permutation (sorted_by_count_desc l) l.
Proof.
  induction l as [|x l IH]; [reflexivity|].
  unfold sorted_by_count_desc in *. cbn [fold_right].
  rewrite insert_desc_perm. now constructor.
Qed.

Lemma insert_desc_sorted (x : hashable * Z) (l : list (hashable * Z)) :
  StronglySorted count_ge l -> StronglySorted count_ge (insert_desc x l).
Proof.
  induction 1 as [|y l Hl IH Hy]; [repeat constructor|].
  cbn [insert_desc]. destruct (snd x <? snd y) eqn:E.
  - constructor; [exact IH|].
    apply (Permutation_Forall (Permutation_sym (insert_desc_perm x l))).
    constructor; [|exact Hy]. unfold count_ge. apply Z.ltb_lt in E. lia.
  - apply Z.ltb_ge in E. constructor; [now constructor|].
    constructor; [exact E|].
    apply Forall_forall. intros z Hz. unfold count_ge in *.
    rewrite Forall_forall in Hy. specialize (Hy z Hz). lia.
Qed.

Lemma sorted_sorted (l : list (hashable * Z)) :
  StronglySorted count_ge (sorted_by_count_desc l).
Proof.
  induction l as [|x l IH]; [constructor|].
  unfold sorted_by_count_desc in *. cbn [fold_right].
  now apply insert_desc_sorted.
Qed.

Lemma insert_desc_stable (c : Z) (x : hashable * Z) (l : list (hashable * Z)) :
  with_count c (insert_desc x l) = with_count c (x :: l).
Proof.
  unfold with_count. induction l as [|y l IH]; [reflexivity|].
  cbn [insert_desc]. destruct (snd x <? snd y) eqn:E; [|reflexivity].
  apply Z.ltb_lt in E. cbn [filter] in *. rewrite IH.
  destruct (snd y =? c) eqn:Ey; [|reflexivity].
  apply Z.eqb_eq in Ey.
  destruct (snd x =? c) eqn:Ex; [|reflexivity].
  apply Z.eqb_eq in Ex. lia.
Qed.

(** The sort is stable: entries of equal count keep their order. *)
Lemma sorted_stable (c : Z) (l : list (hashable * Z)) :
  with_count c (sorted_by_count_desc l) = with_count c l.
Proof.
  induction l as [|x l IH]; [reflexivity|].
  unfold sorted_by_count_desc in *. cbn [fold_right].
  rewrite insert_desc_stable. unfold with_count in *. cbn [filter].
  now rewrite IH.
Qed.

Lemma of_pairs_distinct {V} (l d : list (hashable * V)) :
  NoDup (map hash_class (map fst (d ++ l))) ->
  fold_left (fun d kv => KeyDict.set d (fst kv) (snd kv)) l d = d ++ l.
Proof.
  revert d. induction l as [|[k v] l IH]; intros d Hnd.
  - now rewrite app_nil_r.
  - cbn [fold_left fst snd].
    rewrite key_set_fresh.
    + rewrite IH; rewrite <- app_assoc; [reflexivity|exact Hnd].
    + rewrite !map_app in Hnd. cbn [map fst] in Hnd.
      apply NoDup_remove_2 in Hnd.
      destruct (existsb (key_eqb k) (map fst d)) eqn:E; [|reflexivity].
      exfalso. apply Hnd. apply in_or_app. left.
      now apply key_in_class.
Qed.

Lemma NoDup_firstn {V} (n : nat) (l : list V) : NoDup l -> NoDup (firstn n l).
Proof.
  intros H. rewrite <- (firstn_skipn n l) in H.
  now apply NoDup_app_remove_r in H.
Qed.

Lemma top_of_ranking (results : list dict) :
  KeyDict.of_pairs (firstn 20 (sorted_by_count_desc (keyword_counts results)))
  = firstn 20 (sorted_by_count_desc (keyword_counts results)).
Proof.
  unfold KeyDict.of_pairs. rewrite of_pairs_distinct; [reflexivity|].
  cbn [app]. rewrite <- !firstn_map. apply NoDup_firstn.
  apply (Permutation_NoDup
           (l := map hash_class (map fst (keyword_counts results)))).
  - do 2 apply Permutation_map. symmetry. apply sorted_perm.
  - unfold keyword_counts. rewrite map_fst_counts. apply first_seen_distinct.
Qed.

Lemma generate_summary_well_shaped (enable : bool) (results : list dict) :
  results <> [] ->
  forallb well_shaped results = true ->
  exists t,
    generate_summary enable results
    = Some (SummaryOf
              (Summary (classification_dist t)
                 (firstn 20 (sorted_by_count_desc (keyword_counts results)))
                 (pattern_analysis t)
                 (if enable then Some (accuracy_of results) else None))).
Proof.
  intros Hne Hws.
  destruct (tally_fold results (Tallies [] [] []) Hws) as (t & Ht & Hk).
  exists t. unfold generate_summary.
  destruct results as [|r results]; [contradiction|].
  rewrite Ht. cbn [keyword_frequency] in Hk. rewrite bump_all in Hk.
  fold (keyword_counts (r :: results)) in Hk.
  now rewrite Hk, top_of_ranking.
Qed.

(** The aggregator returns a summary exactly for the non-empty lists of
    well-shaped results; on the others the loop raises [TypeError]. *)
Lemma generate_summary_returns (enable : bool) (results : list dict) :
  results <> [] ->
  (forallb well_shaped results = true
   <-> exists s, generate_summary enable results = Some (SummaryOf s))
  /\ (forallb well_shaped results = false
      <-> generate_summary enable results = None).
Proof.
  intros Hne.
  destruct (forallb well_shaped results) eqn:Hws.
  - destruct (generate_summary_well_shaped enable results Hne Hws)
      as (t & Ht).
    rewrite Ht. split; split; try discriminate; try reflexivity.
    intros _. eexists. reflexivity.
  - assert (E : generate_summary enable results = None).
    { unfold generate_summary. destruct results as [|r results];
        [contradiction|].
      now rewrite (tally_fold_raise _ _ Hws). }
    rewrite E. split; split; try discriminate; try reflexivity.
    intros (s & Hs). discriminate.
Qed.

(** What a returned summary holds, in terms of the results. *)
Lemma generate_summary_table (enable : bool) (results : list dict)
    (s : summary) :
  generate_summary enable results = Some (SummaryOf s) ->
  results <> []
  /\ forallb well_shaped results = true
  /\ top_keywords s
     = firstn 20 (sorted_by_count_desc (keyword_counts results))
  /\ accuracy_analysis s
     = (if enable then Some (accuracy_of results) else None).
Proof.
  intros Hs.
  assert (Hne : results <> []) by (intros ->; discriminate).
  assert (Hws : forallb well_shaped results = true).
  { apply (proj1 (generate_summary_returns enable results Hne)).
    now exists s. }
  destruct (generate_summary_well_shaped enable results Hne Hws) as (t & Ht).
  rewrite Ht in Hs. injection Hs as <-. repeat split; assumption.
Qed.

End Ranking.

(** C8.  Whenever the aggregator returns a summary, its keyword table is
    obtained by flattening the keyword lists of the results without an
    [error] key, counting each keyword (values that are the same
    dictionary key for Python being one keyword), putting the counts in
    descending order with equal counts left in the order in which the
    keywords were first met, and keeping the first 20.  A summary is
    returned for every non-empty list of results on which the loop does
    not raise.  For the keyword lists [x, y] and [x] the table is [x]
    with 2, then [y] with 1, also when a result with an [error] key
    stands between them, whose keywords are not counted; a keyword that
    is a number is counted like any other. *)
Theorem top_keywords_ranking :
  (forall (enable : bool) (results : list dict),
      let counts := keyword_counts results in
      let ranking := sorted_by_count_desc counts in
      (forall s, generate_summary enable results = Some (SummaryOf s) ->
                 top_keywords s = firstn 20 ranking)
      /\ (results <> [] ->
          (forallb well_shaped results = true
           <-> exists s, generate_summary enable results = Some (SummaryOf s)))
      /\ Permutation ranking counts
      /\ StronglySorted count_ge ranking
      /\ (forall c, with_count c ranking = with_count c counts))
  /\ (forall enable,
         exists s,
           generate_summary enable
             [keyword_result ["x"; "y"]%string; keyword_result ["x"]%string]
           = Some (SummaryOf s)
           /\ top_keywords s = [(HText (lit "x"), 2); (HText (lit "y"), 1)])
  /\ (forall enable,
         exists s,
           generate_summary enable
             [keyword_result ["x"; "y"]%string;
              error_result ["y"; "y"; "z"]%string;
              keyword_result ["x"]%string]
           = Some (SummaryOf s)
           /\ top_keywords s = [(HText (lit "x"), 2); (HText (lit "y"), 1)])
  /\ (forall enable,
         exists s,
           generate_summary enable
             [[(lit "supporting_keywords",
                JArray [JString (lit "x"); JInt 2020; JInt 2020])]]
           = Some (SummaryOf s)
           /\ top_keywords s = [(HInt 2020, 2); (HText (lit "x"), 1)]).
Proof.
  split; [|split; [|split]].
  - intros enable results counts ranking.
    split; [|split; [|split; [|split]]].
    + intros s Hs.
      now destruct (generate_summary_table enable results s Hs)
        as (_ & _ & Htop & _).
    + intros Hne. apply (generate_summary_returns enable results Hne).
    + apply sorted_perm.
    + apply sorted_sorted.
    + intros c. apply sorted_stable.
  - intros enable. eexists. split; reflexivity.
  - intros enable. eexists. split; reflexivity.
  - intros enable. eexists. split; reflexivity.
Qed.

Lemma top_keywords_ranking_witness :
  exists s,
    generate_summary false
      [keyword_result ["y"; "x"]%string;
       error_result ["z"; "z"; "z"]%string;
       keyword_result ["x"; "y"; "z"]%string]
    = Some (SummaryOf s)
    /\ top_keywords s
       = [(HText (lit "y"), 2); (HText (lit "x"), 2); (HText (lit "z"), 1)].
Proof.
  set (results := [keyword_result ["y"; "x"]%string;
                   error_result ["z"; "z"; "z"]%string;
                   keyword_result ["x"; "y"; "z"]%string]).
  assert (E : exists s, generate_summary false results = Some (SummaryOf s))
    by (eexists; reflexivity).
  destruct E as (s & E). exists s. split; [exact E|].
  rewrite (proj1 (proj1 top_keywords_ranking false results) s E).
  reflexivity.
Defined.

(* ================================================================== *)
(** ** The summary aggregator: accuracy *)
(* ================================================================== *)

Lemma is_correct_judged (r : dict) : is_correct r = judged_correct r.
Proof.
  unfold is_correct, judged_correct, Dict.get_default.
  now destruct (Dict.get r (lit "is_correct_classification")).
Qed.

Lemma len_filter_split {X} (f g : X -> bool) (l : list X) :
  len (filter (fun r => f r && g r) l)
  + len (filter (fun r => f r && negb (g r)) l)
  = len (filter f l).
Proof.
  unfold len. induction l as [|x l IH]; [reflexivity|].
  cbn [filter]. destruct (f x), (g x); cbn [andb negb List.length]; lia.
Qed.

(** C9.  With mislabel analysis on and a non-empty list of results, the
    accuracy analysis of the summary counts the results without an
    [error] key, those among them whose [is_correct_classification] is
    true or missing, and those among them whose
    [is_correct_classification] is false; the two last counts add up to
    the first.  The summary is returned exactly when the loop over the
    results does not raise, whatever the keys are: texts, numbers,
    booleans or [None]. *)
Theorem accuracy_analysis_counts (results : list dict) :
  results <> [] ->
  (forallb well_shaped results = true
   <-> exists s, generate_summary true results = Some (SummaryOf s))
  /\ (forallb well_shaped results = false
      <-> generate_summary true results = None)
  /\ (forall s,
         generate_summary true results = Some (SummaryOf s) ->
         exists a,
           accuracy_analysis s = Some a
           /\ total_analyzed a
              = len (filter (fun r => negb (has_error r)) results)
           /\ correct_classifications a
              = len (filter (fun r => negb (has_error r) && judged_correct r)
                            results)
           /\ incorrect_classifications a
              = len (filter (fun r => negb (has_error r)
                                      && negb (judged_correct r)) results)
           /\ correct_classifications a + incorrect_classifications a
              = total_analyzed a)
  /\ (forall r, Dict.get r (lit "is_correct_classification") = None ->
                judged_correct r = true).
Proof.
  intros Hne. split; [|split; [|split]].
  - apply (generate_summary_returns true results Hne).
  - apply (generate_summary_returns true results Hne).
  - intros s Hs.
    destruct (generate_summary_table true results s Hs) as (_ & _ & _ & Ha).
    eexists. split; [exact Ha|].
    cbn [accuracy_of total_analyzed correct_classifications
         incorrect_classifications].
    split; [reflexivity|]. split; [|split].
    + f_equal. apply filter_ext. intros r. now rewrite is_correct_judged.
    + f_equal. apply filter_ext. intros r. now rewrite is_correct_judged.
    + apply (len_filter_split (fun r => negb (has_error r)) is_correct).
  - intros r Hr. unfold judged_correct. now rewrite Hr.
Qed.

Lemma accuracy_analysis_counts_witness :
  [keyword_result ["x"]%string;
   [(lit "is_correct_classification", JBool false);
    (lit "original_classification", JBool true);
    (lit "supporting_keywords", JArray [JInt 2020; JNull])];
   error_result ["x"]%string] <> []
  /\ exists s a,
      generate_summary true
        [keyword_result ["x"]%string;
         [(lit "is_correct_classification", JBool false);
          (lit "original_classification", JBool true);
          (lit "supporting_keywords", JArray [JInt 2020; JNull])];
         error_result ["x"]%string] = Some (SummaryOf s)
      /\ accuracy_analysis s = Some a
      /\ total_analyzed a = 2
      /\ correct_classifications a = 1
      /\ incorrect_classifications a = 1.
Proof.
  split; [discriminate|].
  destruct (accuracy_analysis_counts
              [keyword_result ["x"]%string;
               [(lit "is_correct_classification", JBool false);
                (lit "original_classification", JBool true);
                (lit "supporting_keywords", JArray [JInt 2020; JNull])];
               error_result ["x"]%string]
              ltac:(discriminate)) as (Hex & _ & Hcount & _).
  destruct (proj1 Hex eq_refl) as (s & Hs).
  destruct (Hcount s Hs) as (a & Ha & Ht & Hc & Hi & _).
  exists s, a. repeat split; auto.
Defined.

(* ================================================================== *)
(** ** Resuming: what the driver returns *)
(* ================================================================== *)

Section Resume.

Variable cfg : config.
Variable w : world.

Lemma process_single_item_result (st st' : state) (item : Z * row) (b : Z) :
  fst (process_single_item cfg w st item b)
  = fst (process_single_item cfg w st' item b).
Proof.
  destruct item as [index r]. unfold process_single_item.
  destruct (truthy _); [|reflexivity].
  destruct (py_value _); reflexivity.
Qed.

Lemma run_items_result (items : list (Z * row)) (st st' : state) (b : Z) :
  fst (run_items cfg w st items b) = fst (run_items cfg w st' items b).
Proof.
  revert st st'. induction items as [|item items IH]; intros st st';
    [reflexivity|].
  cbn [run_items].
  pose proof (process_single_item_result st st' item b) as H1.
  destruct (process_single_item cfg w st item b) as [res st1].
  destruct (process_single_item cfg w st' item b) as [res' st1'].
  cbn [fst] in H1. subst res'.
  specialize (IH st1 st1').
  destruct (run_items cfg w st1 items b) as [others st2].
  destruct (run_items cfg w st1' items b) as [others' st2'].
  cbn [fst] in *. now subst.
Qed.

Lemma process_batch_result (st st' : state) (data : list (Z * row)) (b : Z) :
  fst (process_batch cfg w st data b) = fst (process_batch cfg w st' data b).
Proof.
  unfold process_batch. pose proof (run_items_result data st st' b) as H.
  destruct (run_items cfg w st data b) as [futures st1].
  destruct (run_items cfg w st' data b) as [futures' st1'].
  cbn [fst] in *. now subst.
Qed.

Lemma batch_step_result (df_rows : list (Z * row)) (batch_size : Z)
    (all_results : list dict) (st st' : state) (b : Z) :
  fst (batch_step cfg w df_rows batch_size (all_results, st) b)
  = fst (batch_step cfg w df_rows batch_size (all_results, st') b).
Proof.
  unfold batch_step.
  pose proof (process_batch_result st st'
                (batch_data df_rows batch_size b) b) as H.
  destruct (process_batch cfg w st _ b) as [res st1].
  destruct (process_batch cfg w st' _ b) as [res' st1'].
  cbn [fst] in H. subst res'.
  destruct res; reflexivity.
Qed.

(** The results the batch loop returns do not depend on the state it
    starts from, hence not on the files of the output directory. *)
Lemma batch_loop_result (df_rows : list (Z * row)) (batch_size : Z)
    (batches : list Z) (all_results : list dict) (st st' : state) :
  fst (batch_loop cfg w df_rows batch_size batches (all_results, st))
  = fst (batch_loop cfg w df_rows batch_size batches (all_results, st')).
Proof.
  revert all_results st st'.
  induction batches as [|b batches IH]; intros all_results st st';
    [reflexivity|].
  unfold batch_loop in *. cbn [fold_left].
  pose proof (batch_step_result df_rows batch_size all_results st st' b) as H.
  destruct (batch_step cfg w df_rows batch_size (all_results, st) b)
    as [all1 st1].
  destruct (batch_step cfg w df_rows batch_size (all_results, st') b)
    as [all1' st1'].
  cbn [fst] in H. subst all1'. apply IH.
Qed.

(** What [analyze_dataset] returns as detailed results is the same from
    any two states: the files found in the output directory, and what
    [load_existing_results] reads from them, have no part in it. *)
Lemma analyze_dataset_ignores_files (st st' : state) (parquet_file : read_result)
    (batch_size start_from_batch : Z) :
  detailed_of (fst (analyze_dataset cfg w st parquet_file batch_size
                                    start_from_batch))
  = detailed_of (fst (analyze_dataset cfg w st' parquet_file batch_size
                                      start_from_batch)).
Proof.
  unfold analyze_dataset. destruct parquet_file as [e|df]; [reflexivity|].
  destruct (filter _ required_columns); [|reflexivity].
  destruct (batch_size =? 0); [reflexivity|].
  pose proof (batch_loop_result (rows df) batch_size
                (range_from start_from_batch
                            (total_batches (len (rows df)) batch_size))
                [] st st') as H.
  destruct (batch_loop cfg w (rows df) batch_size _ ([], st))
    as [all_results st1].
  destruct (batch_loop cfg w (rows df) batch_size _ ([], st'))
    as [all_results' st1'].
  cbn [fst] in H. subst all_results'.
  destruct (generate_summary _ all_results); [|reflexivity].
  cbv beta iota zeta delta [now].
  match goal with
  | |- context [forallb ?f all_results] => destruct (forallb f all_results)
  end; reflexivity.
Qed.

End Resume.

(** C1, on the code.  Three rows in batches of two, every answer valid.
    The run in one piece returns the rows 0, 1 and 2.  When the run is
    interrupted after batch 0 and resumed from batch 1, the file of batch
    0 is there and its two results are loaded, yet the resumed run
    returns the row 2 alone and reports one processed row. *)
Theorem resumed_run_drops_earlier_batches :
  indices_of (fst full_run) = [JInt 0; JInt 1; JInt 2]
  /\ total_processed_of (fst full_run) = Some 3
  /\ Dict.mem (temp_dir (restart interrupted_state)) (batch_filename 0) = true
  /\ len (load_existing_results (restart interrupted_state)) = 2
  /\ indices_of (fst resumed_run) = [JInt 2]
  /\ total_processed_of (fst resumed_run) = Some 1.
Proof. vm_compute. repeat split; reflexivity. Qed.
(* ================================================================== *)
(** ** The retrying API client wrapper: more properties *)
(* ================================================================== *)

Section RetryMore.

Variable client : nat -> response.
Variable max : Z.
Variable p : prompt.
Variable item_id : str.

(** Attempts that fail before the last one only add their events. *)
Lemma retry_loop_skips_failures (j a : nat) (rest : list nat) :
  (Z.of_nat (a + j) < max) ->
  (forall k, (a <= k < a + j)%nat -> attempt_fails client k) ->
  retry_loop client max p item_id (seq a j ++ rest)
  = after (flat_map (attempt_events client p) (seq a j))
          (retry_loop client max p item_id rest).
Proof.
  revert a. induction j as [|j IH]; intros a Hlt Hfail.
  - unfold after. simpl. now destruct (retry_loop client max p item_id rest).
  - cbn [seq app retry_loop flat_map].
    pose proof (Hfail a ltac:(lia)) as Ha.
    unfold attempt_fails in Ha. unfold attempt_events at 1.
    rewrite (IH (S a)) by (try lia; intros k Hk; apply Hfail; lia).
    destruct (client a) as [msg|content].
    + destruct (Z.of_nat a <? max - 1) eqn:E; [|apply Z.ltb_ge in E; lia].
      unfold after. cbn [fst snd]. now rewrite <- app_assoc.
    + rewrite Ha.
      destruct (Z.of_nat a =? max - 1) eqn:E; [apply Z.eqb_eq in E; lia|].
      unfold after. cbn [fst snd]. now rewrite <- app_assoc.
Qed.

Lemma calls_of_attempts (l : list nat) :
  filter is_call (flat_map (attempt_events client p) l)
  = repeat (EvCall p) (List.length l).
Proof.
  induction l as [|a l IH]; [reflexivity|].
  cbn [flat_map]. rewrite filter_app, IH. unfold attempt_events.
  destruct (client a); reflexivity.
Qed.

Lemma sleeps_of_attempts (l : list nat) :
  sleeps (flat_map (attempt_events client p) l)
  = map (fun a => 2 ^ Z.of_nat a) (filter (raises client) l).
Proof.
  induction l as [|a l IH]; [reflexivity|].
  cbn [flat_map filter]. unfold sleeps in *. rewrite flat_map_app, IH.
  unfold attempt_events, raises. destruct (client a); reflexivity.
Qed.

Lemma sleeps_app (l1 l2 : list event) : sleeps (l1 ++ l2) = sleeps l1 ++ sleeps l2.
Proof. unfold sleeps. apply flat_map_app. Qed.

Lemma total_app (l1 l2 : list Z) : total (l1 ++ l2) = total l1 + total l2.
Proof. induction l1 as [|x l1 IH]; simpl; [reflexivity|]. rewrite IH. lia. Qed.

Lemma total_sleeps_cons_call (e : list event) :
  total (sleeps (EvCall p :: e)) = total (sleeps e).
Proof. reflexivity. Qed.

(** Whatever the client does from attempt [a] on: at most one call per
    attempt, pauses that add up to less than [2^(a+n-1)], and a call at
    the end. *)
Lemma retry_loop_effort (n a : nat) :
  (a + S n = Z.to_nat max)%nat ->
  let evs := snd (retry_loop client max p item_id (seq a (S n))) in
  (List.length (filter is_call evs) <= S n)%nat
  /\ total (sleeps evs) <= 2 ^ (Z.of_nat a + Z.of_nat n) - 2 ^ Z.of_nat a
  /\ exists evs', evs = evs' ++ [EvCall p].
Proof.
  revert a. induction n as [|n IH]; intros a Hmax evs; subst evs.
  - cbn [seq retry_loop]. rewrite Z.add_0_r.
    destruct (client a) as [msg|content].
    + destruct (Z.of_nat a <? max - 1) eqn:E; [apply Z.ltb_lt in E; lia|].
      cbn. repeat split; try lia. now exists [].
    + destruct (parse_response content).
      * cbn. repeat split; try lia. now exists [].
      * destruct (Z.of_nat a =? max - 1) eqn:E; [|apply Z.eqb_neq in E; lia].
        cbn. repeat split; try lia. now exists [].
  - change (seq a (S (S n))) with (a :: seq (S a) (S n)). cbn [retry_loop].
    destruct (IH (S a) ltac:(lia)) as (Hc & Hs & evs' & He).
    assert (Hpow : 2 ^ (Z.of_nat (S a) + Z.of_nat n)
                   = 2 ^ (Z.of_nat a + Z.of_nat (S n))) by (f_equal; lia).
    assert (Hpa : 2 ^ Z.of_nat (S a) = 2 * 2 ^ Z.of_nat a).
    { rewrite Nat2Z.inj_succ. apply Z.pow_succ_r. lia. }
    assert (Hpos : 0 < 2 ^ Z.of_nat a) by (apply Z.pow_pos_nonneg; lia).
    assert (Hmono : 2 ^ Z.of_nat a <= 2 ^ (Z.of_nat a + Z.of_nat (S n))).
    { apply Z.pow_le_mono_r; lia. }
    rewrite Hpow, Hpa in Hs.
    destruct (client a) as [msg|content].
    + destruct (Z.of_nat a <? max - 1) eqn:E; [|apply Z.ltb_ge in E; lia].
      unfold after. cbn [snd app filter is_call List.length].
      split; [lia|]. split.
      * change (total (sleeps (EvCall p :: EvSleep (2 ^ Z.of_nat a) ::
                  snd (retry_loop client max p item_id (seq (S a) (S n))))))
          with (2 ^ Z.of_nat a
                + total (sleeps (snd (retry_loop client max p item_id
                                        (seq (S a) (S n)))))).
        lia.
      * rewrite He. now exists (EvCall p :: EvSleep (2 ^ Z.of_nat a) :: evs').
    + destruct (parse_response content).
      * cbn. repeat split; try lia. now exists [].
      * destruct (Z.of_nat a =? max - 1) eqn:E; [apply Z.eqb_eq in E; lia|].
        unfold after. cbn [snd app filter is_call List.length].
        split; [lia|]. split.
        -- rewrite total_sleeps_cons_call. lia.
        -- rewrite He. now exists (EvCall p :: evs').
Qed.

End RetryMore.

(** X1.  When the attempts before attempt [k] fail and attempt [k]
    answers a text that decodes, the wrapper returns the decoded value
    after [k + 1] calls, having paused [2^a] after each attempt [a] that
    raised and not at all after a text that did not decode. *)
Theorem call_api_first_success
    (client : nat -> response) (max : Z) (p : prompt) (item_id : str)
    (k : nat) (text : str) (v : json) :
  Z.of_nat k < max ->
  (forall a, (a < k)%nat -> attempt_fails client a) ->
  client k = Content text ->
  parse_response text = Some v ->
  exists evs,
    call_api_with_retry client max p item_id = (RetParsed v, evs)
    /\ evs = flat_map (attempt_events client p) (seq 0 k) ++ [EvCall p]
    /\ len (filter is_call evs) = Z.of_nat k + 1
    /\ sleeps evs
       = map (fun a => 2 ^ Z.of_nat a) (filter (raises client) (seq 0 k)).
Proof.
  intros Hk Hfail Hc Hp.
  assert (Hrun : call_api_with_retry client max p item_id
                 = (RetParsed v,
                    flat_map (attempt_events client p) (seq 0 k) ++ [EvCall p])).
  { unfold call_api_with_retry, range.
    replace (Z.to_nat max) with (k + S (Z.to_nat max - S k))%nat by lia.
    rewrite seq_app. cbn [Nat.add seq].
    rewrite retry_loop_skips_failures.
    - cbn [retry_loop]. rewrite Hc, Hp. reflexivity.
    - lia.
    - intros a Ha. apply Hfail. lia. }
  eexists. split; [exact Hrun|]. split; [reflexivity|]. split.
  - rewrite filter_app, calls_of_attempts. unfold len.
    rewrite length_app, repeat_length, length_seq. cbn. lia.
  - rewrite sleeps_app, sleeps_of_attempts. cbn. apply app_nil_r.
Qed.

Lemma call_api_first_success_witness :
  Z.of_nat 2 < 5
  /\ (forall a, (a < 2)%nat -> attempt_fails flaky_client a)
  /\ flaky_client 2%nat = Content (lit "{}")
  /\ parse_response (lit "{}") = Some (JObject [])
  /\ exists evs,
      call_api_with_retry flaky_client 5 sample_prompt (lit "0_0")
      = (RetParsed (JObject []), evs)
      /\ sleeps evs = [1].
Proof.
  assert (Hfail : forall a, (a < 2)%nat -> attempt_fails flaky_client a)
    by (intros [|[|a]] Ha; [exact I|reflexivity|lia]).
  split; [cbn; lia|]. split; [exact Hfail|]. split; [reflexivity|].
  split; [reflexivity|].
  destruct (call_api_first_success flaky_client 5 sample_prompt (lit "0_0") 2
              (lit "{}") (JObject []) ltac:(cbn; lia) Hfail eq_refl eq_refl)
    as (evs & Hrun & _ & _ & Hs).
  exists evs. split; [exact Hrun|]. rewrite Hs. reflexivity.
Defined.

(** X2.  Whatever the client does, the wrapper makes no call when
    [max_retries <= 0]; otherwise it makes between 1 and [max_retries]
    calls, its pauses add up to at most [2^(max_retries-1) - 1], and the
    last thing it does is a call, not a pause. *)
Theorem call_api_effort_bounded
    (client : nat -> response) (max : Z) (p : prompt) (item_id : str) :
  let run := call_api_with_retry client max p item_id in
  (max <= 0 -> run = (RetLoopExit, []))
  /\ (1 <= max ->
      1 <= len (filter is_call (snd run)) <= max
      /\ total (sleeps (snd run)) <= 2 ^ (max - 1) - 1
      /\ exists evs', snd run = evs' ++ [EvCall p]).
Proof.
  intros run. subst run. split.
  - intros Hmax. unfold call_api_with_retry, range.
    replace (Z.to_nat max) with 0%nat by lia. reflexivity.
  - intros Hmax. unfold call_api_with_retry, range.
    replace (Z.to_nat max) with (S (Z.to_nat (max - 1))) by lia.
    destruct (retry_loop_effort client max p item_id (Z.to_nat (max - 1)) 0)
      as (Hc & Hs & evs' & He); [lia|].
    cbn [Z.of_nat Z.add] in Hs. rewrite Z2Nat.id in Hs by lia.
    change (2 ^ 0) with 1 in Hs.
    split; [|split; [exact Hs|now exists evs']].
    unfold len. split; [|lia].
    rewrite He, filter_app, length_app. cbn. lia.
Qed.

Lemma call_api_effort_bounded_witness :
  1 <= 3
  /\ total (sleeps (snd (call_api_with_retry (fun _ => Raise (lit "timeout")) 3
                           sample_prompt (lit "0_0")))) <= 2 ^ (3 - 1) - 1.
Proof.
  split; [lia|].
  apply (proj2 (call_api_effort_bounded (fun _ => Raise (lit "timeout")) 3
                  sample_prompt (lit "0_0"))).
  lia.
Defined.

(* ================================================================== *)
(** ** JSON extraction: more properties *)
(* ================================================================== *)

Section ExtractMore.

Lemma infix_of_refl {A} (s : list A) : infix_of s s.
Proof. exists [], []. simpl. now rewrite app_nil_r. Qed.

Lemma infix_of_trans {A} (x y z : list A) :
  infix_of x y -> infix_of y z -> infix_of x z.
Proof.
  intros (p1 & q1 & ->) (p2 & q2 & ->).
  exists (p2 ++ p1), (q1 ++ q2). now rewrite <- !app_assoc.
Qed.

Lemma py_slice_infix {A} (l : list A) (a b : Z) : infix_of (py_slice l a b) l.
Proof.
  unfold py_slice.
  set (m := Z.to_nat (norm_index (len l) a)).
  set (n := Z.to_nat (norm_index (len l) b - norm_index (len l) a)).
  exists (firstn m l), (skipn n (skipn m l)).
  now rewrite firstn_skipn, firstn_skipn.
Qed.

Lemma lstrip_suffix (s : str) : exists pre, s = pre ++ lstrip s.
Proof.
  induction s as [|c s (pre & IH)]; [now exists []|].
  cbn [lstrip]. destruct (isspace c).
  - exists (c :: pre). simpl. now f_equal.
  - now exists [].
Qed.

Lemma strip_infix (s : str) : infix_of (strip s) s.
Proof.
  unfold strip, rstrip.
  destruct (lstrip_suffix s) as (pre & Hs).
  destruct (lstrip_suffix (rev (lstrip s))) as (pre' & Hr).
  exists pre, (rev pre').
  assert (E : lstrip s = rev (lstrip (rev (lstrip s))) ++ rev pre').
  { rewrite <- rev_app_distr, <- Hr. now rewrite rev_involutive. }
  now rewrite <- E.
Qed.

Lemma find_after_none (x rest sub : str) :
  absent sub rest -> find (x ++ rest) sub (len x) = -1.
Proof.
  intros H. apply find_nat_absent in H. unfold find.
  pose proof (len_nonneg x). pose proof (len_nonneg rest).
  rewrite len_app.
  destruct (len x + len rest <? len x) eqn:E; [reflexivity|].
  rewrite norm_index_inside by lia.
  replace (Z.to_nat (len x)) with (List.length x) by (unfold len; now rewrite Nat2Z.id).
  rewrite skipn_app, Nat.sub_diag, skipn_all. simpl. now rewrite H.
Qed.

Lemma py_slice_drop_last {A} (x rest : list A) :
  py_slice (x ++ rest) (len x) (-1) = removelast rest.
Proof.
  unfold py_slice. pose proof (len_nonneg x). pose proof (len_nonneg rest).
  rewrite len_app. rewrite (norm_index_inside _ (len x)) by lia.
  unfold norm_index. cbn [Z.ltb Z.compare].
  replace (Z.to_nat (len x)) with (List.length x) by (unfold len; now rewrite Nat2Z.id).
  rewrite skipn_app, Nat.sub_diag, skipn_all. cbn [skipn app].
  rewrite removelast_firstn_len. f_equal. unfold len. lia.
Qed.

End ExtractMore.

(** X3.  The text handed to the decoder is always a run of consecutive
    characters of the answer: the wrapper cuts, it never adds or
    reorders. *)
Theorem extract_json_is_infix (content : str) :
  infix_of (extract_json content) content.
Proof.
  unfold extract_json.
  destruct (contains content fence_json).
  - eapply infix_of_trans; [apply strip_infix|apply py_slice_infix].
  - destruct (contains content lbrace && contains content rbrace).
    + apply py_slice_infix.
    + apply infix_of_refl.
Qed.

(** X4.  When the json fence is never closed, the search for the closing
    fence gives [-1], and the wrapper takes what follows the fence
    without its last character: the text handed to the decoder is what
    stands between the fence and the last character, stripped. *)
Theorem extract_json_unclosed_fence (pre body : str) (c : N) :
  first_at fence_json (pre ++ fence_json ++ body ++ [c]) (List.length pre) ->
  absent fence (body ++ [c]) ->
  extract_json (pre ++ fence_json ++ body ++ [c]) = strip body.
Proof.
  intros Hopen Hnone. unfold extract_json.
  rewrite (contains_occurs _ _ _ (proj1 Hopen)).
  rewrite (find_at_start _ _ _ Hopen).
  replace (Z.of_nat (List.length pre) + 7) with (len (pre ++ fence_json))
    by (rewrite len_app; reflexivity).
  replace (pre ++ fence_json ++ body ++ [c])
    with ((pre ++ fence_json) ++ body ++ [c])
    by (now rewrite <- app_assoc).
  rewrite (find_after_none _ _ _ Hnone).
  now rewrite py_slice_drop_last, removelast_last.
Qed.

Lemma extract_json_unclosed_fence_witness :
  first_at fence_json (qlit "```json|{'a':1}") 0
  /\ absent fence (qlit "|{'a':1}")
  /\ extract_json (qlit "```json|{'a':1}") = qlit "{'a':1"
  /\ parse_response (qlit "```json|{'a':1}") = None.
Proof.
  assert (Hopen : first_at fence_json (qlit "```json|{'a':1}") 0).
  { apply find_nat_first. reflexivity. }
  assert (Hnone : absent fence (qlit "|{'a':1}")).
  { apply find_nat_absent. reflexivity. }
  split; [exact Hopen|]. split; [exact Hnone|]. split; [|reflexivity].
  exact (extract_json_unclosed_fence [] (qlit "|{'a':1") 125%N Hopen Hnone).
Defined.

(* ================================================================== *)
(** ** Texts that can be encoded *)
(* ================================================================== *)

Section Encodable.

Lemma str_of_Z_decimal (z : Z) :
  str_of_Z z = lit (NilEmpty.string_of_int (Z.to_int z)).
Proof. destruct z; reflexivity. Qed.

Lemma string_of_uint_digits (d : Decimal.uint) :
  Forall sign_or_digit (lit (NilEmpty.string_of_uint d)).
Proof.
  induction d; cbn; constructor; auto; right; cbn; lia.
Qed.

Lemma str_of_Z_chars (z : Z) : Forall sign_or_digit (str_of_Z z).
Proof.
  rewrite str_of_Z_decimal. destruct (Z.to_int z) as [d|d]; cbn.
  - apply string_of_uint_digits.
  - constructor; [now left|]. apply string_of_uint_digits.
Qed.

Lemma encodable_text_app (a b : str) :
  encodable_text (a ++ b) = encodable_text a && encodable_text b.
Proof. apply forallb_app. Qed.

(** The decimal writing of an integer holds no surrogate. *)
Lemma encodable_str_of_Z (z : Z) : encodable_text (str_of_Z z) = true.
Proof.
  unfold encodable_text. apply forallb_forall. intros c Hc.
  pose proof (str_of_Z_chars z) as H. rewrite Forall_forall in H.
  specialize (H c Hc). unfold is_surrogate.
  destruct H as [->|H]; [reflexivity|].
  apply negb_true_iff, andb_false_iff. left. apply N.leb_gt. lia.
Qed.

Lemma encodable_item_id (batch_id index : Z) :
  encodable_text (item_id_of batch_id index) = true.
Proof.
  unfold item_id_of. now rewrite !encodable_text_app, !encodable_str_of_Z.
Qed.

Lemma encodable_set (d : dict) (k : str) (v : json) :
  encodable (JObject d) = true -> encodable_text k = true ->
  encodable v = true -> encodable (JObject (Dict.set d k v)) = true.
Proof.
  intros Hd Hk Hv. cbn [encodable] in *.
  induction d as [|[k' v'] d IH]; cbn [Dict.set forallb].
  - now rewrite Hk, Hv.
  - cbn [forallb] in Hd. apply andb_prop in Hd. destruct Hd as [H1 H2].
    apply andb_prop in H1. destruct H1 as [Hk' Hv'].
    destruct (str_eqb k' k); cbn [forallb].
    + now rewrite Hk', Hv, H2.
    + now rewrite Hk', Hv', (IH H2).
Qed.

(** What a dictionary gains with [original_data] cannot spoil it: the
    cells of the table hold no lone surrogate. *)
Lemma encodable_original_data (index : Z) (r : row) :
  encodable (original_data index r) = true.
Proof.
  pose proof (row_texts r) as H.
  apply andb_prop in H. destruct H as [H H4].
  apply andb_prop in H. destruct H as [H H3].
  apply andb_prop in H. destruct H as [H1 H2].
  unfold original_data. cbn [encodable forallb]. now rewrite H1, H2, H4.
Qed.

Lemma encodable_result (d : dict) (index : Z) (r : row) :
  encodable (JObject d) = true ->
  encodable (JObject (Dict.set d (lit "original_data")
                               (original_data index r))) = true.
Proof.
  intros H. apply encodable_set; [exact H|reflexivity|].
  apply encodable_original_data.
Qed.

(** The dictionaries the wrapper builds itself hold the text or the
    message of the client and the identifier of the item. *)
Lemma encodable_fallback (r : api_return) :
  match r with
  | RetParsed _ => True
  | RetParseFallback raw item_id =>
      encodable_text raw = true -> encodable_text item_id = true ->
      encodable (py_value r) = true
  | RetApiError msg item_id =>
      encodable_text msg = true -> encodable_text item_id = true ->
      encodable (py_value r) = true
  | RetLoopExit => True
  end.
Proof.
  destruct r as [v|raw item_id|msg item_id|]; try exact I;
    intros H1 H2; cbn [py_value encodable forallb]; now rewrite H1, H2.
Qed.

End Encodable.

(* ================================================================== *)
(** ** The per-item processor: more properties *)
(* ================================================================== *)

Section DictFacts.

Context {V : Type}.

Lemma get_set_same (d : list (str * V)) (k : str) (v : V) :
  Dict.get (Dict.set d k v) k = Some v.
Proof.
  induction d as [|[k' v'] d IH]; cbn [Dict.set Dict.get].
  - now rewrite str_eqb_refl.
  - destruct (str_eqb k' k) eqn:E; cbn [Dict.get]; rewrite E; auto.
Qed.

Lemma get_set_other (d : list (str * V)) (k k' : str) (v : V) :
  k' <> k -> Dict.get (Dict.set d k v) k' = Dict.get d k'.
Proof.
  intros Hne. induction d as [|[k0 v0] d IH]; cbn [Dict.set Dict.get].
  - destruct (str_eqb k k') eqn:E; [|reflexivity].
    apply str_eqb_eq in E. congruence.
  - destruct (str_eqb k0 k) eqn:E; cbn [Dict.get].
    + apply str_eqb_eq in E. subst k0.
      destruct (str_eqb k k') eqn:E'; [|reflexivity].
      apply str_eqb_eq in E'. congruence.
    + now rewrite IH.
Qed.

Lemma mem_get (d : list (str * V)) (k : str) :
  Dict.mem d k = match Dict.get d k with Some _ => true | None => false end.
Proof.
  induction d as [|[k' v'] d IH]; [reflexivity|].
  cbn [Dict.mem Dict.get]. now destruct (str_eqb k' k).
Qed.

Lemma get_remove_same (d : list (str * V)) (k : str) :
  Dict.get (Dict.remove d k) k = None.
Proof.
  induction d as [|[k' v'] d IH]; [reflexivity|].
  cbn [Dict.remove filter fst]. destruct (str_eqb k' k) eqn:E; cbn [negb].
  - exact IH.
  - cbn [Dict.get]. now rewrite E.
Qed.

Lemma get_remove_other (d : list (str * V)) (k k' : str) :
  k' <> k -> Dict.get (Dict.remove d k) k' = Dict.get d k'.
Proof.
  intros Hne. unfold Dict.remove.
  induction d as [|[k0 v0] d IH]; [reflexivity|].
  cbn [filter fst]. destruct (str_eqb k0 k) eqn:E; cbn [negb].
  - apply str_eqb_eq in E. subst k0. cbn [Dict.get].
    destruct (str_eqb k k') eqn:E'; [|exact IH].
    apply str_eqb_eq in E'. congruence.
  - cbn [Dict.get]. now rewrite IH.
Qed.

End DictFacts.

Lemma in_without (name n : str) (names : list str) :
  In n (without name names) <-> In n names /\ n <> name.
Proof.
  unfold without. rewrite filter_In, negb_true_iff, str_eqb_neq. tauto.
Qed.

Section ItemMore.

Variable cfg : config.
Variable w : world.

(** The value the wrapper returns for an item. *)
Local Abbreviation returned batch_id item :=
  (py_value
     (fst (call_api_with_retry (llm w (item_id_of batch_id (fst item)))
             (max_retries cfg)
             (create_analysis_prompt (enable_mislabel_analysis cfg)
                (target_dataset_id (snd item)) (article_id (snd item))
                (aggregated_text (snd item)) (type_label (snd item)))
             (item_id_of batch_id (fst item))))).

Lemma succeeds_result (st : state) (item : Z * row) (b : Z) :
  succeeds cfg w b item
  = match fst (process_single_item cfg w st item b) with
    | Some _ => true
    | None => false
    end.
Proof.
  unfold succeeds.
  now rewrite (process_single_item_result cfg w empty_state st item b).
Qed.

Lemma succeeds_returned (item : Z * row) (b : Z) :
  succeeds cfg w b item
  = truthy (returned b item)
    && match returned b item with JObject _ => true | _ => false end.
Proof.
  destruct item as [index r]. unfold succeeds, process_single_item.
  cbn [fst snd].
  destruct (truthy _) eqn:T; [|reflexivity].
  destruct (py_value _); reflexivity.
Qed.

End ItemMore.

Lemma item_success
    (cfg : config) (w : world) (st : state) (index : Z) (r : row)
    (batch_id : Z) (d : dict) :
  py_value
    (fst (call_api_with_retry (llm w (item_id_of batch_id index))
            (max_retries cfg)
            (create_analysis_prompt (enable_mislabel_analysis cfg)
               (target_dataset_id r) (article_id r) (aggregated_text r)
               (type_label r))
            (item_id_of batch_id index)))
  = JObject d ->
  d <> [] ->
  exists d' st',
    process_single_item cfg w st (index, r) batch_id = (Some d', st')
    /\ Dict.get d' (lit "original_data") = Some (original_data index r)
    /\ (forall k, k <> lit "original_data" -> Dict.get d' k = Dict.get d k)
    /\ (encodable (JObject d) = true -> encodable (JObject d') = true)
    /\ (encodable (JObject d') = true ->
        Dict.get (temp_dir st') (item_filename batch_id index)
        = Some (JObject d')
        /\ ~ In (item_filename batch_id index) (truncated st'))
    /\ (encodable (JObject d') = false ->
        Dict.get (temp_dir st') (item_filename batch_id index) = None
        /\ In (item_filename batch_id index) (truncated st'))
    /\ (forall name, name <> item_filename batch_id index ->
          Dict.get (temp_dir st') name = Dict.get (temp_dir st) name)
    /\ completed_count st' = completed_count st + 1
    /\ failed_items st' = failed_items st.
Proof.
  intros Hret Hne. unfold process_single_item. rewrite Hret.
  destruct d as [|kv d]; [contradiction|]. cbn [truthy].
  set (d' := Dict.set (kv :: d) (lit "original_data") (original_data index r)).
  eexists d', _. split; [reflexivity|].
  unfold save_intermediate_result, dump_temp.
  split; [apply get_set_same|]. split; [intros k Hk; now apply get_set_other|].
  split; [apply encodable_result|].
  destruct (encodable (JObject d'));
    cbn [temp_dir completed_count failed_items truncated write_temp cut_temp].
  - split; [intros _; split; [apply get_set_same|]|].
    { intros H. apply in_without in H. now destruct H. }
    split; [discriminate|].
    split; [intros k Hk; now apply get_set_other|]. split; reflexivity.
  - split; [discriminate|].
    split; [intros _; split; [apply get_remove_same|]|].
    { apply in_or_app. right. now left. }
    split; [intros k Hk; now apply get_remove_other|]. split; reflexivity.
Qed.

(** X5.  When the wrapper returns a non-empty dictionary, the processor
    returns it with [original_data] set to the index and the three texts
    of the row and every other key as it was, adds one to the completed
    count and nothing to the failure list, and leaves the other files
    alone.  When the dictionary can be encoded, exactly what is returned
    is stored in the per-item file of the batch and index; when it
    holds a lone surrogate, the write fails silently and that file is
    left truncated, while the item is returned and counted all the
    same. *)
Theorem process_single_item_success
    (cfg : config) (w : world) (st : state) (index : Z) (r : row)
    (batch_id : Z) (d : dict) :
  py_value
    (fst (call_api_with_retry (llm w (item_id_of batch_id index))
            (max_retries cfg)
            (create_analysis_prompt (enable_mislabel_analysis cfg)
               (target_dataset_id r) (article_id r) (aggregated_text r)
               (type_label r))
            (item_id_of batch_id index)))
  = JObject d ->
  d <> [] ->
  exists d' st',
    process_single_item cfg w st (index, r) batch_id = (Some d', st')
    /\ Dict.get d' (lit "original_data") = Some (original_data index r)
    /\ (forall k, k <> lit "original_data" -> Dict.get d' k = Dict.get d k)
    /\ (encodable (JObject d) = true -> encodable (JObject d') = true)
    /\ (encodable (JObject d') = true ->
        Dict.get (temp_dir st') (item_filename batch_id index)
        = Some (JObject d')
        /\ ~ In (item_filename batch_id index) (truncated st'))
    /\ (encodable (JObject d') = false ->
        Dict.get (temp_dir st') (item_filename batch_id index) = None
        /\ In (item_filename batch_id index) (truncated st'))
    /\ (forall name, name <> item_filename batch_id index ->
          Dict.get (temp_dir st') name = Dict.get (temp_dir st) name)
    /\ completed_count st' = completed_count st + 1
    /\ failed_items st' = failed_items st.
Proof. apply item_success. Qed.

Lemma process_single_item_success_witness :
  py_value
    (fst (call_api_with_retry (llm surrogate_world (item_id_of 0 0))
            (max_retries sample_config)
            (create_analysis_prompt (enable_mislabel_analysis sample_config)
               (target_dataset_id (sample_row 0)) (article_id (sample_row 0))
               (aggregated_text (sample_row 0)) (type_label (sample_row 0)))
            (item_id_of 0 0)))
  = JObject [(lit "a", JString [55357%N])]
  /\ [(lit "a", JString [55357%N])] <> []
  /\ exists d' st',
      process_single_item sample_config surrogate_world empty_state
                          (0, sample_row 0) 0 = (Some d', st')
      /\ Dict.get d' (lit "original_data")
         = Some (original_data 0 (sample_row 0))
      /\ Dict.get (temp_dir st') (lit "batch_0_item_0.json") = None
      /\ truncated st' = [lit "batch_0_item_0.json"]
      /\ completed_count st' = 1.
Proof.
  split; [reflexivity|]. split; [discriminate|].
  destruct (process_single_item_success sample_config surrogate_world
              empty_state 0 (sample_row 0) 0
              [(lit "a", JString [55357%N])]
              eq_refl ltac:(discriminate))
    as (d' & st' & Hrun & Hod & _ & _ & _ & Hcut & _ & Hcount & _).
  exists d', st'. split; [exact Hrun|]. split; [exact Hod|].
  assert (Hd : encodable (JObject d') = false
               /\ truncated st' = [lit "batch_0_item_0.json"]).
  { vm_compute in Hrun. injection Hrun as <- <-. split; reflexivity. }
  split; [apply (Hcut (proj1 Hd))|]. split; [apply Hd|exact Hcount].
Defined.

Lemma item_books
    (cfg : config) (w : world) (st : state) (item : Z * row) (batch_id : Z) :
  let res := fst (process_single_item cfg w st item batch_id) in
  let st' := snd (process_single_item cfg w st item batch_id) in
  (succeeds cfg w batch_id item = true <-> exists d, res = Some d)
  /\ completed_count st'
     = completed_count st + (if succeeds cfg w batch_id item then 1 else 0)
  /\ failed_items st'
     = failed_items st
       ++ (if fails_hard cfg w batch_id item
           then [failure_record batch_id (fst item)
                   (setitem_error
                      (py_value
                         (fst (call_api_with_retry
                                 (llm w (item_id_of batch_id (fst item)))
                                 (max_retries cfg)
                                 (create_analysis_prompt
                                    (enable_mislabel_analysis cfg)
                                    (target_dataset_id (snd item))
                                    (article_id (snd item))
                                    (aggregated_text (snd item))
                                    (type_label (snd item)))
                                 (item_id_of batch_id (fst item))))))]
           else [])
  /\ succeeds cfg w batch_id item && fails_hard cfg w batch_id item = false
  /\ (succeeds cfg w batch_id item = false ->
      temp_dir st' = temp_dir st /\ write_log st' = write_log st)
  /\ (succeeds cfg w batch_id item = false ->
      fails_hard cfg w batch_id item = false -> st' = st)
  /\ (forall d, res = Some d ->
        Dict.mem d (lit "original_data") = true
        /\ write_log st'
           = write_log st ++ [(item_filename batch_id (fst item), JObject d)]).
Proof.
  intros res st'. subst res st'.
  rewrite (succeeds_returned cfg w item batch_id).
  destruct item as [index r]. unfold fails_hard, process_single_item.
  cbn [fst snd].
  destruct (truthy _) eqn:T.
  - destruct (py_value _) as [| | | | | |d] eqn:P;
      cbn [fst snd andb completed_count failed_items temp_dir write_log].
    7: { unfold save_intermediate_result.
         rewrite dump_temp_completed, dump_temp_failed, dump_temp_log.
         repeat split; try reflexivity; try discriminate.
         - intros _. eexists. reflexivity.
         - now rewrite app_nil_r.
         - match goal with H : Some _ = Some _ |- _ => injection H as <- end.
           rewrite mem_get, get_set_same. reflexivity.
         - match goal with H : Some _ = Some _ |- _ => injection H as <- end.
           reflexivity. }
    all: repeat split; try reflexivity; try discriminate; try lia;
      try (intros (d0 & Hd0); discriminate);
      try (destruct st; now rewrite ?app_nil_r, ?Z.add_0_r).
  - cbn [fst snd andb]. repeat split; try reflexivity; try discriminate;
      try lia; try (now rewrite app_nil_r).
    intros (d0 & Hd0). discriminate.
Qed.


(** X6.  One item changes the books by at most one entry: it gives a
    result exactly when the wrapper returned a non-empty dictionary, and
    then the completed count grows by one; it adds one failure record,
    with its batch and index, exactly when the wrapper returned a truthy
    value that is not a dictionary; otherwise the state is left as it
    was.  The two cases exclude each other, and only a result writes a
    file.  Whether an item gives a result depends on what the wrapper
    returns only, not on the state. *)
Theorem process_single_item_books
    (cfg : config) (w : world) (st : state) (item : Z * row) (batch_id : Z) :
  let res := fst (process_single_item cfg w st item batch_id) in
  let st' := snd (process_single_item cfg w st item batch_id) in
  (succeeds cfg w batch_id item = true <-> exists d, res = Some d)
  /\ completed_count st'
     = completed_count st + (if succeeds cfg w batch_id item then 1 else 0)
  /\ failed_items st'
     = failed_items st
       ++ (if fails_hard cfg w batch_id item
           then [failure_record batch_id (fst item)
                   (setitem_error
                      (py_value
                         (fst (call_api_with_retry
                                 (llm w (item_id_of batch_id (fst item)))
                                 (max_retries cfg)
                                 (create_analysis_prompt
                                    (enable_mislabel_analysis cfg)
                                    (target_dataset_id (snd item))
                                    (article_id (snd item))
                                    (aggregated_text (snd item))
                                    (type_label (snd item)))
                                 (item_id_of batch_id (fst item))))))]
           else [])
  /\ succeeds cfg w batch_id item && fails_hard cfg w batch_id item = false
  /\ (succeeds cfg w batch_id item = false ->
      temp_dir st' = temp_dir st /\ write_log st' = write_log st)
  /\ (succeeds cfg w batch_id item = false ->
      fails_hard cfg w batch_id item = false -> st' = st)
  /\ (forall d, res = Some d ->
        Dict.mem d (lit "original_data") = true
        /\ write_log st'
           = write_log st ++ [(item_filename batch_id (fst item), JObject d)])
  /\ succeeds cfg w batch_id item
     = (let returned :=
          py_value
            (fst (call_api_with_retry
                    (llm w (item_id_of batch_id (fst item)))
                    (max_retries cfg)
                    (create_analysis_prompt
                       (enable_mislabel_analysis cfg)
                       (target_dataset_id (snd item))
                       (article_id (snd item))
                       (aggregated_text (snd item))
                       (type_label (snd item)))
                    (item_id_of batch_id (fst item)))) in
        truthy returned
        && match returned with JObject _ => true | _ => false end).
Proof.
  pose proof (item_books cfg w st item batch_id) as H. cbn zeta in *.
  destruct H as (H1 & H2 & H3 & H4 & H5 & H6 & H7).
  repeat (split; [assumption|]). apply succeeds_returned.
Qed.

Lemma process_single_item_books_witness :
  succeeds sample_config (constant_world (Content (lit "[1]")))
           0 (0, sample_row 0) = false
  /\ failed_items
       (snd (process_single_item sample_config
               (constant_world (Content (lit "[1]"))) empty_state
               (0, sample_row 0) 0))
     = [failure_record 0 0
          (lit "list indices must be integers or slices, not str")].
Proof.
  destruct (process_single_item_books sample_config
              (constant_world (Content (lit "[1]"))) empty_state
              (0, sample_row 0) 0) as (_ & _ & H & _).
  split; [reflexivity|]. cbn zeta in H. rewrite H. reflexivity.
Defined.

(** The dictionary returned after the last failed attempt holds the
    message or the text of the client and texts of the program: it can
    be encoded. *)
Lemma item_exhausted_whole
    (cfg : config) (w : world) (st : state) (index : Z) (r : row)
    (batch_id : Z) :
  1 <= max_retries cfg ->
  (forall k, (k < Z.to_nat (max_retries cfg))%nat ->
             attempt_fails (llm w (item_id_of batch_id index)) k) ->
  exists d' st',
    process_single_item cfg w st (index, r) batch_id = (Some d', st')
    /\ has_error d' = true
    /\ Dict.get d' (lit "item_id") = Some (JString (item_id_of batch_id index))
    /\ completed_count st' = completed_count st + 1
    /\ failed_items st' = failed_items st
    /\ Dict.get (temp_dir st') (item_filename batch_id index)
       = Some (JObject d')
    /\ encodable (JObject d') = true.
Proof.
  intros Hmax Hfail.
  set (client := llm w (item_id_of batch_id index)) in *.
  set (p := create_analysis_prompt (enable_mislabel_analysis cfg)
              (target_dataset_id r) (article_id r) (aggregated_text r)
              (type_label r)).
  set (last := Z.to_nat (max_retries cfg - 1)).
  assert (Hret : exists d,
             py_value (fst (call_api_with_retry client (max_retries cfg) p
                              (item_id_of batch_id index))) = JObject d
             /\ d <> []
             /\ Dict.mem d (lit "error") = true
             /\ Dict.get d (lit "item_id")
                = Some (JString (item_id_of batch_id index))
             /\ encodable (JObject d) = true).
  { unfold call_api_with_retry, range.
    replace (Z.to_nat (max_retries cfg)) with (last + 1)%nat by (subst last; lia).
    rewrite seq_app. cbn [Nat.add seq].
    rewrite retry_loop_skips_failures
      by (try (subst last; lia); intros k Hk; apply Hfail; subst last; lia).
    unfold after. cbn [fst retry_loop].
    pose proof (Hfail last ltac:(subst last; lia)) as Hl.
    unfold attempt_fails in Hl.
    pose proof (llm_texts w (item_id_of batch_id index) last) as Htext.
    fold client in Htext.
    pose proof (encodable_item_id batch_id index) as Hitem.
    destruct (client last) as [msg|content]; cbn [response_encodable] in Htext.
    - destruct (Z.of_nat last <? max_retries cfg - 1) eqn:E;
        [apply Z.ltb_lt in E; subst last; lia|].
      pose proof (encodable_fallback
                    (RetApiError msg (item_id_of batch_id index)) Htext Hitem)
        as Henc.
      cbn [fst py_value] in *. eexists.
      repeat split; [discriminate|exact Henc].
    - rewrite Hl.
      destruct (Z.of_nat last =? max_retries cfg - 1) eqn:E;
        [|apply Z.eqb_neq in E; subst last; lia].
      pose proof (encodable_fallback
                    (RetParseFallback content (item_id_of batch_id index))
                    Htext Hitem) as Henc.
      cbn [fst py_value] in *. eexists.
      repeat split; [discriminate|exact Henc]. }
  destruct Hret as (d & Hd & Hne & Herr & Hid & Henc).
  destruct (item_success cfg w st index r batch_id d Hd Hne)
    as (d' & st' & Hrun & Hod & Hkeep & Hsafe & Hwhole & _ & _ & Hcount
        & Hfailed).
  exists d', st'. split; [exact Hrun|]. split.
  - unfold has_error. rewrite mem_get, Hkeep by discriminate.
    now rewrite <- mem_get.
  - split; [rewrite Hkeep by discriminate; exact Hid|].
    split; [exact Hcount|]. split; [exact Hfailed|].
    split; [apply Hwhole, Hsafe, Henc|apply Hsafe, Henc].
Qed.

Lemma item_exhausted
    (cfg : config) (w : world) (st : state) (index : Z) (r : row)
    (batch_id : Z) :
  1 <= max_retries cfg ->
  (forall k, (k < Z.to_nat (max_retries cfg))%nat ->
             attempt_fails (llm w (item_id_of batch_id index)) k) ->
  exists d' st',
    process_single_item cfg w st (index, r) batch_id = (Some d', st')
    /\ has_error d' = true
    /\ Dict.get d' (lit "item_id") = Some (JString (item_id_of batch_id index))
    /\ completed_count st' = completed_count st + 1
    /\ failed_items st' = failed_items st
    /\ Dict.get (temp_dir st') (item_filename batch_id index)
       = Some (JObject d').
Proof.
  intros Hmax Hfail.
  destruct (item_exhausted_whole cfg w st index r batch_id Hmax Hfail)
    as (d' & st' & H1 & H2 & H3 & H4 & H5 & H6 & _).
  exists d', st'. repeat split; assumption.
Qed.

(** X7.  When every one of the [max_retries >= 1] attempts fails, by an
    exception or by a text that does not decode, the item is not a
    failure for the books: the processor returns a result that carries
    an [error] key, counts it as completed, writes its file, and adds
    nothing to the failure list. *)
Theorem exhausted_retries_count_as_completed
    (cfg : config) (w : world) (st : state) (index : Z) (r : row)
    (batch_id : Z) :
  1 <= max_retries cfg ->
  (forall k, (k < Z.to_nat (max_retries cfg))%nat ->
             attempt_fails (llm w (item_id_of batch_id index)) k) ->
  exists d' st',
    process_single_item cfg w st (index, r) batch_id = (Some d', st')
    /\ has_error d' = true
    /\ Dict.get d' (lit "item_id") = Some (JString (item_id_of batch_id index))
    /\ completed_count st' = completed_count st + 1
    /\ failed_items st' = failed_items st
    /\ Dict.get (temp_dir st') (item_filename batch_id index)
       = Some (JObject d').
Proof. apply item_exhausted. Qed.

Lemma exhausted_retries_count_as_completed_witness :
  1 <= max_retries sample_config
  /\ exists d' st',
      process_single_item sample_config
        (constant_world (Raise (lit "timeout"))) empty_state
        (0, sample_row 0) 0 = (Some d', st')
      /\ has_error d' = true
      /\ completed_count st' = 1
      /\ failed_items st' = [].
Proof.
  split; [unfold sample_config; simpl; lia|].
  destruct (exhausted_retries_count_as_completed sample_config
              (constant_world (Raise (lit "timeout"))) empty_state
              0 (sample_row 0) 0)
    as (d' & st' & Hrun & Herr & _ & Hc & Hf & _).
  - unfold sample_config. simpl. lia.
  - intros k _. exact I.
  - exists d', st'. repeat split; assumption.
Defined.

(* ================================================================== *)
(** ** The batch runner: properties *)
(* ================================================================== *)

Section BatchMore.

Variable cfg : config.
Variable w : world.

Lemma run_items_futures (items : list (Z * row)) (st : state) (b : Z) :
  fst (run_items cfg w st items b) = map (item_result cfg w b) items.
Proof.
  revert st. induction items as [|item items IH]; intros st; [reflexivity|].
  cbn [run_items map].
  pose proof (process_single_item_result cfg w st empty_state item b) as H1.
  destruct (process_single_item cfg w st item b) as [res st1].
  specialize (IH st1).
  destruct (run_items cfg w st1 items b) as [others st2].
  cbn [fst] in *. unfold item_result at 1. now rewrite H1, IH.
Qed.

Lemma run_items_books (items : list (Z * row)) (st : state) (b : Z) :
  let st' := snd (run_items cfg w st items b) in
  completed_count st'
  = completed_count st + len (filter (succeeds cfg w b) items)
  /\ len (failed_items st')
     = len (failed_items st) + len (filter (fails_hard cfg w b) items).
Proof.
  revert st. induction items as [|item items IH]; intros st.
  - cbn. unfold len. cbn. lia.
  - cbn [run_items].
    destruct (item_books cfg w st item b) as (_ & Hc & Hf & _).
    destruct (process_single_item cfg w st item b) as [res st1].
    specialize (IH st1).
    destruct (run_items cfg w st1 items b) as [others st2].
    cbn [snd filter] in *. destruct IH as [IHc IHf].
    rewrite IHc, IHf, Hc, Hf. unfold len. rewrite length_app.
    destruct (succeeds cfg w b item), (fails_hard cfg w b item);
      cbn [List.length]; lia.
Qed.

Lemma item_result_nonempty (b : Z) (item : Z * row) (d : dict) :
  item_result cfg w b item = Some d ->
  truthy (JObject d) = true /\ processed_indices [d] = [JInt (fst item)].
Proof.
  unfold item_result. destruct item as [index r].
  unfold process_single_item.
  destruct (truthy _); [|discriminate].
  destruct (py_value _) as [| | | | | |d0]; try discriminate.
  cbn [fst]. intros [= <-]. split.
  - destruct d0 as [|[k v] d0]; [reflexivity|].
    cbn [Dict.set]. now destruct (str_eqb k (lit "original_data")).
  - unfold processed_indices. cbn [flat_map].
    rewrite get_set_same. reflexivity.
Qed.

Lemma processed_indices_cons (d : dict) (l : list dict) :
  processed_indices (d :: l) = processed_indices [d] ++ processed_indices l.
Proof.
  unfold processed_indices. cbn [flat_map]. now rewrite app_nil_r.
Qed.

Lemma collect_results (b : Z) (items : list (Z * row)) :
  List.length (collect (map (item_result cfg w b) items))
  = List.length (filter (succeeds cfg w b) items)
  /\ processed_indices (collect (map (item_result cfg w b) items))
     = map (fun item => JInt (fst item)) (filter (succeeds cfg w b) items).
Proof.
  induction items as [|item items [IHl IHi]]; [split; reflexivity|].
  cbn [map collect flat_map filter]. fold (collect (map (item_result cfg w b) items)).
  assert (Hs : succeeds cfg w b item
               = match item_result cfg w b item with
                 | Some _ => true
                 | None => false
                 end) by reflexivity.
  rewrite Hs.
  destruct (item_result cfg w b item) as [d|] eqn:E.
  - destruct (item_result_nonempty b item d E) as [Ht Hi].
    rewrite Ht. cbn [app List.length map]. split; [now rewrite IHl|].
    rewrite processed_indices_cons, Hi, IHi. reflexivity.
  - cbn [app]. split; assumption.
Qed.

Lemma succeeds_or_fails (items : list (Z * row)) (b : Z) :
  len (filter (succeeds cfg w b) items)
  + len (filter (fails_hard cfg w b) items) <= len items.
Proof.
  unfold len. induction items as [|item items IH]; [cbn; lia|].
  destruct (item_books cfg w empty_state item b) as (_ & _ & _ & Hx & _).
  cbn [filter List.length].
  destruct (succeeds cfg w b item), (fails_hard cfg w b item);
    cbn [List.length] in *; try discriminate; lia.
Qed.

Hypothesis pool_fair : fair w.

Lemma batch_books (st : state) (data : list (Z * row)) (b : Z) :
  let results := fst (process_batch cfg w st data b) in
  let st' := snd (process_batch cfg w st data b) in
  len results = len (filter (succeeds cfg w b) data)
  /\ Permutation (processed_indices results)
       (map (fun item => JInt (fst item)) (filter (succeeds cfg w b) data))
  /\ completed_count st' = completed_count st + len results
  /\ len (failed_items st')
     = len (failed_items st) + len (filter (fails_hard cfg w b) data)
  /\ len results + (len (failed_items st') - len (failed_items st))
     <= len data.
Proof.
  unfold process_batch.
  pose proof (run_items_futures data st b) as Hfut.
  pose proof (run_items_books data st b) as Hbooks.
  destruct (run_items cfg w st data b) as [futures st1].
  cbn [fst snd] in *. subst futures. destruct Hbooks as [Hc Hf].
  destruct (collect_results b data) as [Hl Hi].
  pose proof (pool_fair b (map (item_result cfg w b) data)) as Hperm.
  assert (Hcp : Permutation (collect (as_completed w b (map (item_result cfg w b) data)))
                            (collect (map (item_result cfg w b) data))).
  { unfold collect. now apply Permutation_flat_map. }
  assert (Hlen : len (collect (as_completed w b (map (item_result cfg w b) data)))
                 = len (filter (succeeds cfg w b) data)).
  { unfold len. now rewrite (Permutation_length Hcp), Hl. }
  pose proof (succeeds_or_fails data b) as Hsum.
  split; [exact Hlen|]. split.
  - rewrite <- Hi. unfold processed_indices. now apply Permutation_flat_map.
  - rewrite Hlen. repeat split; try assumption. lia.
Qed.

End BatchMore.

(** X8.  When the pool hands back every future once, a batch gives as
    many results as it has rows for which the wrapper returned a
    non-empty dictionary; the completed count grows by that number, the
    failure list by the number of rows for which the wrapper returned a
    truthy value that is no dictionary, and results and new failures
    together never exceed the rows of the batch. *)
Theorem process_batch_accounting
    (cfg : config) (w : world) (st : state) (data_batch : list (Z * row))
    (batch_id : Z) :
  fair w ->
  let results := fst (process_batch cfg w st data_batch batch_id) in
  let st' := snd (process_batch cfg w st data_batch batch_id) in
  len results = len (filter (succeeds cfg w batch_id) data_batch)
  /\ completed_count st' = completed_count st + len results
  /\ len (failed_items st')
     = len (failed_items st)
       + len (filter (fails_hard cfg w batch_id) data_batch)
  /\ len results + (len (failed_items st') - len (failed_items st))
     <= len data_batch.
Proof.
  intros Hfair results st'.
  destruct (batch_books cfg w Hfair st data_batch batch_id)
    as (H1 & _ & H3 & H4 & H5).
  repeat split; assumption.
Qed.

Lemma fair_constant_world (answer : response) : fair (constant_world answer).
Proof.
  intros b futures. unfold constant_world.
  generalize (@eq_refl bool (response_encodable answer)).
  generalize (response_encodable answer) at 2 3.
  intros [] H; reflexivity.
Qed.

Lemma process_batch_accounting_witness :
  fair answering_world
  /\ len (fst (process_batch sample_config answering_world empty_state
                 (rows three_rows) 0)) = 3.
Proof.
  split; [apply fair_constant_world|].
  apply (process_batch_accounting sample_config answering_world empty_state
           (rows three_rows) 0 (fair_constant_world _)).
Defined.

(** X9.  When the pool hands back every future once, the indices recorded
    in the results of a batch are, up to their order, the index labels of
    the rows of the batch that gave a result: no row is reported twice,
    none that is not in the batch. *)
Theorem process_batch_indices
    (cfg : config) (w : world) (st : state) (data_batch : list (Z * row))
    (batch_id : Z) :
  fair w ->
  Permutation
    (processed_indices (fst (process_batch cfg w st data_batch batch_id)))
    (map (fun item => JInt (fst item))
         (filter (succeeds cfg w batch_id) data_batch)).
Proof.
  intros Hfair.
  now destruct (batch_books cfg w Hfair st data_batch batch_id)
    as (_ & H2 & _).
Qed.

Lemma process_batch_indices_witness :
  fair answering_world
  /\ Permutation
       (processed_indices
          (fst (process_batch sample_config answering_world empty_state
                  (rows three_rows) 0)))
       [JInt 0; JInt 1; JInt 2].
Proof.
  split; [apply fair_constant_world|].
  apply (process_batch_indices sample_config answering_world empty_state
           (rows three_rows) 0 (fair_constant_world _)).
Defined.

(* ================================================================== *)
(** ** File names *)
(* ================================================================== *)

Section FileNames.

Lemma lit_inj (a b : string) : lit a = lit b -> a = b.
Proof.
  unfold lit. intros H.
  rewrite <- (string_of_list_ascii_of_string a).
  rewrite <- (string_of_list_ascii_of_string b). f_equal.
  revert H. generalize (list_ascii_of_string a) (list_ascii_of_string b).
  intros la. induction la as [|x la IH]; intros [|y lb] H; try discriminate.
  - reflexivity.
  - cbn [map] in H. injection H as Hxy Hl. f_equal; [|now apply IH].
    rewrite <- (ascii_N_embedding x), <- (ascii_N_embedding y).
    now rewrite Hxy.
Qed.

Lemma str_of_Z_inj (a b : Z) : str_of_Z a = str_of_Z b -> a = b.
Proof.
  rewrite !str_of_Z_decimal. intros H. apply lit_inj in H.
  assert (Hi : Z.to_int a = Z.to_int b).
  { pose proof (NilEmpty.isi (Z.to_int a)) as Ha.
    pose proof (NilEmpty.isi (Z.to_int b)) as Hb.
    rewrite H in Ha. congruence. }
  rewrite <- (DecimalZ.of_to a), <- (DecimalZ.of_to b). now rewrite Hi.
Qed.

Lemma endswith_app (x suffix : str) : endswith (x ++ suffix) suffix = true.
Proof. unfold endswith. rewrite rev_app_distr. apply startswith_app. Qed.

Lemma batch_filename_suffix (b : Z) :
  endswith (batch_filename b) results_suffix = true.
Proof.
  unfold batch_filename. rewrite app_assoc. apply endswith_app.
Qed.

Lemma item_filename_suffix (b i : Z) :
  endswith (item_filename b i) results_suffix = false.
Proof.
  unfold endswith, item_filename. rewrite !rev_app_distr.
  pose proof (str_of_Z_chars i) as Hc.
  apply Forall_rev in Hc.
  destruct (rev (str_of_Z i)) as [|c t].
  - reflexivity.
  - inversion Hc as [|? ? Hd _]; subst.
    change (rev (lit ".json")) with [110; 111; 115; 106; 46]%N.
    change (rev results_suffix)
      with ([110; 111; 115; 106; 46] ++ 115 :: rev (lit "_result"))%N.
    cbn [app startswith]. rewrite !N.eqb_refl. cbn [andb].
    destruct (N.eqb 115 c) eqn:E; [|reflexivity].
    apply N.eqb_eq in E. subst c. destruct Hd as [Hd|Hd]; [discriminate|lia].
Qed.

Lemma checkpoint_name_suffix : endswith checkpoint_name results_suffix = false.
Proof. reflexivity. Qed.

Lemma batch_filename_inj (a b : Z) :
  batch_filename a = batch_filename b -> a = b.
Proof.
  unfold batch_filename. intros H. apply app_inv_head in H.
  apply app_inv_tail in H. now apply str_of_Z_inj.
Qed.

Lemma batch_filename_not_item (b b' i : Z) :
  batch_filename b <> item_filename b' i.
Proof.
  intros H. pose proof (batch_filename_suffix b) as H1.
  rewrite H, item_filename_suffix in H1. discriminate.
Qed.

Lemma batch_filename_not_checkpoint (b : Z) :
  batch_filename b <> checkpoint_name.
Proof.
  intros H. pose proof (batch_filename_suffix b) as H1.
  rewrite H in H1. discriminate.
Qed.

End FileNames.

(* ================================================================== *)
(** ** Saving and loading batch results *)
(* ================================================================== *)

Section SaveLoad.

(** One turn of the loop of [load_existing_results]. *)
Local Abbreviation load_step :=
  (fun (all_results : list json) (entry : str * json) =>
     if endswith (fst entry) (lit "_results.json") then
       match py_iter (snd entry) with
       | Some batch_results => all_results ++ batch_results
       | None => all_results
       end
     else all_results).

Lemma load_fold_acc (dir : list (str * json)) (acc : list json) :
  fold_left load_step dir acc = acc ++ fold_left load_step dir [].
Proof.
  revert acc. induction dir as [|e dir IH]; intros acc.
  - simpl. now rewrite app_nil_r.
  - cbn [fold_left]. rewrite IH. rewrite (IH (load_step [] e)).
    rewrite app_assoc. f_equal.
    destruct (endswith (fst e) (lit "_results.json")); [|now rewrite app_nil_r].
    destruct (py_iter (snd e)); [reflexivity|now rewrite app_nil_r].
Qed.

Lemma mem_false_not_in {V} (d : list (str * V)) (k : str) :
  Dict.mem d k = false -> ~ In k (map fst d).
Proof.
  induction d as [|[k' v] d IH]; intros H; [intros []|].
  cbn [Dict.mem] in H. apply orb_false_elim in H. destruct H as [H1 H2].
  intros [E|E].
  - cbn in E. subst. now rewrite str_eqb_refl in H1.
  - now apply IH.
Qed.

Lemma encodable_results (results : list dict) :
  encodable (JArray (map JObject results))
  = forallb (fun d => encodable (JObject d)) results.
Proof.
  cbn [encodable]. induction results as [|d results IH]; [reflexivity|].
  cbn [map forallb]. now rewrite IH.
Qed.

Lemma remove_absent {V} (d : list (str * V)) (k : str) :
  Dict.mem d k = false -> Dict.remove d k = d.
Proof.
  unfold Dict.remove. induction d as [|[k' v] d IH]; intros H; [reflexivity|].
  cbn [Dict.mem] in H. apply orb_false_elim in H. destruct H as [H1 H2].
  cbn [filter fst]. rewrite H1. cbn [negb]. now rewrite IH.
Qed.

Lemma load_after_fresh_save (st : state) (results : list dict) (b : Z) :
  Dict.mem (temp_dir st) (batch_filename b) = false ->
  forallb (fun d => encodable (JObject d)) results = true ->
  load_existing_results (save_batch_results st results b)
  = load_existing_results st ++ map JObject results.
Proof.
  intros Hfresh Henc. unfold save_batch_results.
  rewrite dump_temp_whole by (now rewrite encodable_results).
  unfold load_existing_results, write_temp.
  cbn [temp_dir]. rewrite set_fresh by (now apply mem_false_not_in).
  rewrite fold_left_app. cbn [fold_left fst snd].
  change (lit "_results.json") with results_suffix.
  now rewrite batch_filename_suffix.
Qed.

Lemma load_after_failed_save (st : state) (results : list dict) (b : Z) :
  Dict.mem (temp_dir st) (batch_filename b) = false ->
  forallb (fun d => encodable (JObject d)) results = false ->
  load_existing_results (save_batch_results st results b)
  = load_existing_results st.
Proof.
  intros Hfresh Henc. unfold save_batch_results.
  rewrite dump_temp_cut by (now rewrite encodable_results).
  unfold load_existing_results, cut_temp. cbn [temp_dir].
  now rewrite remove_absent.
Qed.

Lemma save_fresh (st : state) (results : list dict) (b : Z) :
  Dict.mem (temp_dir st) (batch_filename b) = false ->
  ~ In (batch_filename b) (truncated st) ->
  let st' := save_batch_results st results b in
  (forallb (fun d => encodable (JObject d)) results = true ->
   load_existing_results st'
   = load_existing_results st ++ map JObject results
   /\ Dict.get (temp_dir st') (batch_filename b)
      = Some (JArray (map JObject results))
   /\ ~ In (batch_filename b) (truncated st'))
  /\ (forallb (fun d => encodable (JObject d)) results = false ->
      load_existing_results st' = load_existing_results st
      /\ Dict.get (temp_dir st') (batch_filename b) = None
      /\ In (batch_filename b) (truncated st')).
Proof.
  intros Hfresh _ st'. subst st'. split; intros Henc.
  - split; [now apply load_after_fresh_save|].
    unfold save_batch_results.
    rewrite dump_temp_whole by (now rewrite encodable_results).
    unfold write_temp. cbn [temp_dir truncated].
    split; [apply get_set_same|].
    intros Hin. apply in_without in Hin. now destruct Hin.
  - split; [now apply load_after_failed_save|].
    unfold save_batch_results.
    rewrite dump_temp_cut by (now rewrite encodable_results).
    unfold cut_temp. cbn [temp_dir truncated].
    split; [apply get_remove_same|].
    apply in_or_app. right. now left.
Qed.

Lemma load_skips_other_names (dir : list (str * json)) (name : str)
    (content : json) (acc : list json) :
  endswith name results_suffix = false ->
  fold_left load_step (Dict.set dir name content) acc
  = fold_left load_step dir acc.
Proof.
  intros Hname. revert acc.
  induction dir as [|[k v] dir IH]; intros acc.
  - cbn [Dict.set fold_left fst].
    change (lit "_results.json") with results_suffix. now rewrite Hname.
  - cbn [Dict.set]. destruct (str_eqb k name) eqn:E.
    + apply str_eqb_eq in E. subst k. cbn [fold_left fst].
      change (lit "_results.json") with results_suffix. now rewrite Hname.
    + cbn [fold_left]. apply IH.
Qed.

Lemma load_after_other_write (st : state) (name : str) (content : json) :
  endswith name results_suffix = false ->
  load_existing_results (write_temp st name content)
  = load_existing_results st.
Proof.
  intros H. unfold load_existing_results, write_temp. cbn [temp_dir].
  now apply load_skips_other_names.
Qed.

Lemma load_skips_removed (dir : list (str * json)) (name : str)
    (acc : list json) :
  endswith name results_suffix = false ->
  fold_left load_step (Dict.remove dir name) acc
  = fold_left load_step dir acc.
Proof.
  intros Hname. unfold Dict.remove. revert acc.
  induction dir as [|[k v] dir IH]; intros acc; [reflexivity|].
  cbn [filter fst]. destruct (str_eqb k name) eqn:E; cbn [negb].
  - apply str_eqb_eq in E. subst k. cbn [fold_left fst].
    change (lit "_results.json") with results_suffix. rewrite Hname.
    apply IH.
  - cbn [fold_left]. apply IH.
Qed.

Lemma load_after_other_dump (st : state) (name : str) (content : json) :
  endswith name results_suffix = false ->
  load_existing_results (dump_temp st name content)
  = load_existing_results st.
Proof.
  intros H. unfold dump_temp. destruct (encodable content).
  - now apply load_after_other_write.
  - unfold load_existing_results, cut_temp. cbn [temp_dir].
    now apply load_skips_removed.
Qed.

Lemma load_nothing (st : state) :
  no_result_files (temp_dir st) -> load_existing_results st = [].
Proof.
  unfold load_existing_results, no_result_files.
  induction (temp_dir st) as [|e dir IH]; intros H; [reflexivity|].
  cbn [fold_left]. change (lit "_results.json") with results_suffix.
  rewrite (H e (or_introl eq_refl)). apply IH.
  intros e' He'. apply H. now right.
Qed.

End SaveLoad.

(** X10.  Saving the results of a batch under a name that no file of the
    output directory has, whole or truncated.  When every result can be
    encoded, the
    file holds the results, and loading the directory again gives what
    was loaded before, followed by exactly the saved results (the
    directory being listed in the order its files were created).  When
    one result holds a lone surrogate, the write fails, the exception is
    swallowed, the file is left truncated, and loading the directory
    again gives what was loaded before and none of the saved results. *)
Theorem save_then_load (st : state) (results : list dict) (batch_id : Z) :
  Dict.mem (temp_dir st) (batch_filename batch_id) = false ->
  ~ In (batch_filename batch_id) (truncated st) ->
  let st' := save_batch_results st results batch_id in
  (forallb (fun d => encodable (JObject d)) results = true ->
   load_existing_results st'
   = load_existing_results st ++ map JObject results
   /\ Dict.get (temp_dir st') (batch_filename batch_id)
      = Some (JArray (map JObject results))
   /\ ~ In (batch_filename batch_id) (truncated st'))
  /\ (forallb (fun d => encodable (JObject d)) results = false ->
      load_existing_results st' = load_existing_results st
      /\ Dict.get (temp_dir st') (batch_filename batch_id) = None
      /\ In (batch_filename batch_id) (truncated st')).
Proof. apply save_fresh. Qed.

Lemma save_then_load_witness :
  Dict.mem (temp_dir empty_state) (batch_filename 4) = false
  /\ ~ In (batch_filename 4) (truncated empty_state)
  /\ load_existing_results
       (save_batch_results empty_state [keyword_result ["x"]%string] 4)
     = [JObject (keyword_result ["x"]%string)]
  /\ load_existing_results
       (save_batch_results empty_state
          [keyword_result ["x"]%string; [(lit "a", JString [55357%N])]] 4)
     = []
  /\ In (batch_filename 4)
        (truncated
           (save_batch_results empty_state
              [keyword_result ["x"]%string; [(lit "a", JString [55357%N])]]
              4)).
Proof.
  split; [reflexivity|]. split; [intros []|]. split; [|split].
  - apply (save_then_load empty_state [keyword_result ["x"]%string] 4
             eq_refl (fun H => H)).
    reflexivity.
  - apply (save_then_load empty_state
             [keyword_result ["x"]%string; [(lit "a", JString [55357%N])]] 4
             eq_refl (fun H => H)).
    reflexivity.
  - apply (save_then_load empty_state
             [keyword_result ["x"]%string; [(lit "a", JString [55357%N])]] 4
             eq_refl (fun H => H)).
    reflexivity.
Defined.

(** X11.  [load_existing_results] reads the batch-results files only: a
    per-item file or the checkpoint written to the directory, new or in
    place of an older one, changes nothing to what is loaded, and from a
    directory without a batch-results file nothing is loaded. *)
Theorem load_reads_result_files_only (st : state) :
  (forall (d : dict) (batch_id index : Z),
      load_existing_results (save_intermediate_result st d batch_id index)
      = load_existing_results st)
  /\ (forall content,
         load_existing_results (write_temp st checkpoint_name content)
         = load_existing_results st)
  /\ (no_result_files (temp_dir st) -> load_existing_results st = []).
Proof.
  split; [|split].
  - intros d b i. apply load_after_other_dump, item_filename_suffix.
  - intros content. apply load_after_other_write, checkpoint_name_suffix.
  - apply load_nothing.
Qed.

Lemma load_reads_result_files_only_witness :
  no_result_files (temp_dir empty_state)
  /\ load_existing_results (write_temp empty_state checkpoint_name JNull) = [].
Proof.
  assert (H : no_result_files (temp_dir empty_state)) by (intros e []).
  split; [exact H|].
  destruct (load_reads_result_files_only empty_state) as (_ & H2 & H3).
  rewrite H2. apply H3, H.
Defined.


(* ================================================================== *)
(** ** The dataset driver: the batch loop *)
(* ================================================================== *)

Section LoopMore.

Variable cfg : config.
Variable w : world.
Variable df_rows : list (Z * row).
Variable batch_size : Z.

(** What one turn of the loop leaves, in terms of its batch. *)
Lemma batch_step_parts (all_results : list dict) (st : state) (b : Z) :
  let pb := process_batch cfg w st (batch_data df_rows batch_size b) b in
  let acc' := batch_step cfg w df_rows batch_size (all_results, st) b in
  fst acc' = all_results ++ fst pb
  /\ completed_count (snd acc') = completed_count (snd pb)
  /\ failed_items (snd acc') = failed_items (snd pb)
  /\ final_file (snd acc') = final_file (snd pb)
  /\ temp_dir (snd acc')
     = Dict.set
         (match fst pb with
          | [] => temp_dir (snd pb)
          | _ => temp_dir (save_batch_results (snd pb) (fst pb) b)
          end)
         checkpoint_name
         (checkpoint b (fst acc') (failed_items (snd pb))
                     (clock w (ticks (snd pb)))).
Proof.
  unfold batch_step.
  destruct (process_batch cfg w st (batch_data df_rows batch_size b) b)
    as [res st1].
  destruct res as [|d res]; cbn [fst snd now write_temp
    temp_dir completed_count failed_items final_file ticks];
    unfold save_batch_results;
    rewrite ?dump_temp_completed, ?dump_temp_failed, ?dump_temp_final,
      ?dump_temp_ticks, ?app_nil_r;
    repeat split; reflexivity.
Qed.

Lemma batch_step_results (all_results : list dict) (st : state) (b : Z) :
  fst (batch_step cfg w df_rows batch_size (all_results, st) b)
  = all_results ++ batch_results cfg w df_rows batch_size b.
Proof.
  destruct (batch_step_parts all_results st b) as (H & _). rewrite H.
  unfold batch_results. f_equal. apply process_batch_result.
Qed.

Lemma batch_loop_results (batches : list Z) (all_results : list dict)
    (st : state) :
  fst (batch_loop cfg w df_rows batch_size batches (all_results, st))
  = all_results
    ++ concat (map (batch_results cfg w df_rows batch_size) batches).
Proof.
  revert all_results st. induction batches as [|b batches IH];
    intros all_results st.
  - cbn. now rewrite app_nil_r.
  - unfold batch_loop in *. cbn [fold_left map concat].
    pose proof (batch_step_results all_results st b) as H.
    destruct (batch_step cfg w df_rows batch_size (all_results, st) b)
      as [all1 st1].
    cbn [fst] in H. subst all1. rewrite IH. now rewrite <- app_assoc.
Qed.

Hypothesis pool_fair : fair w.

Lemma batch_results_books (b : Z) :
  len (batch_results cfg w df_rows batch_size b)
  = len (batch_successes cfg w df_rows batch_size b)
  /\ Permutation (processed_indices (batch_results cfg w df_rows batch_size b))
                 (batch_successes cfg w df_rows batch_size b).
Proof.
  destruct (batch_books cfg w pool_fair empty_state
              (batch_data df_rows batch_size b) b) as (H1 & H2 & _).
  unfold batch_results, batch_successes. split; [|exact H2].
  rewrite H1. unfold len. now rewrite length_map.
Qed.

Lemma batch_loop_books (batches : list Z) (all_results : list dict)
    (st : state) :
  let acc' := batch_loop cfg w df_rows batch_size batches (all_results, st) in
  completed_count (snd acc')
  = completed_count st
    + len (concat (map (batch_results cfg w df_rows batch_size) batches))
  /\ len (failed_items (snd acc'))
     = len (failed_items st)
       + total (map (batch_failures cfg w df_rows batch_size) batches)
  /\ len (concat (map (batch_results cfg w df_rows batch_size) batches))
     + total (map (batch_failures cfg w df_rows batch_size) batches)
     <= len (concat (map (batch_data df_rows batch_size) batches)).
Proof.
  revert all_results st. induction batches as [|b batches IH];
    intros all_results st.
  - cbn. unfold len. cbn. lia.
  - unfold batch_loop in *. cbn [fold_left map concat total fold_right].
    destruct (batch_step_parts all_results st b) as (_ & Hc & Hf & _).
    destruct (batch_books cfg w pool_fair st
                (batch_data df_rows batch_size b) b)
      as (Hl & _ & Hcc & Hff & Hle).
    pose proof (process_batch_result cfg w st empty_state
                  (batch_data df_rows batch_size b) b) as Hind.
    fold (batch_results cfg w df_rows batch_size b) in Hind.
    rewrite Hind in *.
    destruct (batch_step cfg w df_rows batch_size (all_results, st) b)
      as [all1 st1].
    cbn [snd] in Hc, Hf.
    destruct (IH all1 st1) as (IHc & IHf & IHle).
    cbn zeta in *. rewrite IHc, IHf, Hc, Hf, Hcc, Hff.
    rewrite !len_app. fold (batch_failures cfg w df_rows batch_size b).
    fold (batch_failures cfg w df_rows batch_size b) in Hle, Hff.
    unfold total in *. repeat split; lia.
Qed.

Lemma batch_loop_indices (batches : list Z) :
  Permutation
    (processed_indices
       (concat (map (batch_results cfg w df_rows batch_size) batches)))
    (concat (map (batch_successes cfg w df_rows batch_size) batches)).
Proof.
  induction batches as [|b batches IH]; [reflexivity|].
  cbn [map concat]. unfold processed_indices in *. rewrite flat_map_app.
  apply Permutation_app; [|exact IH].
  apply (proj2 (batch_results_books b)).
Qed.

End LoopMore.

(* ================================================================== *)
(** ** The dataset driver: properties *)
(* ================================================================== *)

Section DriverMore.

Variable cfg : config.
Variable w : world.

(** What a run that passes the two checks returns, in terms of its loop. *)
Lemma analyze_dataset_run (st : state) (df : dataframe)
    (batch_size start_from_batch : Z) :
  required_present df ->
  batch_size <> 0 ->
  let acc := batch_loop cfg w (rows df) batch_size
               (batches_of df batch_size start_from_batch) ([], st) in
  analyze_dataset cfg w st (ReadOk df) batch_size start_from_batch
  = match generate_summary (enable_mislabel_analysis cfg) (fst acc) with
    | None => (Raises, snd acc)
    | Some summary =>
        let final :=
          FinalResults summary (fst acc) (failed_items (snd acc))
            (Metadata (len (fst acc)) (len (failed_items (snd acc)))
                      (clock w (ticks (snd acc))) batch_size) in
        if forallb (fun d => encodable (JObject d)) (fst acc)
        then
          (Final final,
           State (temp_dir (snd acc)) (completed_count (snd acc))
                 (failed_items (snd acc)) (Some (final_json final))
                 (S (ticks (snd acc))) (write_log (snd acc))
                 (without final_results_name (truncated (snd acc))))
        else
          (Raises,
           State (temp_dir (snd acc)) (completed_count (snd acc))
                 (failed_items (snd acc)) None
                 (S (ticks (snd acc))) (write_log (snd acc))
                 (without final_results_name (truncated (snd acc))
                  ++ [final_results_name]))
    end.
Proof.
  intros Hcols Hbs acc. subst acc. unfold analyze_dataset, batches_of.
  unfold required_present in Hcols. rewrite Hcols.
  destruct (batch_size =? 0) eqn:E; [apply Z.eqb_eq in E; contradiction|].
  destruct (batch_loop cfg w (rows df) batch_size _ ([], st))
    as [all_results st1].
  cbn [fst snd]. destruct (generate_summary _ all_results); reflexivity.
Qed.

(** A run that passes the two checks returns final results exactly when
    the aggregator does not raise on the results of its batches and the
    final file can be written. *)
Lemma analyze_dataset_outcome (st : state) (df : dataframe)
    (batch_size start_from_batch : Z) :
  required_present df ->
  batch_size <> 0 ->
  let results :=
    concat (map (batch_results cfg w (rows df) batch_size)
                (batches_of df batch_size start_from_batch)) in
  (exists r st',
      analyze_dataset cfg w st (ReadOk df) batch_size start_from_batch
      = (Final r, st'))
  <-> forallb well_shaped results = true
      /\ forallb (fun d => encodable (JObject d)) results = true.
Proof.
  intros Hcols Hbs results.
  rewrite (analyze_dataset_run st df batch_size start_from_batch Hcols Hbs).
  cbn zeta.
  pose proof (batch_loop_results cfg w (rows df) batch_size
                (batches_of df batch_size start_from_batch) [] st) as Hres.
  cbn [app] in Hres. fold results in Hres. rewrite Hres.
  destruct results as [|d results'] eqn:E.
  - cbn [generate_summary forallb]. split; [now split|].
    intros _. eexists _, _. reflexivity.
  - rewrite <- E in *.
    assert (Hne : results <> []) by (rewrite E; discriminate).
    destruct (generate_summary_returns (enable_mislabel_analysis cfg)
                results Hne) as [Hsome Hnone].
    destruct (generate_summary (enable_mislabel_analysis cfg) results)
      as [s|] eqn:G.
    + assert (Hw : forallb well_shaped results = true).
      { destruct (forallb well_shaped results); [reflexivity|].
        now specialize (proj1 Hnone eq_refl). }
      destruct (forallb (fun d => encodable (JObject d)) results).
      * split; [now split|]. intros _. eexists _, _. reflexivity.
      * split; [intros (r & st' & H); discriminate|intros [_ H]; discriminate].
    + split; [intros (r & st' & H); discriminate|].
      intros [H _]. apply Hsome in H. destruct H as (s & H). discriminate.
Qed.

Lemma analyze_dataset_final (st st' : state) (df : dataframe)
    (batch_size start_from_batch : Z) (r : final_results) :
  required_present df ->
  batch_size <> 0 ->
  analyze_dataset cfg w st (ReadOk df) batch_size start_from_batch
  = (Final r, st') ->
  let acc := batch_loop cfg w (rows df) batch_size
               (batches_of df batch_size start_from_batch) ([], st) in
  detailed_results r = fst acc
  /\ final_failed_items r = failed_items (snd acc)
  /\ total_processed (final_metadata r) = len (fst acc)
  /\ total_failed (final_metadata r) = len (failed_items (snd acc))
  /\ generate_summary (enable_mislabel_analysis cfg) (fst acc)
     = Some (final_summary r)
  /\ temp_dir st' = temp_dir (snd acc)
  /\ completed_count st' = completed_count (snd acc)
  /\ failed_items st' = failed_items (snd acc)
  /\ write_log st' = write_log (snd acc)
  /\ forallb (fun d => encodable (JObject d)) (fst acc) = true
  /\ final_file st' = Some (final_json r)
  /\ truncated st' = without final_results_name (truncated (snd acc)).
Proof.
  intros Hcols Hbs Hrun acc.
  rewrite (analyze_dataset_run st df batch_size start_from_batch Hcols Hbs)
    in Hrun.
  fold acc in Hrun.
  destruct (generate_summary (enable_mislabel_analysis cfg) (fst acc))
    as [summary|]; [|discriminate].
  cbn zeta in Hrun.
  destruct (forallb (fun d => encodable (JObject d)) (fst acc));
    [|discriminate].
  injection Hrun as <- <-. repeat split.
Qed.

End DriverMore.

Section Ranges.

Lemma map_seq_shift (a : Z) (n m : nat) :
  map (fun i => a + Z.of_nat i) (seq n m)
  = map (fun i => a + Z.of_nat n + Z.of_nat i) (seq 0 m).
Proof.
  revert a n. induction m as [|m IH]; intros a n; [reflexivity|].
  cbn [seq map]. f_equal; [lia|].
  rewrite (IH a (S n)), (IH (a + Z.of_nat n) 1%nat).
  apply map_ext. intros i. lia.
Qed.

Lemma range_from_split (a b c : Z) :
  a <= b <= c -> range_from a c = range_from a b ++ range_from b c.
Proof.
  intros H. unfold range_from.
  replace (Z.to_nat (c - a)) with (Z.to_nat (b - a) + Z.to_nat (c - b))%nat
    by lia.
  rewrite seq_app, map_app. f_equal. cbn [Nat.add].
  rewrite map_seq_shift. apply map_ext. intros i. lia.
Qed.

Lemma range_from_empty (a b : Z) : b <= a -> range_from a b = [].
Proof.
  intros H. unfold range_from. now replace (Z.to_nat (b - a)) with 0%nat by lia.
Qed.

Lemma range_from_In (a b x : Z) : In x (range_from a b) <-> a <= x < b.
Proof.
  unfold range_from. rewrite in_map_iff. split.
  - intros (i & <- & Hi). apply in_seq in Hi. lia.
  - intros H. exists (Z.to_nat (x - a)). split; [lia|]. apply in_seq. lia.
Qed.

Lemma range_from_NoDup (a b : Z) : NoDup (range_from a b).
Proof.
  pose proof (range_from_increasing a b) as H.
  induction H as [|x l Hl IH Hx]; constructor; [|exact IH].
  intros Hin. rewrite Forall_forall in Hx. specialize (Hx x Hin). lia.
Qed.

Lemma In_skipn_le {A} (l : list A) (n m : nat) (x : A) :
  (n <= m)%nat -> In x (skipn m l) -> In x (skipn n l).
Proof.
  intros Hnm Hx. replace m with ((m - n) + n)%nat in Hx by lia.
  rewrite <- skipn_skipn in Hx.
  rewrite <- (firstn_skipn (m - n) (skipn n l)). apply in_or_app. now right.
Qed.

Lemma In_firstn {A} (l : list A) (n : nat) (x : A) :
  In x (firstn n l) -> In x l.
Proof.
  intros Hx. rewrite <- (firstn_skipn n l). apply in_or_app. now left.
Qed.

(** The rows of the batches of a run are rows of the table, after the
    ones the earlier batches hold, and no more than the table has. *)
Lemma batches_rows {A} (df_rows : list A) (batch_size start : Z) :
  1 <= batch_size -> 0 <= start ->
  let batches :=
    range_from start (total_batches (len df_rows) batch_size) in
  len (concat (map (batch_data df_rows batch_size) batches)) <= len df_rows
  /\ forall x, In x (concat (map (batch_data df_rows batch_size) batches)) ->
               In x (skipn (Z.to_nat (start * batch_size)) df_rows).
Proof.
  intros HB Hs batches. subst batches.
  set (T := total_batches (len df_rows) batch_size).
  pose proof (total_batches_nonneg df_rows batch_size HB) as HT. fold T in HT.
  split.
  - destruct (Z.le_gt_cases start T) as [Hle|Hgt].
    + pose proof (batches_cover df_rows batch_size HB) as Hcover. fold T in Hcover.
      rewrite (range_from_split 0 start T) in Hcover by lia.
      rewrite map_app, concat_app in Hcover.
      rewrite <- Hcover at 2. rewrite len_app.
      pose proof (len_nonneg
                    (concat (map (batch_data df_rows batch_size)
                                 (range_from 0 start)))). lia.
    + rewrite range_from_empty by lia. cbn. apply len_nonneg.
  - intros x Hx. apply in_concat in Hx. destruct Hx as (l & Hl & Hxl).
    apply in_map_iff in Hl. destruct Hl as (b & <- & Hb).
    apply range_from_In in Hb.
    rewrite (batch_data_rows df_rows batch_size HB b) in Hxl by (fold T; lia).
    apply In_firstn in Hxl.
    apply (In_skipn_le _ _ (Z.to_nat (start_idx batch_size b))); [|exact Hxl].
    unfold start_idx. nia.
Qed.

End Ranges.

Lemma batch_failures_nonneg (cfg : config) (w : world)
    (df_rows : list (Z * row)) (batch_size : Z) (l : list Z) :
  0 <= total (map (batch_failures cfg w df_rows batch_size) l).
Proof.
  induction l as [|b l IH]; [cbn; lia|].
  change (0 <= batch_failures cfg w df_rows batch_size b
               + total (map (batch_failures cfg w df_rows batch_size) l)).
  assert (Hb : 0 <= batch_failures cfg w df_rows batch_size b)
    by (unfold batch_failures; apply len_nonneg).
  lia.
Qed.

Lemma run_accounting
    (cfg : config) (w : world) (st st' : state) (df : dataframe)
    (batch_size start_from_batch : Z) (r : final_results) :
  fair w ->
  required_present df ->
  1 <= batch_size ->
  0 <= start_from_batch ->
  analyze_dataset cfg w st (ReadOk df) batch_size start_from_batch
  = (Final r, st') ->
  total_processed (final_metadata r) = len (detailed_results r)
  /\ total_failed (final_metadata r) = len (final_failed_items r)
  /\ final_failed_items r = failed_items st'
  /\ completed_count st'
     = completed_count st + total_processed (final_metadata r)
  /\ len (failed_items st) <= total_failed (final_metadata r)
  /\ total_processed (final_metadata r)
     + (total_failed (final_metadata r) - len (failed_items st))
     <= len (rows df).
Proof.
  intros Hfair Hcols HB Hs Hrun.
  destruct (analyze_dataset_final cfg w st st' df batch_size start_from_batch
              r Hcols ltac:(lia) Hrun)
    as (Hd & Hff & Htp & Htf & _ & _ & Hcc & Hfi & _).
  pose proof (batch_loop_results cfg w (rows df) batch_size
                (batches_of df batch_size start_from_batch) [] st) as Hres.
  destruct (batch_loop_books cfg w (rows df) batch_size Hfair
              (batches_of df batch_size start_from_batch) [] st)
    as (Hc & Hf & Hle).
  destruct (batches_rows (rows df) batch_size start_from_batch HB Hs)
    as (Hrows & _).
  fold (batches_of df batch_size start_from_batch) in Hrows.
  cbn [app] in Hres.
  pose proof (batch_failures_nonneg cfg w (rows df) batch_size
                (batches_of df batch_size start_from_batch)) as Hnn.
  rewrite Htp, Htf, Hd, Hff, Hcc, Hfi, Hres, Hc, Hf.
  repeat split; lia.
Qed.

Lemma run_outcome_and_accounting
    (cfg : config) (w : world) (st : state) (df : dataframe)
    (batch_size start_from_batch : Z) :
  fair w ->
  required_present df ->
  1 <= batch_size ->
  0 <= start_from_batch ->
  let results :=
    concat (map (batch_results cfg w (rows df) batch_size)
                (batches_of df batch_size start_from_batch)) in
  ((exists r st',
       analyze_dataset cfg w st (ReadOk df) batch_size start_from_batch
       = (Final r, st'))
   <-> forallb well_shaped results = true
       /\ forallb (fun d => encodable (JObject d)) results = true)
  /\ forall r st',
       analyze_dataset cfg w st (ReadOk df) batch_size start_from_batch
       = (Final r, st') ->
       detailed_results r = results
       /\ total_processed (final_metadata r) = len (detailed_results r)
       /\ total_failed (final_metadata r) = len (final_failed_items r)
       /\ final_failed_items r = failed_items st'
       /\ completed_count st'
          = completed_count st + total_processed (final_metadata r)
       /\ len (failed_items st) <= total_failed (final_metadata r)
       /\ total_processed (final_metadata r)
          + (total_failed (final_metadata r) - len (failed_items st))
          <= len (rows df).
Proof.
  intros Hfair Hcols HB Hs results. split.
  - apply (analyze_dataset_outcome cfg w st df batch_size start_from_batch
             Hcols). lia.
  - intros r st' Hrun. split.
    + destruct (analyze_dataset_final cfg w st st' df batch_size
                  start_from_batch r Hcols ltac:(lia) Hrun) as (Hd & _).
      cbn zeta in Hd. rewrite Hd, batch_loop_results. reflexivity.
    + now apply (run_accounting cfg w st st' df batch_size start_from_batch).
Qed.

(** X12.  The outcome and the books of a run that passes the two checks,
    when the pool hands back every future once, the batch size is
    positive and the start is not negative.  The run ends with final
    results exactly when the aggregator raises on none of the results of
    its batches and every one of them can be encoded for the final file;
    keywords and classes that are numbers, booleans or [null] do not
    make it raise.  Then the detailed results are the results of the
    batches in their order, [total_processed] is their number and the
    growth of the completed count, [total_failed] is the length of the
    failure list, and the rows reported as processed or newly failed are
    never more than the rows of the table.  (They can be fewer: a row
    whose answer is falsy is in neither.) *)
Theorem analyze_dataset_accounting
    (cfg : config) (w : world) (st : state) (df : dataframe)
    (batch_size start_from_batch : Z) :
  fair w ->
  required_present df ->
  1 <= batch_size ->
  0 <= start_from_batch ->
  let results :=
    concat (map (batch_results cfg w (rows df) batch_size)
                (batches_of df batch_size start_from_batch)) in
  ((exists r st',
       analyze_dataset cfg w st (ReadOk df) batch_size start_from_batch
       = (Final r, st'))
   <-> forallb well_shaped results = true
       /\ forallb (fun d => encodable (JObject d)) results = true)
  /\ forall r st',
       analyze_dataset cfg w st (ReadOk df) batch_size start_from_batch
       = (Final r, st') ->
       detailed_results r = results
       /\ total_processed (final_metadata r) = len (detailed_results r)
       /\ total_failed (final_metadata r) = len (final_failed_items r)
       /\ final_failed_items r = failed_items st'
       /\ completed_count st'
          = completed_count st + total_processed (final_metadata r)
       /\ len (failed_items st) <= total_failed (final_metadata r)
       /\ total_processed (final_metadata r)
          + (total_failed (final_metadata r) - len (failed_items st))
          <= len (rows df).
Proof. apply run_outcome_and_accounting. Qed.

Lemma analyze_dataset_accounting_witness :
  fair numeric_world
  /\ required_present three_rows
  /\ 1 <= 2 /\ 0 <= 0
  /\ (exists r st',
         analyze_dataset sample_config numeric_world empty_state
                         (ReadOk three_rows) 2 0
         = (Final r, st')
         /\ total_processed (final_metadata r) = 3
         /\ completed_count st' = 3)
  /\ ~ (exists r st',
           analyze_dataset sample_config surrogate_world empty_state
                           (ReadOk three_rows) 2 0
           = (Final r, st')).
Proof.
  split; [apply fair_constant_world|]. split; [reflexivity|].
  split; [lia|]. split; [lia|].
  destruct (analyze_dataset_accounting sample_config numeric_world
              empty_state three_rows 2 0 (fair_constant_world _)
              eq_refl ltac:(lia) ltac:(lia)) as [Hiff Hbooks].
  destruct (analyze_dataset_accounting sample_config surrogate_world
              empty_state three_rows 2 0 (fair_constant_world _)
              eq_refl ltac:(lia) ltac:(lia)) as [Hiff' _].
  cbn zeta in *. split.
  - assert (Hok : forallb well_shaped
                    (concat (map (batch_results sample_config numeric_world
                                    (rows three_rows) 2)
                                 (batches_of three_rows 2 0))) = true
                  /\ forallb (fun d => encodable (JObject d))
                       (concat (map (batch_results sample_config
                                       numeric_world (rows three_rows) 2)
                                    (batches_of three_rows 2 0))) = true)
      by (split; vm_compute; reflexivity).
    destruct (proj2 Hiff Hok) as (r & st' & E).
    exists r, st'. split; [exact E|].
    destruct (Hbooks r st' E) as (Hd & Ht & _ & _ & Hc & _).
    assert (Hl : total_processed (final_metadata r) = 3)
      by (rewrite Ht, Hd; vm_compute; reflexivity).
    split; [exact Hl|]. rewrite Hc, Hl. reflexivity.
  - intros H. apply Hiff' in H. destruct H as [_ H].
    vm_compute in H. discriminate.
Defined.

(** X13.  The rows a run reports, when the pool hands back every future
    once: the indices recorded in the detailed results are, up to their
    order, the labels of the rows of the batches from [start_from_batch]
    on that gave a result.  In particular each of them is the label of a
    row that stands at or after position [start_from_batch * batch_size]:
    a resumed run reports no row of an earlier batch. *)
Theorem analyze_dataset_reported_rows
    (cfg : config) (w : world) (st st' : state) (df : dataframe)
    (batch_size start_from_batch : Z) (r : final_results) :
  fair w ->
  required_present df ->
  1 <= batch_size ->
  0 <= start_from_batch ->
  analyze_dataset cfg w st (ReadOk df) batch_size start_from_batch
  = (Final r, st') ->
  Permutation
    (processed_indices (detailed_results r))
    (concat (map (batch_successes cfg w (rows df) batch_size)
                 (batches_of df batch_size start_from_batch)))
  /\ forall v, In v (processed_indices (detailed_results r)) ->
       exists item,
         In item (skipn (Z.to_nat (start_from_batch * batch_size)) (rows df))
         /\ v = JInt (fst item).
Proof.
  intros Hfair Hcols HB Hs Hrun.
  destruct (analyze_dataset_final cfg w st st' df batch_size start_from_batch
              r Hcols ltac:(lia) Hrun) as (Hd & _).
  pose proof (batch_loop_results cfg w (rows df) batch_size
                (batches_of df batch_size start_from_batch) [] st) as Hres.
  cbn [app] in Hres. rewrite Hd, Hres.
  pose proof (batch_loop_indices cfg w (rows df) batch_size Hfair
                (batches_of df batch_size start_from_batch)) as Hperm.
  split; [exact Hperm|].
  intros v Hv. apply (Permutation_in _ Hperm) in Hv.
  apply in_concat in Hv. destruct Hv as (l & Hl & Hvl).
  apply in_map_iff in Hl. destruct Hl as (b & <- & Hb).
  unfold batch_successes in Hvl. apply in_map_iff in Hvl.
  destruct Hvl as (item & <- & Hitem). apply filter_In in Hitem.
  destruct Hitem as [Hitem _]. exists item. split; [|reflexivity].
  destruct (batches_rows (rows df) batch_size start_from_batch HB Hs)
    as (_ & Hin).
  apply Hin. apply in_concat. exists (batch_data (rows df) batch_size b).
  split; [|exact Hitem]. apply in_map_iff. now exists b.
Qed.

Lemma analyze_dataset_reported_rows_witness :
  fair numeric_world
  /\ required_present three_rows
  /\ 1 <= 2 /\ 0 <= 1
  /\ exists r st',
      analyze_dataset sample_config numeric_world
                      (restart interrupted_state) (ReadOk three_rows) 2 1
      = (Final r, st')
      /\ forall v, In v (processed_indices (detailed_results r)) ->
           exists item, In item [(2, sample_row 2)] /\ v = JInt (fst item).
Proof.
  split; [apply fair_constant_world|]. split; [reflexivity|].
  split; [lia|]. split; [lia|].
  assert (E : exists r st',
             analyze_dataset sample_config numeric_world
                             (restart interrupted_state) (ReadOk three_rows)
                             2 1
             = (Final r, st')).
  { vm_compute. eexists _, _. reflexivity. }
  destruct E as (r & st' & E).
  exists r, st'. split; [exact E|].
  exact (proj2 (analyze_dataset_reported_rows sample_config numeric_world
                  (restart interrupted_state) st' three_rows 2 1 r
                  (fair_constant_world _) eq_refl ltac:(lia) ltac:(lia) E)).
Defined.

Lemma run_without_batches
    (cfg : config) (w : world) (st : state) (df : dataframe)
    (batch_size start_from_batch : Z) :
  required_present df ->
  batch_size <> 0 ->
  total_batches (len (rows df)) batch_size <= start_from_batch ->
  exists r st',
    analyze_dataset cfg w st (ReadOk df) batch_size start_from_batch
    = (Final r, st')
    /\ final_summary r = NoValidResults
    /\ detailed_results r = []
    /\ total_processed (final_metadata r) = 0
    /\ final_failed_items r = failed_items st
    /\ temp_dir st' = temp_dir st
    /\ write_log st' = write_log st
    /\ completed_count st' = completed_count st
    /\ final_file st' = Some (final_json r).
Proof.
  intros Hcols Hbs Hstart.
  rewrite (analyze_dataset_run cfg w st df batch_size start_from_batch
             Hcols Hbs).
  unfold batches_of. rewrite range_from_empty by exact Hstart.
  cbn. eexists _, _. repeat split.
Qed.

(** X14.  A run whose start is at or past the number of batches (an empty
    table, or a resume after the last batch) goes through no batch: it
    returns final results with the summary for an empty list, no
    detailed result and a zero count, writes no checkpoint and no file
    in the output directory, and still writes the final results file. *)
Theorem analyze_dataset_nothing_to_do
    (cfg : config) (w : world) (st : state) (df : dataframe)
    (batch_size start_from_batch : Z) :
  required_present df ->
  batch_size <> 0 ->
  total_batches (len (rows df)) batch_size <= start_from_batch ->
  exists r st',
    analyze_dataset cfg w st (ReadOk df) batch_size start_from_batch
    = (Final r, st')
    /\ final_summary r = NoValidResults
    /\ detailed_results r = []
    /\ total_processed (final_metadata r) = 0
    /\ final_failed_items r = failed_items st
    /\ temp_dir st' = temp_dir st
    /\ write_log st' = write_log st
    /\ completed_count st' = completed_count st
    /\ final_file st' = Some (final_json r).
Proof. apply run_without_batches. Qed.

Lemma analyze_dataset_nothing_to_do_witness :
  required_present (DataFrame required_columns [])
  /\ 50 <> 0
  /\ total_batches (len (rows (DataFrame required_columns []))) 50 <= 0
  /\ exists r st',
      analyze_dataset sample_config answering_world empty_state
                      (ReadOk (DataFrame required_columns [])) 50 0
      = (Final r, st')
      /\ final_summary r = NoValidResults
      /\ write_log st' = [].
Proof.
  split; [reflexivity|]. split; [lia|]. split; [vm_compute; discriminate|].
  destruct (analyze_dataset_nothing_to_do sample_config answering_world
              empty_state (DataFrame required_columns []) 50 0 eq_refl
              ltac:(lia) ltac:(vm_compute; discriminate))
    as (r & st' & Hrun & Hsum & _ & _ & _ & _ & Hlog & _).
  exists r, st'. repeat split; assumption.
Defined.

(** X15.  The two fatal checks.  A read failure is returned as such.  A
    table that lacks a required column is refused with the list of the
    required columns it lacks, and only such a table is; a fatal return
    leaves the state as it was, and a zero batch size makes the division
    raise. *)
Theorem analyze_dataset_validation
    (cfg : config) (w : world) (st : state)
    (batch_size start_from_batch : Z) :
  (forall e,
      analyze_dataset cfg w st (ReadFails e) batch_size start_from_batch
      = (ErrorRead e, st))
  /\ (forall df,
         (exists c, In c required_columns /\ ~ In c (columns df)) ->
         exists missing,
           analyze_dataset cfg w st (ReadOk df) batch_size start_from_batch
           = (ErrorMissingColumns missing, st)
           /\ forall c, In c missing
                        <-> In c required_columns /\ ~ In c (columns df))
  /\ (forall df,
         (forall c, In c required_columns -> In c (columns df)) ->
         required_present df
         /\ (batch_size = 0 ->
             analyze_dataset cfg w st (ReadOk df) batch_size start_from_batch
             = (Raises, st))
         /\ forall missing,
              fst (analyze_dataset cfg w st (ReadOk df) batch_size
                                   start_from_batch)
              <> ErrorMissingColumns missing).
Proof.
  assert (Hfilter : forall df c,
             In c (filter (fun col => negb (str_in col (columns df)))
                          required_columns)
             <-> In c required_columns /\ ~ In c (columns df)).
  { intros df c. rewrite filter_In.
    destruct (str_in c (columns df)) eqn:E.
    - apply str_in_In in E. cbn. split; [intros [_ H]; discriminate|tauto].
    - apply str_in_not_In in E. cbn. tauto. }
  split; [reflexivity|]. split.
  - intros df (c & Hc & Hn). unfold analyze_dataset.
    destruct (filter _ required_columns) as [|m ms] eqn:E.
    + exfalso. assert (H : In c []) by (rewrite <- E; now apply Hfilter).
      destruct H.
    + eexists. split; [reflexivity|]. intros c'. rewrite <- E. apply Hfilter.
  - intros df Hall.
    assert (Hp : required_present df).
    { unfold required_present.
      destruct (filter _ required_columns) as [|m ms] eqn:E; [reflexivity|].
      assert (H : In m (m :: ms)) by now left.
      rewrite <- E in H. apply Hfilter in H. destruct H as [H1 H2].
      destruct (H2 (Hall m H1)). }
    split; [exact Hp|]. unfold analyze_dataset.
    unfold required_present in Hp. rewrite Hp. split.
    + intros ->. reflexivity.
    + intros missing.
      destruct (batch_size =? 0); [discriminate|].
      destruct (batch_loop _ _ _ _ _ _) as [all_results st1].
      destruct (generate_summary _ all_results); [|discriminate].
      cbv beta iota zeta delta [now].
      match goal with
      | |- context [forallb ?f all_results] =>
          destruct (forallb f all_results)
      end; discriminate.
Qed.

Lemma analyze_dataset_validation_witness :
  (exists c, In c required_columns
             /\ ~ In c (columns (DataFrame [lit "type"; lit "article_id"] [])))
  /\ exists missing,
       analyze_dataset sample_config answering_world empty_state
         (ReadOk (DataFrame [lit "type"; lit "article_id"] [])) 50 0
       = (ErrorMissingColumns missing, empty_state)
       /\ (In (lit "aggregated_text") missing
           <-> In (lit "aggregated_text") required_columns
               /\ ~ In (lit "aggregated_text")
                       (columns (DataFrame [lit "type"; lit "article_id"]
                                           []))).
Proof.
  assert (H : exists c, In c required_columns
                /\ ~ In c (columns (DataFrame [lit "type"; lit "article_id"] []))).
  { exists (lit "target_dataset_id"). split; [now left|].
    intros [E|[E|[]]]; discriminate. }
  split; [exact H|].
  destruct (proj1 (proj2 (analyze_dataset_validation sample_config
                            answering_world empty_state 50 0)) _ H)
    as (missing & Hrun & Hin).
  exists missing. split; [exact Hrun|apply Hin].
Defined.
(* ================================================================== *)
(** ** The checkpoint file and resuming *)
(* ================================================================== *)

Section CheckpointFile.

Variable cfg : config.
Variable w : world.
Variable df_rows : list (Z * row).
Variable batch_size : Z.

(** The checkpoint file at the end of a turn of the loop. *)
Lemma batch_step_checkpoint_file (all_results : list dict) (st : state)
    (b : Z) :
  let acc' := batch_step cfg w df_rows batch_size (all_results, st) b in
  exists timestamp,
    Dict.get (temp_dir (snd acc')) checkpoint_name
    = Some (checkpoint b (fst acc') (failed_items (snd acc')) timestamp).
Proof.
  destruct (batch_step_parts cfg w df_rows batch_size all_results st b)
    as (_ & _ & Hf & _ & Ht).
  cbn zeta in *. rewrite Ht, Hf, get_set_same. eexists. reflexivity.
Qed.

Lemma batch_loop_snoc (batches : list Z) (b : Z) (acc : list dict * state) :
  batch_loop cfg w df_rows batch_size (batches ++ [b]) acc
  = batch_step cfg w df_rows batch_size
      (batch_loop cfg w df_rows batch_size batches acc) b.
Proof. unfold batch_loop. now rewrite fold_left_app. Qed.

Lemma batch_loop_checkpoint_file (batches : list Z) (b : Z)
    (acc : list dict * state) :
  let acc' := batch_loop cfg w df_rows batch_size (batches ++ [b]) acc in
  exists timestamp,
    Dict.get (temp_dir (snd acc')) checkpoint_name
    = Some (checkpoint b (fst acc') (failed_items (snd acc')) timestamp).
Proof.
  cbn zeta. rewrite batch_loop_snoc.
  destruct (batch_loop cfg w df_rows batch_size batches acc) as [all st].
  apply batch_step_checkpoint_file.
Qed.

End CheckpointFile.

Lemma resume_of_checkpoint (st : state) (b : Z) (all_results : list dict)
    (failed : list json) (timestamp : str) :
  Dict.get (temp_dir st) checkpoint_name
  = Some (checkpoint b all_results failed timestamp) ->
  resume_analysis st true = ResumesFrom (b + 1)
  /\ resume_analysis st false = NotResumed.
Proof.
  intros H. unfold resume_analysis. rewrite H. split; reflexivity.
Qed.

Lemma range_from_last (a b : Z) :
  a < b -> range_from a b = range_from a (b - 1) ++ [b - 1].
Proof.
  intros H. rewrite (range_from_split a (b - 1) b) by lia. f_equal.
  unfold range_from. replace (Z.to_nat (b - (b - 1))) with 1%nat by lia.
  cbn. f_equal. lia.
Qed.

Lemma loop_resumption
    (cfg : config) (w : world) (df_rows : list (Z * row)) (batch_size : Z)
    (batches : list Z) (b : Z) (all_results : list dict) (st : state) :
  let acc' :=
    batch_loop cfg w df_rows batch_size (batches ++ [b]) (all_results, st) in
  (exists timestamp,
      Dict.get (temp_dir (snd acc')) checkpoint_name
      = Some (checkpoint b (fst acc') (failed_items (snd acc')) timestamp))
  /\ resume_analysis (snd acc') true = ResumesFrom (b + 1)
  /\ resume_analysis (snd acc') false = NotResumed.
Proof.
  cbn zeta.
  destruct (batch_loop_checkpoint_file cfg w df_rows batch_size batches b
              (all_results, st)) as (ts & Hts).
  split; [now exists ts|]. now apply resume_of_checkpoint in Hts.
Qed.

(** X16.  Whatever the batches a loop went through, at the end of the turn
    of batch [b] the checkpoint file names [b] as the last completed
    batch, with the number of results gathered so far and the failure
    list as it stands; [resume_analysis] then proposes batch [b + 1], and
    starts from it when the user accepts and gives up when the user
    declines. *)
Theorem resume_follows_last_batch
    (cfg : config) (w : world) (df_rows : list (Z * row)) (batch_size : Z)
    (batches : list Z) (b : Z) (all_results : list dict) (st : state) :
  let acc' :=
    batch_loop cfg w df_rows batch_size (batches ++ [b]) (all_results, st) in
  (exists timestamp,
      Dict.get (temp_dir (snd acc')) checkpoint_name
      = Some (checkpoint b (fst acc') (failed_items (snd acc')) timestamp))
  /\ resume_analysis (snd acc') true = ResumesFrom (b + 1)
  /\ resume_analysis (snd acc') false = NotResumed.
Proof. apply loop_resumption. Qed.

Lemma completed_run_resumption
    (cfg cfg' : config) (w w' : world) (st st' : state) (df : dataframe)
    (batch_size start_from_batch : Z) (r : final_results) :
  required_present df ->
  1 <= batch_size ->
  start_from_batch < total_batches (len (rows df)) batch_size ->
  analyze_dataset cfg w st (ReadOk df) batch_size start_from_batch
  = (Final r, st') ->
  let last := total_batches (len (rows df)) batch_size - 1 in
  (exists timestamp,
      Dict.get (temp_dir st') checkpoint_name
      = Some (checkpoint last (detailed_results r) (final_failed_items r)
                         timestamp))
  /\ resume_analysis st' true = ResumesFrom (last + 1)
  /\ exists r2 st2,
       analyze_dataset cfg' w' (restart st') (ReadOk df) batch_size (last + 1)
       = (Final r2, st2)
       /\ detailed_results r2 = []
       /\ final_summary r2 = NoValidResults
       /\ total_processed (final_metadata r2) = 0
       /\ final_file st2 = Some (final_json r2).
Proof.
  intros Hcols HB Hs Hrun last.
  destruct (analyze_dataset_final cfg w st st' df batch_size start_from_batch
              r Hcols ltac:(lia) Hrun)
    as (Hd & Hff & _ & _ & _ & Htd & _ & _ & _).
  unfold batches_of in *. rewrite range_from_last in * by exact Hs.
  fold last in Hd, Hff, Htd.
  destruct (loop_resumption cfg w (rows df) batch_size
              (range_from start_from_batch last) last [] st)
    as ((ts & Hts) & Hyes & _).
  cbn zeta in *.
  assert (Hfile : Dict.get (temp_dir st') checkpoint_name
                  = Some (checkpoint last (detailed_results r)
                                     (final_failed_items r) ts)).
  { rewrite Htd, Hd, Hff. exact Hts. }
  split; [now exists ts|]. split.
  - now apply resume_of_checkpoint in Hfile.
  - destruct (run_without_batches cfg' w' (restart st') df batch_size
                (last + 1) Hcols ltac:(lia) ltac:(subst last; lia))
      as (r2 & st2 & H2 & Hsum & Hdet & Htot & _ & _ & _ & _ & Hfin).
    exists r2, st2. auto.
Qed.

(** X17.  A run that went through its last batch leaves a checkpoint that
    agrees with what it returns: the last batch, the number of detailed
    results, the failure list.  Resuming from that checkpoint starts
    after the last batch, so the run it starts goes through no batch and
    writes a final results file without any result. *)
Theorem resuming_a_completed_run
    (cfg cfg' : config) (w w' : world) (st st' : state) (df : dataframe)
    (batch_size start_from_batch : Z) (r : final_results) :
  required_present df ->
  1 <= batch_size ->
  start_from_batch < total_batches (len (rows df)) batch_size ->
  analyze_dataset cfg w st (ReadOk df) batch_size start_from_batch
  = (Final r, st') ->
  let last := total_batches (len (rows df)) batch_size - 1 in
  (exists timestamp,
      Dict.get (temp_dir st') checkpoint_name
      = Some (checkpoint last (detailed_results r) (final_failed_items r)
                         timestamp))
  /\ resume_analysis st' true = ResumesFrom (last + 1)
  /\ exists r2 st2,
       analyze_dataset cfg' w' (restart st') (ReadOk df) batch_size (last + 1)
       = (Final r2, st2)
       /\ detailed_results r2 = []
       /\ final_summary r2 = NoValidResults
       /\ total_processed (final_metadata r2) = 0
       /\ final_file st2 = Some (final_json r2).
Proof. apply completed_run_resumption. Qed.

Lemma resuming_a_completed_run_witness :
  required_present three_rows
  /\ 1 <= 2
  /\ 0 < total_batches (len (rows three_rows)) 2
  /\ exists r st',
      analyze_dataset sample_config numeric_world empty_state
                      (ReadOk three_rows) 2 0
      = (Final r, st')
      /\ len (detailed_results r) = 3
      /\ resume_analysis st' true = ResumesFrom 2
      /\ exists r2 st2,
           analyze_dataset sample_config numeric_world (restart st')
                           (ReadOk three_rows) 2 2
           = (Final r2, st2)
           /\ detailed_results r2 = [].
Proof.
  split; [reflexivity|]. split; [lia|]. split; [reflexivity|].
  assert (E : exists r st',
             analyze_dataset sample_config numeric_world empty_state
                             (ReadOk three_rows) 2 0
             = (Final r, st')
             /\ len (detailed_results r) = 3).
  { vm_compute. eexists _, _. split; reflexivity. }
  destruct E as (r & st' & E & Hl).
  exists r, st'. split; [exact E|]. split; [exact Hl|].
  destruct (resuming_a_completed_run sample_config sample_config
              numeric_world numeric_world empty_state st' three_rows
              2 0 r eq_refl ltac:(lia) eq_refl E)
    as (_ & Hyes & r2 & st2 & H2 & Hd & _).
  split; [exact Hyes|]. exists r2, st2. split; [exact H2|exact Hd].
Defined.
(* ================================================================== *)
(** ** A run and the batch-results files it leaves *)
(* ================================================================== *)

Section RunFiles.

Variable cfg : config.
Variable w : world.

(** The batch-results files are the same in two states: the same results
    are loaded and the same batch file names are taken. *)
Local Abbreviation same_result_files st st' :=
  (load_existing_results st' = load_existing_results st
   /\ forall b, Dict.mem (temp_dir st') (batch_filename b)
                = Dict.mem (temp_dir st) (batch_filename b)).

Lemma mem_set_other {V} (d : list (str * V)) (k k' : str) (v : V) :
  k' <> k -> Dict.mem (Dict.set d k v) k' = Dict.mem d k'.
Proof.
  intros H. now rewrite !mem_get, get_set_other.
Qed.

Lemma other_write_files (st : state) (name : str) (content : json) :
  endswith name results_suffix = false ->
  same_result_files st (write_temp st name content).
Proof.
  intros H. split; [now apply load_after_other_write|].
  intros b. unfold write_temp. cbn [temp_dir]. apply mem_set_other.
  intros E. rewrite <- E, batch_filename_suffix in H. discriminate.
Qed.

Lemma mem_remove_other {V} (d : list (str * V)) (k k' : str) :
  k' <> k -> Dict.mem (Dict.remove d k) k' = Dict.mem d k'.
Proof.
  intros H. now rewrite !mem_get, get_remove_other.
Qed.

Lemma other_dump_files (st : state) (name : str) (content : json) :
  endswith name results_suffix = false ->
  same_result_files st (dump_temp st name content).
Proof.
  intros H. split; [now apply load_after_other_dump|].
  intros b.
  assert (Hb : batch_filename b <> name).
  { intros E. rewrite <- E, batch_filename_suffix in H. discriminate. }
  unfold dump_temp. destruct (encodable content).
  - unfold write_temp. cbn [temp_dir]. now apply mem_set_other.
  - unfold cut_temp. cbn [temp_dir]. now apply mem_remove_other.
Qed.

Lemma process_single_item_files (st : state) (item : Z * row) (b : Z) :
  same_result_files st (snd (process_single_item cfg w st item b)).
Proof.
  destruct item as [index r]. unfold process_single_item.
  destruct (truthy _); [|now split].
  destruct (py_value _) as [| | | | | |d]; cbn [snd]; try (now split).
  destruct (other_dump_files st (item_filename b index)
              (JObject (Dict.set d (lit "original_data")
                                 (original_data index r)))
              (item_filename_suffix b index)) as [H1 H2].
  split; [exact H1|exact H2].
Qed.

Lemma dump_temp_truncated (st : state) (name x : str) (content : json) :
  x <> name ->
  In x (truncated (dump_temp st name content)) <-> In x (truncated st).
Proof.
  intros Hx. unfold dump_temp.
  destruct (encodable content); cbn [write_temp cut_temp truncated].
  - rewrite in_without. tauto.
  - rewrite in_app_iff, in_without. cbn [In]. split.
    + intros [[H _]|[H|[]]]; [exact H|]. now destruct Hx.
    + intros H. left. now split.
Qed.

Lemma process_single_item_truncated (st : state) (item : Z * row)
    (b b0 : Z) :
  In (batch_filename b0)
     (truncated (snd (process_single_item cfg w st item b)))
  <-> In (batch_filename b0) (truncated st).
Proof.
  destruct item as [index r]. unfold process_single_item.
  destruct (truthy _); [|reflexivity].
  destruct (py_value _) as [| | | | | |d]; cbn [snd truncated];
    try reflexivity.
  apply dump_temp_truncated, batch_filename_not_item.
Qed.

Lemma process_batch_truncated (st : state) (data : list (Z * row))
    (b b0 : Z) :
  In (batch_filename b0) (truncated (snd (process_batch cfg w st data b)))
  <-> In (batch_filename b0) (truncated st).
Proof.
  unfold process_batch.
  assert (H : In (batch_filename b0)
                 (truncated (snd (run_items cfg w st data b)))
              <-> In (batch_filename b0) (truncated st)).
  { revert st. induction data as [|item data IH]; intros st; [reflexivity|].
    cbn [run_items].
    pose proof (process_single_item_truncated st item b b0) as H1.
    destruct (process_single_item cfg w st item b) as [res st1].
    specialize (IH st1).
    destruct (run_items cfg w st1 data b) as [others st2].
    cbn [snd] in *. now rewrite IH. }
  now destruct (run_items cfg w st data b) as [futures st1].
Qed.

Lemma run_items_files (items : list (Z * row)) (st : state) (b : Z) :
  same_result_files st (snd (run_items cfg w st items b)).
Proof.
  revert st. induction items as [|item items IH]; intros st; [now split|].
  cbn [run_items].
  destruct (process_single_item_files st item b) as [H1 H2].
  destruct (process_single_item cfg w st item b) as [res st1].
  destruct (IH st1) as [H3 H4].
  destruct (run_items cfg w st1 items b) as [others st2].
  cbn [snd] in *. split; [congruence|].
  intros b'. now rewrite H4, H2.
Qed.

Lemma process_batch_files (st : state) (data : list (Z * row)) (b : Z) :
  same_result_files st (snd (process_batch cfg w st data b)).
Proof.
  unfold process_batch. pose proof (run_items_files data st b) as H.
  now destruct (run_items cfg w st data b) as [futures st1].
Qed.

Variable df_rows : list (Z * row).
Variable batch_size : Z.

Lemma batch_step_files (all_results : list dict) (st : state) (b : Z) :
  Dict.mem (temp_dir st) (batch_filename b) = false ->
  forallb (fun d => encodable (JObject d))
          (batch_results cfg w df_rows batch_size b) = true ->
  let st' := snd (batch_step cfg w df_rows batch_size (all_results, st) b) in
  load_existing_results st'
  = load_existing_results st
    ++ map JObject (batch_results cfg w df_rows batch_size b)
  /\ forall b', b' <> b ->
       Dict.mem (temp_dir st') (batch_filename b')
       = Dict.mem (temp_dir st) (batch_filename b').
Proof.
  intros Hfresh Henc. unfold batch_step. unfold batch_results in *.
  pose proof (process_batch_result cfg w st empty_state
                (batch_data df_rows batch_size b) b) as Hind.
  rewrite <- Hind in *.
  destruct (process_batch_files st (batch_data df_rows batch_size b) b)
    as [Hl Hm].
  destruct (process_batch cfg w st (batch_data df_rows batch_size b) b)
    as [res st1].
  cbn [fst snd] in *.
  assert (Hsave :
            let st2 := match res with
                       | [] => st1
                       | _ => save_batch_results st1 res b
                       end in
            load_existing_results st2
            = load_existing_results st ++ map JObject res
            /\ forall b', b' <> b ->
                 Dict.mem (temp_dir st2) (batch_filename b')
                 = Dict.mem (temp_dir st) (batch_filename b')).
  { destruct res as [|d res].
    - cbn [map]. rewrite app_nil_r. split; [exact Hl|]. intros b' _. apply Hm.
    - cbn zeta.
      rewrite load_after_fresh_save by (try exact Henc; now rewrite Hm).
      rewrite Hl. split; [reflexivity|]. intros b' Hb'.
      unfold save_batch_results.
      rewrite dump_temp_whole by (now rewrite encodable_results).
      unfold write_temp. cbn [temp_dir].
      rewrite mem_set_other; [apply Hm|].
      intros E. apply batch_filename_inj in E. contradiction. }
  destruct res as [|d res]; cbn zeta in Hsave; destruct Hsave as [Hl2 Hm2];
    cbn [now fst snd].
  - match goal with
    | |- context [write_temp ?s checkpoint_name ?c] =>
        destruct (other_write_files s checkpoint_name c
                    checkpoint_name_suffix) as [H1 H2]
    end.
    rewrite H1. split.
    + exact Hl2.
    + intros b' Hb'. rewrite H2. cbn [temp_dir]. now apply Hm2.
  - match goal with
    | |- context [write_temp ?s checkpoint_name ?c] =>
        destruct (other_write_files s checkpoint_name c
                    checkpoint_name_suffix) as [H1 H2]
    end.
    rewrite H1. split.
    + exact Hl2.
    + intros b' Hb'. rewrite H2. cbn [temp_dir]. now apply Hm2.
Qed.

(** A turn of the loop whose results can be encoded leaves no batch file
    truncated that was not. *)
Lemma batch_step_whole (all_results : list dict) (st : state) (b b0 : Z) :
  forallb (fun d => encodable (JObject d))
          (batch_results cfg w df_rows batch_size b) = true ->
  In (batch_filename b0)
     (truncated (snd (batch_step cfg w df_rows batch_size
                                 (all_results, st) b))) ->
  In (batch_filename b0) (truncated st).
Proof.
  intros Henc. unfold batch_step. unfold batch_results in Henc.
  pose proof (process_batch_result cfg w st empty_state
                (batch_data df_rows batch_size b) b) as Hind.
  rewrite <- Hind in Henc.
  pose proof (process_batch_truncated st (batch_data df_rows batch_size b)
                b b0) as Htr.
  destruct (process_batch cfg w st (batch_data df_rows batch_size b) b)
    as [res st1].
  cbn [fst snd] in *.
  destruct res as [|d res]; cbn [now write_temp snd fst truncated].
  - rewrite in_without. intros [H _]. now apply Htr.
  - unfold save_batch_results.
    rewrite dump_temp_whole by (now rewrite encodable_results).
    cbn [write_temp truncated]. rewrite !in_without.
    intros [[H _] _]. now apply Htr.
Qed.

Lemma batch_loop_whole (batches : list Z) (all_results : list dict)
    (st : state) (b0 : Z) :
  forallb (fun d => encodable (JObject d))
          (concat (map (batch_results cfg w df_rows batch_size) batches))
  = true ->
  In (batch_filename b0)
     (truncated (snd (batch_loop cfg w df_rows batch_size batches
                                 (all_results, st)))) ->
  In (batch_filename b0) (truncated st).
Proof.
  revert all_results st. induction batches as [|b batches IH];
    intros all_results st Henc; [now intros H|].
  cbn [map concat] in Henc. rewrite forallb_app in Henc.
  apply andb_prop in Henc. destruct Henc as [Henc1 Henc2].
  unfold batch_loop in *. cbn [fold_left].
  pose proof (batch_step_whole all_results st b b0 Henc1) as Hstep.
  destruct (batch_step cfg w df_rows batch_size (all_results, st) b)
    as [all1 st1].
  cbn [snd] in Hstep. intros H. apply Hstep. now apply (IH all1 st1).
Qed.

Lemma batch_loop_files (batches : list Z) (all_results : list dict)
    (st : state) :
  NoDup batches ->
  (forall b, In b batches ->
             Dict.mem (temp_dir st) (batch_filename b) = false) ->
  forallb (fun d => encodable (JObject d))
          (concat (map (batch_results cfg w df_rows batch_size) batches))
  = true ->
  load_existing_results
    (snd (batch_loop cfg w df_rows batch_size batches (all_results, st)))
  = load_existing_results st
    ++ map JObject
         (concat (map (batch_results cfg w df_rows batch_size) batches)).
Proof.
  revert all_results st. induction batches as [|b batches IH];
    intros all_results st Hnd Hfresh Henc.
  - cbn. now rewrite app_nil_r.
  - inversion Hnd as [|? ? Hb Hnd']; subst.
    cbn [map concat] in Henc. rewrite forallb_app in Henc.
    apply andb_prop in Henc. destruct Henc as [Henc1 Henc2].
    unfold batch_loop in *. cbn [fold_left map concat].
    destruct (batch_step_files all_results st b
                (Hfresh b (or_introl eq_refl)) Henc1) as [Hl Hm].
    destruct (batch_step cfg w df_rows batch_size (all_results, st) b)
      as [all1 st1].
    cbn [snd] in *. rewrite IH.
    + rewrite Hl, map_app, app_assoc. reflexivity.
    + exact Hnd'.
    + intros b' Hb'. rewrite Hm.
      * apply Hfresh. now right.
      * intros ->. contradiction.
    + exact Henc2.
Qed.

End RunFiles.

Section Listing.

Local Abbreviation loaded :=
  (fun entry : str * json =>
     if endswith (fst entry) (lit "_results.json") then
       match py_iter (snd entry) with
       | Some batch_results => batch_results
       | None => []
       end
     else []).

Lemma load_flat_map (st : state) :
  load_existing_results st = flat_map loaded (temp_dir st).
Proof.
  unfold load_existing_results.
  induction (temp_dir st) as [|e dir IH]; [reflexivity|].
  cbn [fold_left flat_map]. rewrite load_fold_acc, IH. reflexivity.
Qed.

Lemma load_any_listing (st : state) (listing : list (str * json)) :
  Permutation listing (temp_dir st) ->
  Permutation (load_existing_results (listed st listing))
              (load_existing_results st).
Proof.
  intros H. rewrite !load_flat_map. cbn [listed temp_dir].
  now apply Permutation_flat_map.
Qed.

End Listing.

Lemma run_files
    (cfg : config) (w : world) (st st' : state) (df : dataframe)
    (batch_size start_from_batch : Z) (r : final_results) :
  required_present df ->
  batch_size <> 0 ->
  (forall b,
      start_from_batch <= b < total_batches (len (rows df)) batch_size ->
      Dict.mem (temp_dir st) (batch_filename b) = false
      /\ ~ In (batch_filename b) (truncated st)) ->
  analyze_dataset cfg w st (ReadOk df) batch_size start_from_batch
  = (Final r, st') ->
  load_existing_results st'
  = load_existing_results st ++ map JObject (detailed_results r)
  /\ (forall listing,
         Permutation listing (temp_dir st') ->
         Permutation (load_existing_results (listed st' listing))
                     (load_existing_results st
                      ++ map JObject (detailed_results r)))
  /\ (forall b,
         start_from_batch <= b < total_batches (len (rows df)) batch_size ->
         ~ In (batch_filename b) (truncated st')).
Proof.
  intros Hcols HB Hfresh Hrun.
  destruct (analyze_dataset_final cfg w st st' df batch_size start_from_batch
              r Hcols HB Hrun)
    as (Hd & _ & _ & _ & _ & Htd & _ & _ & _ & Henc & _ & Htr).
  cbn zeta in *.
  assert (E : load_existing_results st'
              = load_existing_results st ++ map JObject (detailed_results r)).
  { rewrite batch_loop_results in Henc. cbn [app] in Henc.
    rewrite Hd, batch_loop_results. cbn [app].
    rewrite <- (batch_loop_files cfg w (rows df) batch_size
                  (batches_of df batch_size start_from_batch) [] st).
    - unfold load_existing_results. now rewrite Htd.
    - apply range_from_NoDup.
    - intros b Hb. apply Hfresh. now apply range_from_In.
    - exact Henc. }
  split; [exact E|]. split.
  - intros listing Hp. rewrite <- E. now apply load_any_listing.
  - intros b Hb Hin. rewrite Htr in Hin. apply in_without in Hin.
    destruct Hin as [Hin _].
    rewrite batch_loop_results in Henc. cbn [app] in Henc.
    apply (proj2 (Hfresh b Hb)).
    exact (batch_loop_whole cfg w (rows df) batch_size
             (batches_of df batch_size start_from_batch) [] st b Henc Hin).
Qed.

(** X18.  The batch-results files of a run that ends with final results
    hold exactly what it returns.  When none of the batch files the run
    may write is in the output directory beforehand, whole or truncated,
    loading the directory after the run gives what was loaded before,
    followed by the detailed results of the run (the directory being
    listed in the order its files were created); under any other listing
    of the directory the same results are loaded, in another order.
    None of these batch files is left truncated: a run in which a write
    of a batch file fails does not end with final results. *)
Theorem run_then_load
    (cfg : config) (w : world) (st st' : state) (df : dataframe)
    (batch_size start_from_batch : Z) (r : final_results) :
  required_present df ->
  batch_size <> 0 ->
  (forall b,
      start_from_batch <= b < total_batches (len (rows df)) batch_size ->
      Dict.mem (temp_dir st) (batch_filename b) = false
      /\ ~ In (batch_filename b) (truncated st)) ->
  analyze_dataset cfg w st (ReadOk df) batch_size start_from_batch
  = (Final r, st') ->
  load_existing_results st'
  = load_existing_results st ++ map JObject (detailed_results r)
  /\ (forall listing,
         Permutation listing (temp_dir st') ->
         Permutation (load_existing_results (listed st' listing))
                     (load_existing_results st
                      ++ map JObject (detailed_results r)))
  /\ (forall b,
         start_from_batch <= b < total_batches (len (rows df)) batch_size ->
         ~ In (batch_filename b) (truncated st')).
Proof. apply run_files. Qed.

Lemma run_then_load_witness :
  required_present three_rows
  /\ 2 <> 0
  /\ (forall b, 0 <= b < total_batches (len (rows three_rows)) 2 ->
                Dict.mem (temp_dir empty_state) (batch_filename b) = false
                /\ ~ In (batch_filename b) (truncated empty_state))
  /\ exists r st',
      analyze_dataset sample_config numeric_world empty_state
                      (ReadOk three_rows) 2 0
      = (Final r, st')
      /\ load_existing_results st' = map JObject (detailed_results r).
Proof.
  split; [reflexivity|]. split; [lia|].
  split; [intros b _; split; [reflexivity|intros []]|].
  assert (E : exists r st',
             analyze_dataset sample_config numeric_world empty_state
                             (ReadOk three_rows) 2 0
             = (Final r, st')).
  { vm_compute. eexists _, _. reflexivity. }
  destruct E as (r & st' & E).
  exists r, st'. split; [exact E|].
  exact (proj1 (run_then_load sample_config numeric_world empty_state st'
                  three_rows 2 0 r eq_refl ltac:(lia)
                  (fun b _ => conj eq_refl (fun H => H)) E)).
Defined.
(* ================================================================== *)
(** ** The summary aggregator: classes and patterns *)
(* ================================================================== *)

Section ClassCounts.

Lemma total_bump (d : list (hashable * Z)) (k : hashable) :
  total (map snd (bump d k)) = total (map snd d) + 1.
Proof.
  unfold bump, KeyDict.get_default.
  induction d as [|[k' v'] d IH]; [reflexivity|].
  cbn [KeyDict.get KeyDict.set]. destruct (key_eqb k' k).
  - cbn [map snd total fold_right]. ring.
  - cbn [map snd]. unfold total in *. cbn [fold_right]. rewrite IH. ring.
Qed.

Lemma total_bumps (ks : list hashable) (d : list (hashable * Z)) :
  total (map snd (fold_left bump ks d)) = total (map snd d) + len ks.
Proof.
  revert d. induction ks as [|k ks IH]; intros d.
  - unfold len. cbn [fold_left List.length]. change (Z.of_nat 0) with 0.
    ring.
  - cbn [fold_left]. rewrite IH, total_bump. unfold len. cbn [List.length].
    rewrite Nat2Z.inj_succ. ring.
Qed.

Lemma occurrences_In (k : hashable) (l : list hashable) :
  In k l -> 1 <= occurrences k l.
Proof.
  assert (Hnn : forall l', 0 <= occurrences k l').
  { induction l' as [|x l' IH]; cbn [occurrences]; [lia|].
    destruct (key_eqb x k); lia. }
  induction l as [|x l IH]; intros H; [destruct H|].
  cbn [occurrences]. destruct (key_eqb x k) eqn:E.
  - specialize (Hnn l). lia.
  - destruct H as [->|H]; [now rewrite key_eqb_refl in E|].
    specialize (IH H). lia.
Qed.

Lemma first_seen_sub (k : hashable) (l : list hashable) :
  In k (first_seen l) -> In k l.
Proof.
  induction l as [|x l IH]; [intros []|].
  cbn [first_seen]. intros [->|H]; [now left|].
  apply filter_In in H. right. now apply IH.
Qed.

Lemma classes_cons (r : dict) (results : list dict) :
  classes (r :: results)
  = (if has_error r then []
     else match class_of r with Some c => [c] | None => [] end)
    ++ classes results.
Proof.
  unfold classes. cbn [filter]. now destruct (has_error r).
Qed.

(** What one result brings to the table of classes. *)
Lemma tally_result_class (t t' : tallies) (r : dict) :
  tally_result (Some t) r = Some t' ->
  classification_dist t'
  = fold_left bump (classes [r]) (classification_dist t)
  /\ len (classes [r]) = len (filter (fun r => negb (has_error r)) [r]).
Proof.
  unfold tally_result, classes. cbn [filter].
  destruct (has_error r); cbn [negb flat_map].
  - intros [= <-]. split; reflexivity.
  - unfold class_of.
    destruct (as_key (Dict.get_default r (lit "original_classification") _))
      as [c|]; [|discriminate].
    destruct (py_iter _) as [keywords|]; [|discriminate].
    destruct (fold_left count_keyword keywords _) as [kf|]; [|discriminate].
    intros [= <-]. split; reflexivity.
Qed.

Lemma tally_fold_classes (results : list dict) (t t' : tallies) :
  fold_left tally_result results (Some t) = Some t' ->
  classification_dist t'
  = fold_left bump (classes results) (classification_dist t)
  /\ len (classes results)
     = len (filter (fun r => negb (has_error r)) results).
Proof.
  revert t. induction results as [|r results IH]; intros t H.
  - injection H as <-. split; reflexivity.
  - cbn [fold_left] in H.
    destruct (tally_result (Some t) r) as [t1|] eqn:E1;
      [|rewrite tally_none in H; discriminate].
    destruct (tally_result_class t t1 r E1) as [Hc1 Hl1].
    destruct (IH t1 H) as [Hc Hl].
    rewrite classes_cons in *. rewrite app_nil_r in Hc1, Hl1.
    rewrite fold_left_app, <- Hc1. split; [exact Hc|].
    rewrite len_app, Hl, Hl1. unfold len. cbn [filter].
    destruct (negb (has_error r)); cbn [List.length]; lia.
Qed.

End ClassCounts.

Lemma class_table (enable : bool) (results : list dict) (s : summary) :
  generate_summary enable results = Some (SummaryOf s) ->
  classification_distribution s
  = map (fun c => (c, occurrences c (classes results)))
        (first_seen (classes results))
  /\ total (map snd (classification_distribution s))
     = len (filter (fun r => negb (has_error r)) results)
  /\ NoDup (map hash_class (map fst (classification_distribution s)))
  /\ forall c n, In (c, n) (classification_distribution s) ->
                 1 <= n /\ In c (classes results).
Proof.
  unfold generate_summary. intros H.
  destruct results as [|r0 results0]; [discriminate|].
  destruct (fold_left tally_result (r0 :: results0) _) as [t|] eqn:E;
    [|discriminate].
  injection H as <-. cbn [classification_distribution].
  destruct (tally_fold_classes _ _ _ E) as [Hc Hl].
  cbn [classification_dist] in Hc.
  split; [now rewrite Hc, bump_all|]. split; [|split].
  - rewrite Hc, total_bumps, Hl. reflexivity.
  - rewrite Hc, bump_all, map_fst_counts. apply first_seen_distinct.
  - intros c n Hin. rewrite Hc, bump_all in Hin.
    apply in_map_iff in Hin. destruct Hin as (c' & [= <- <-] & Hc').
    apply first_seen_sub in Hc'.
    split; [now apply occurrences_In|exact Hc'].
Qed.

Lemma class_table_returned (enable : bool) (results : list dict) :
  results <> [] ->
  forallb well_shaped results = true ->
  exists s,
    generate_summary enable results = Some (SummaryOf s)
    /\ classification_distribution s
       = map (fun c => (c, occurrences c (classes results)))
             (first_seen (classes results))
    /\ total (map snd (classification_distribution s))
       = len (filter (fun r => negb (has_error r)) results)
    /\ NoDup (map hash_class (map fst (classification_distribution s)))
    /\ forall c n, In (c, n) (classification_distribution s) ->
                   1 <= n /\ In c (classes results).
Proof.
  intros Hne Hw.
  destruct (generate_summary_returns enable results Hne) as [H _].
  apply H in Hw. destruct Hw as (s & Hs). exists s.
  split; [exact Hs|]. now apply class_table with enable.
Qed.

(** X19.  The table of classes of a summary.  On a non-empty list of
    results on none of which the aggregator raises, the summary is
    returned, and its table holds every class of a result without an
    [error] key once (a missing class counts as [unknown]), in the order
    the classes were first met and as they were first written, with the
    number of such results of that class.  A class is any value that can
    be hashed, and two values are one class when Python holds them for
    the same key ([1], [1.0] and [true]).  The counts are at least 1 and
    add up to the number of results without an [error] key. *)
Theorem classification_distribution_counts
    (enable : bool) (results : list dict) :
  results <> [] ->
  forallb well_shaped results = true ->
  exists s,
    generate_summary enable results = Some (SummaryOf s)
    /\ classification_distribution s
       = map (fun c => (c, occurrences c (classes results)))
             (first_seen (classes results))
    /\ total (map snd (classification_distribution s))
       = len (filter (fun r => negb (has_error r)) results)
    /\ NoDup (map hash_class (map fst (classification_distribution s)))
    /\ forall c n, In (c, n) (classification_distribution s) ->
                   1 <= n /\ In c (classes results).
Proof. apply class_table_returned. Qed.

Lemma classification_distribution_counts_witness :
  [[(lit "original_classification", JString (lit "Primary"))];
   error_result ["x"%string];
   [(lit "supporting_keywords", JArray [])];
   [(lit "original_classification", JInt 1)];
   [(lit "original_classification", JBool true)];
   [(lit "original_classification", JString (lit "Primary"))]] <> []
  /\ exists s,
      generate_summary true
        [[(lit "original_classification", JString (lit "Primary"))];
         error_result ["x"%string];
         [(lit "supporting_keywords", JArray [])];
         [(lit "original_classification", JInt 1)];
         [(lit "original_classification", JBool true)];
         [(lit "original_classification", JString (lit "Primary"))]]
      = Some (SummaryOf s)
      /\ classification_distribution s
         = [(HText (lit "Primary"), 2); (HText (lit "unknown"), 1);
            (HInt 1, 2)]
      /\ total (map snd (classification_distribution s)) = 5.
Proof.
  set (results :=
         [[(lit "original_classification", JString (lit "Primary"))];
          error_result ["x"%string];
          [(lit "supporting_keywords", JArray [])];
          [(lit "original_classification", JInt 1)];
          [(lit "original_classification", JBool true)];
          [(lit "original_classification", JString (lit "Primary"))]]).
  split; [discriminate|].
  destruct (classification_distribution_counts true results
              ltac:(discriminate) eq_refl)
    as (s & E & H1 & H2 & _).
  exists s. split; [exact E|].
  split; [rewrite H1; reflexivity|rewrite H2; reflexivity].
Defined.

Section Patterns.

Lemma key_get_same {V} (d : list (hashable * V)) (a b : hashable) :
  key_eqb a b = true -> KeyDict.get d a = KeyDict.get d b.
Proof.
  intros H. induction d as [|[k v] d IH]; [reflexivity|].
  cbn [KeyDict.get].
  rewrite (key_eqb_sym k a), (key_eqb_same a b k H), (key_eqb_sym b k).
  now rewrite IH.
Qed.

Lemma key_get_set {V} (d : list (hashable * V)) (k k' : hashable) (v : V) :
  KeyDict.get (KeyDict.set d k v) k'
  = if key_eqb k k' then Some v else KeyDict.get d k'.
Proof.
  induction d as [|[k0 v0] d IH]; cbn [KeyDict.set KeyDict.get];
    [reflexivity|].
  destruct (key_eqb k0 k) eqn:E; cbn [KeyDict.get].
  - rewrite (key_eqb_same k0 k k' E). now destruct (key_eqb k k').
  - destruct (key_eqb k0 k') eqn:E'; [|apply IH].
    rewrite (key_eqb_sym k k'), <- (key_eqb_same k0 k' k E'), E.
    reflexivity.
Qed.

Lemma patterns_of_snoc (c : hashable) (results : list dict) (r : dict) :
  patterns_of c (results ++ [r])
  = patterns_of c results
    ++ (if in_class c r
        then if truthy (pattern_of r) then [pattern_of r] else []
        else []).
Proof.
  unfold patterns_of. rewrite filter_app, flat_map_app. f_equal.
  cbn [filter]. destruct (in_class c r); [|reflexivity].
  cbn [flat_map]. now rewrite app_nil_r.
Qed.

(** What one result brings to the table of patterns. *)
Lemma tally_result_patterns (t t' : tallies) (r : dict) (c : hashable) :
  tally_result (Some t) r = Some t' ->
  KeyDict.get (pattern_analysis t') c
  = if in_class c r && truthy (pattern_of r)
    then Some (KeyDict.get_default (pattern_analysis t) c []
               ++ [pattern_of r])
    else KeyDict.get (pattern_analysis t) c.
Proof.
  unfold tally_result, in_class, class_of, pattern_of.
  destruct (has_error r); cbn [negb andb].
  - now intros [= <-].
  - destruct (as_key (Dict.get_default r (lit "original_classification") _))
      as [c'|]; [|discriminate].
    destruct (py_iter _) as [keywords|]; [|discriminate].
    destruct (fold_left count_keyword keywords _) as [kf|]; [|discriminate].
    intros [= <-]. cbn [pattern_analysis].
    destruct (truthy (Dict.get_default r (lit "context_pattern") _)).
    + rewrite key_get_set. destruct (key_eqb c' c) eqn:E; cbn [andb].
      * unfold KeyDict.get_default.
        now rewrite (key_get_same (pattern_analysis t) c' c E).
      * reflexivity.
    + now rewrite andb_false_r.
Qed.

Lemma tally_fold_patterns (results : list dict) (t : tallies)
    (c : hashable) :
  fold_left tally_result results (Some (Tallies [] [] [])) = Some t ->
  KeyDict.get (pattern_analysis t) c
  = match patterns_of c results with
    | [] => None
    | l => Some l
    end.
Proof.
  revert t. induction results as [|r results IH] using rev_ind; intros t H.
  - injection H as <-. reflexivity.
  - rewrite fold_left_app in H. cbn [fold_left] in H.
    destruct (fold_left tally_result results _) as [t1|]; [|discriminate].
    rewrite (tally_result_patterns t1 t r c H), patterns_of_snoc.
    unfold KeyDict.get_default. rewrite (IH t1 eq_refl).
    destruct (in_class c r); cbn [andb];
      [|rewrite app_nil_r; reflexivity].
    destruct (truthy (pattern_of r)); [|rewrite app_nil_r; reflexivity].
    destruct (patterns_of c results) as [|p l]; reflexivity.
Qed.

End Patterns.

Lemma pattern_table (enable : bool) (results : list dict) (s : summary)
    (c : hashable) :
  generate_summary enable results = Some (SummaryOf s) ->
  KeyDict.get_default (context_patterns_by_type s) c []
  = patterns_of c results
  /\ (KeyDict.mem (context_patterns_by_type s) c = true
      <-> patterns_of c results <> []).
Proof.
  unfold generate_summary. intros H.
  destruct results as [|r0 results0]; [discriminate|].
  destruct (fold_left tally_result (r0 :: results0) _) as [t|] eqn:E;
    [|discriminate].
  injection H as <-. cbn [context_patterns_by_type].
  pose proof (tally_fold_patterns _ t c E) as Hg.
  unfold KeyDict.get_default, KeyDict.mem. rewrite Hg.
  destruct (patterns_of c (r0 :: results0)) as [|p l].
  - split; [reflexivity|]. split; [discriminate|congruence].
  - split; [reflexivity|]. split; [discriminate|reflexivity].
Qed.

Lemma pattern_table_returned (enable : bool) (results : list dict) :
  results <> [] ->
  forallb well_shaped results = true ->
  exists s,
    generate_summary enable results = Some (SummaryOf s)
    /\ forall c,
         KeyDict.get_default (context_patterns_by_type s) c []
         = patterns_of c results
         /\ (KeyDict.mem (context_patterns_by_type s) c = true
             <-> patterns_of c results <> []).
Proof.
  intros Hne Hw.
  destruct (generate_summary_returns enable results Hne) as [H _].
  apply H in Hw. destruct Hw as (s & Hs). exists s.
  split; [exact Hs|]. intros c. now apply pattern_table with enable.
Qed.

(** X20.  The table of context patterns of a summary.  On a non-empty
    list of results on none of which the aggregator raises, the summary
    is returned, and under a class (any value that can be hashed, two
    values being one class when Python holds them for the same key) its
    table holds the truthy [context_pattern] values of the results of
    that class without an [error] key, in the order of the results; a
    class without such a value has no entry.  The pattern of a result
    with an [error] key is in no entry. *)
Theorem context_patterns_by_class (enable : bool) (results : list dict) :
  results <> [] ->
  forallb well_shaped results = true ->
  exists s,
    generate_summary enable results = Some (SummaryOf s)
    /\ forall c,
         KeyDict.get_default (context_patterns_by_type s) c []
         = patterns_of c results
         /\ (KeyDict.mem (context_patterns_by_type s) c = true
             <-> patterns_of c results <> []).
Proof. apply pattern_table_returned. Qed.

Lemma context_patterns_by_class_witness :
  [[(lit "original_classification", JString (lit "Primary"));
    (lit "context_pattern", JString (lit "deposited"))];
   error_result ["x"%string];
   [(lit "original_classification", JString (lit "Secondary"));
    (lit "context_pattern", JString [])];
   [(lit "original_classification", JInt 1);
    (lit "context_pattern", JString (lit "reused"))];
   [(lit "original_classification", JBool true);
    (lit "context_pattern", JArray [JNull])]] <> []
  /\ exists s,
      generate_summary false
        [[(lit "original_classification", JString (lit "Primary"));
          (lit "context_pattern", JString (lit "deposited"))];
         error_result ["x"%string];
         [(lit "original_classification", JString (lit "Secondary"));
          (lit "context_pattern", JString [])];
         [(lit "original_classification", JInt 1);
          (lit "context_pattern", JString (lit "reused"))];
         [(lit "original_classification", JBool true);
          (lit "context_pattern", JArray [JNull])]]
      = Some (SummaryOf s)
      /\ KeyDict.get_default (context_patterns_by_type s)
                             (HText (lit "Primary")) []
         = [JString (lit "deposited")]
      /\ KeyDict.get_default (context_patterns_by_type s) (HBool true) []
         = [JString (lit "reused"); JArray [JNull]]
      /\ KeyDict.mem (context_patterns_by_type s) (HText (lit "Secondary"))
         = false.
Proof.
  set (results :=
         [[(lit "original_classification", JString (lit "Primary"));
           (lit "context_pattern", JString (lit "deposited"))];
          error_result ["x"%string];
          [(lit "original_classification", JString (lit "Secondary"));
           (lit "context_pattern", JString [])];
          [(lit "original_classification", JInt 1);
           (lit "context_pattern", JString (lit "reused"))];
          [(lit "original_classification", JBool true);
           (lit "context_pattern", JArray [JNull])]]).
  split; [discriminate|].
  destruct (context_patterns_by_class false results
              ltac:(discriminate) eq_refl) as (s & E & H).
  exists s. split; [exact E|].
  split; [rewrite (proj1 (H (HText (lit "Primary")))); reflexivity|].
  split; [rewrite (proj1 (H (HBool true))); reflexivity|].
  destruct (H (HText (lit "Secondary"))) as [_ H2].
  destruct (KeyDict.mem (context_patterns_by_type s)
                        (HText (lit "Secondary"))); [|reflexivity].
  exfalso. now apply (proj1 H2).
Defined.
(* ================================================================== *)
(** ** Runs in which no call of the client gives a result *)
(* ================================================================== *)

Section NoHardFailure.

Variable cfg : config.
Variable w : world.

Lemma run_items_no_failure (items : list (Z * row)) (st : state) (b : Z) :
  (forall item, In item items -> fails_hard cfg w b item = false) ->
  failed_items (snd (run_items cfg w st items b)) = failed_items st.
Proof.
  revert st. induction items as [|item items IH]; intros st Hno;
    [reflexivity|].
  cbn [run_items].
  destruct (item_books cfg w st item b) as (_ & _ & Hf & _).
  destruct (process_single_item cfg w st item b) as [res st1].
  specialize (IH st1 (fun item' H => Hno item' (or_intror H))).
  destruct (run_items cfg w st1 items b) as [others st2].
  cbn [snd] in *. rewrite IH, Hf, (Hno item (or_introl eq_refl)).
  apply app_nil_r.
Qed.

Lemma batch_loop_no_failure (df_rows : list (Z * row)) (batch_size : Z)
    (batches : list Z) (all_results : list dict) (st : state) :
  (forall b item,
      In b batches -> In item (batch_data df_rows batch_size b) ->
      fails_hard cfg w b item = false) ->
  failed_items
    (snd (batch_loop cfg w df_rows batch_size batches (all_results, st)))
  = failed_items st.
Proof.
  revert all_results st. induction batches as [|b batches IH];
    intros all_results st Hno; [reflexivity|].
  unfold batch_loop in *. cbn [fold_left].
  destruct (batch_step_parts cfg w df_rows batch_size all_results st b)
    as (_ & _ & Hf & _).
  cbn zeta in Hf.
  destruct (batch_step cfg w df_rows batch_size (all_results, st) b)
    as [all1 st1].
  cbn [snd] in Hf.
  rewrite IH by (intros b' item Hb'; apply Hno; now right).
  rewrite Hf. unfold process_batch.
  pose proof (run_items_no_failure (batch_data df_rows batch_size b) st b
                (fun item H => Hno b item (or_introl eq_refl) H)) as H.
  now destruct (run_items cfg w st (batch_data df_rows batch_size b) b).
Qed.

End NoHardFailure.

Section ErrorsOnly.

Lemma tally_errors (results : list dict) (t : tallies) :
  (forall d, In d results -> has_error d = true) ->
  fold_left tally_result results (Some t) = Some t.
Proof.
  induction results as [|r results IH]; intros H; [reflexivity|].
  cbn [fold_left tally_result]. rewrite (H r (or_introl eq_refl)).
  apply IH. intros d Hd. apply H. now right.
Qed.

Lemma filter_none {X} (f : X -> bool) (l : list X) :
  (forall x, In x l -> f x = false) -> filter f l = [].
Proof.
  induction l as [|x l IH]; intros H; [reflexivity|].
  cbn [filter]. rewrite (H x (or_introl eq_refl)).
  apply IH. intros y Hy. apply H. now right.
Qed.

Lemma filter_all {X} (f : X -> bool) (l : list X) :
  (forall x, In x l -> f x = true) -> filter f l = l.
Proof.
  induction l as [|x l IH]; intros H; [reflexivity|].
  cbn [filter]. rewrite (H x (or_introl eq_refl)). f_equal.
  apply IH. intros y Hy. apply H. now right.
Qed.

Lemma generate_summary_errors (enable : bool) (results : list dict) :
  results <> [] ->
  (forall d, In d results -> has_error d = true) ->
  generate_summary enable results = Some (summary_of_errors enable).
Proof.
  intros Hne H. unfold generate_summary, summary_of_errors.
  destruct results as [|r results]; [contradiction|].
  rewrite tally_errors by exact H.
  cbn [classification_dist keyword_frequency pattern_analysis].
  unfold accuracy_of.
  rewrite !filter_none; [reflexivity| | |]; intros d Hd; rewrite (H d Hd);
    reflexivity.
Qed.

Lemma collect_In (futures : list (option dict)) (d : dict) :
  In d (collect futures) -> In (Some d) futures.
Proof.
  unfold collect. rewrite in_flat_map. intros ([d'|] & Hin & Hd); [|destruct Hd].
  destruct (truthy (JObject d')); [|destruct Hd].
  destruct Hd as [->|[]]. exact Hin.
Qed.

Lemma len_nil {X} (l : list X) : len l = 0 -> l = [].
Proof. destruct l; [reflexivity|]. unfold len. cbn [List.length]. lia. Qed.

Lemma concat_nil {X} (ls : list (list X)) :
  (forall l, In l ls -> l = []) -> concat ls = [].
Proof.
  induction ls as [|l ls IH]; intros H; [reflexivity|].
  cbn [concat]. rewrite (H l (or_introl eq_refl)).
  apply IH. intros l' Hl'. apply H. now right.
Qed.

Lemma len_concat_map {X Y Z'} (f : X -> list Y) (g : X -> list Z')
    (l : list X) :
  (forall x, In x l -> len (f x) = len (g x)) ->
  len (concat (map f l)) = len (concat (map g l)).
Proof.
  induction l as [|x l IH]; intros H; [reflexivity|].
  cbn [map concat]. rewrite !len_app, (H x (or_introl eq_refl)), IH;
    [reflexivity|].
  intros y Hy. apply H. now right.
Qed.

End ErrorsOnly.

Section ApiDown.

Variable cfg : config.
Variable w : world.

Hypothesis pool_fair : fair w.
Hypothesis retries : 1 <= max_retries cfg.
Hypothesis down : api_down cfg w.

Lemma down_item (b : Z) (item : Z * row) :
  (exists d, item_result cfg w b item = Some d /\ has_error d = true
             /\ encodable (JObject d) = true)
  /\ succeeds cfg w b item = true
  /\ fails_hard cfg w b item = false.
Proof.
  destruct item as [index r].
  destruct (item_exhausted_whole cfg w empty_state index r b retries
              (fun k Hk => down (item_id_of b index) k Hk))
    as (d & st' & Hrun & Herr & _ & _ & _ & _ & Henc).
  assert (Hs : succeeds cfg w b (index, r) = true)
    by (unfold succeeds; now rewrite Hrun).
  split; [|split].
  - exists d. unfold item_result. rewrite Hrun. now split.
  - exact Hs.
  - destruct (item_books cfg w empty_state (index, r) b)
      as (_ & _ & _ & Hx & _).
    rewrite Hs in Hx. exact Hx.
Qed.

Variable df_rows : list (Z * row).
Variable batch_size : Z.

Lemma down_batch (b : Z) :
  len (batch_results cfg w df_rows batch_size b)
  = len (batch_data df_rows batch_size b)
  /\ forall d, In d (batch_results cfg w df_rows batch_size b) ->
               has_error d = true /\ encodable (JObject d) = true.
Proof.
  split.
  - rewrite (proj1 (batch_results_books cfg w df_rows batch_size pool_fair b)).
    unfold batch_successes, len. rewrite length_map, filter_all; [reflexivity|].
    intros item _. apply down_item.
  - intros d Hd. unfold batch_results, process_batch in Hd.
    pose proof (run_items_futures cfg w (batch_data df_rows batch_size b)
                  empty_state b) as Hfut.
    destruct (run_items cfg w empty_state (batch_data df_rows batch_size b) b)
      as [futures st1].
    cbn [fst] in *. subst futures. apply collect_In in Hd.
    apply (Permutation_in _ (pool_fair b _)) in Hd.
    apply in_map_iff in Hd. destruct Hd as (item & Hitem & _).
    destruct (down_item b item) as ((d' & Hd' & Herr & Henc) & _).
    split; congruence.
Qed.

End ApiDown.

Lemma run_with_api_down
    (cfg : config) (w : world) (st : state) (df : dataframe)
    (batch_size : Z) :
  fair w ->
  1 <= max_retries cfg ->
  api_down cfg w ->
  required_present df ->
  1 <= batch_size ->
  rows df <> [] ->
  exists r st',
    analyze_dataset cfg w st (ReadOk df) batch_size 0 = (Final r, st')
    /\ total_processed (final_metadata r) = len (rows df)
    /\ (forall d, In d (detailed_results r) -> has_error d = true)
    /\ final_failed_items r = failed_items st
    /\ total_failed (final_metadata r) = len (failed_items st)
    /\ completed_count st' = completed_count st + len (rows df)
    /\ final_summary r = summary_of_errors (enable_mislabel_analysis cfg).
Proof.
  intros Hfair Hmax Hdown Hcols HB Hne.
  set (batches := batches_of df batch_size 0).
  set (results := concat (map (batch_results cfg w (rows df) batch_size)
                              batches)).
  assert (Hlen : len results = len (rows df)).
  { unfold results.
    rewrite (len_concat_map _ (batch_data (rows df) batch_size)).
    - unfold batches, batches_of. now rewrite batches_cover.
    - intros b _. apply (down_batch cfg w Hfair Hmax Hdown). }
  assert (Hboth : forall d, In d results ->
                    has_error d = true /\ encodable (JObject d) = true).
  { intros d Hd. unfold results in Hd. apply in_concat in Hd.
    destruct Hd as (l & Hl & Hd). apply in_map_iff in Hl.
    destruct Hl as (b & <- & _).
    now apply (down_batch cfg w Hfair Hmax Hdown (rows df) batch_size b). }
  assert (Herr : forall d, In d results -> has_error d = true)
    by (intros d Hd; apply (Hboth d Hd)).
  assert (Henc : forallb (fun d => encodable (JObject d)) results = true)
    by (apply forallb_forall; intros d Hd; apply (Hboth d Hd)).
  assert (Hres : results <> []).
  { intros E. rewrite E in Hlen. destruct (rows df); [contradiction|].
    unfold len in Hlen. cbn [List.length] in Hlen. lia. }
  pose proof (analyze_dataset_run cfg w st df batch_size 0 Hcols
                ltac:(lia)) as Hrun.
  cbn zeta in Hrun. fold batches in Hrun.
  pose proof (batch_loop_results cfg w (rows df) batch_size batches [] st)
    as Hfst.
  cbn [app] in Hfst. fold results in Hfst.
  destruct (batch_loop_books cfg w (rows df) batch_size Hfair batches [] st)
    as (Hcc & _).
  pose proof (batch_loop_no_failure cfg w (rows df) batch_size batches [] st
                (fun b item _ _ =>
                   proj2 (proj2 (down_item cfg w Hmax Hdown b item))))
    as Hfail.
  cbn zeta in Hcc. fold results in Hcc.
  rewrite Hfst, (generate_summary_errors _ results Hres Herr), Henc in Hrun.
  eexists _, _. split; [exact Hrun|].
  cbn [total_processed final_metadata detailed_results final_failed_items
       total_failed completed_count final_summary].
  rewrite Hfail, Hcc, Hlen. repeat split; auto.
Qed.

(** X21.  A run while the API is down.  When every attempt of every item
    fails ([max_retries >= 1], a non-empty table, the pool handing back
    every future once), a run from batch 0 ends normally and reports
    every row as processed and none as failed: each detailed result
    carries an [error] key, the failure list is as it was, the completed
    count grows by the number of rows, and the summary has empty tables
    and, with mislabel analysis on, zero counts. *)
Theorem api_down_run
    (cfg : config) (w : world) (st : state) (df : dataframe)
    (batch_size : Z) :
  fair w ->
  1 <= max_retries cfg ->
  api_down cfg w ->
  required_present df ->
  1 <= batch_size ->
  rows df <> [] ->
  exists r st',
    analyze_dataset cfg w st (ReadOk df) batch_size 0 = (Final r, st')
    /\ total_processed (final_metadata r) = len (rows df)
    /\ (forall d, In d (detailed_results r) -> has_error d = true)
    /\ final_failed_items r = failed_items st
    /\ total_failed (final_metadata r) = len (failed_items st)
    /\ completed_count st' = completed_count st + len (rows df)
    /\ final_summary r = summary_of_errors (enable_mislabel_analysis cfg).
Proof. apply run_with_api_down. Qed.

Lemma api_down_run_witness :
  fair (constant_world (Raise (lit "timeout")))
  /\ 1 <= max_retries sample_config
  /\ api_down sample_config (constant_world (Raise (lit "timeout")))
  /\ required_present three_rows
  /\ 1 <= 2
  /\ rows three_rows <> []
  /\ exists r st',
      analyze_dataset sample_config (constant_world (Raise (lit "timeout")))
                      empty_state (ReadOk three_rows) 2 0
      = (Final r, st')
      /\ total_processed (final_metadata r) = 3
      /\ total_failed (final_metadata r) = 0.
Proof.
  assert (Hdown : api_down sample_config
                    (constant_world (Raise (lit "timeout"))))
    by (intros item_id k _; exact I).
  split; [apply fair_constant_world|]. split; [cbn; lia|].
  split; [exact Hdown|]. split; [reflexivity|]. split; [lia|].
  split; [discriminate|].
  destruct (api_down_run sample_config
              (constant_world (Raise (lit "timeout"))) empty_state
              three_rows 2 (fair_constant_world _) ltac:(cbn; lia) Hdown
              eq_refl ltac:(lia) ltac:(discriminate))
    as (r & st' & Hrun & Hp & _ & _ & Hf & _).
  exists r, st'. split; [exact Hrun|]. split; [exact Hp|exact Hf].
Defined.

Section NoAttempt.

Variable cfg : config.
Variable w : world.

Hypothesis no_attempt : max_retries cfg <= 0.

Lemma no_attempt_item (b : Z) (item : Z * row) (st : state) :
  process_single_item cfg w st item b = (None, st).
Proof.
  destruct item as [index r]. unfold process_single_item, call_api_with_retry,
    range.
  replace (Z.to_nat (max_retries cfg)) with 0%nat by lia. reflexivity.
Qed.

Lemma no_attempt_items (items : list (Z * row)) (st : state) (b : Z) :
  run_items cfg w st items b = (map (fun _ => None) items, st).
Proof.
  induction items as [|item items IH]; [reflexivity|].
  cbn [run_items map]. now rewrite no_attempt_item, IH.
Qed.

Hypothesis pool_fair : fair w.

Lemma no_attempt_batch (data : list (Z * row)) (st : state) (b : Z) :
  process_batch cfg w st data b = ([], st).
Proof.
  unfold process_batch. rewrite no_attempt_items. f_equal.
  destruct (collect _) as [|d l] eqn:E; [reflexivity|].
  assert (Hd : In d (collect (as_completed w b (map (fun _ => None) data))))
    by (rewrite E; now left).
  apply collect_In in Hd. apply (Permutation_in _ (pool_fair b _)) in Hd.
  apply in_map_iff in Hd. now destruct Hd as (? & ? & _).
Qed.

Lemma no_attempt_step (df_rows : list (Z * row)) (batch_size : Z)
    (all_results : list dict) (st : state) (b : Z) :
  batch_step cfg w df_rows batch_size (all_results, st) b
  = (all_results,
     write_temp (snd (now w st)) checkpoint_name
       (checkpoint b all_results (failed_items st) (clock w (ticks st)))).
Proof. unfold batch_step. now rewrite no_attempt_batch. Qed.

Lemma no_attempt_loop (df_rows : list (Z * row)) (batch_size : Z)
    (batches : list Z) (all_results : list dict) (st : state) :
  let acc' := batch_loop cfg w df_rows batch_size batches (all_results, st) in
  fst acc' = all_results
  /\ completed_count (snd acc') = completed_count st
  /\ failed_items (snd acc') = failed_items st
  /\ load_existing_results (snd acc') = load_existing_results st
  /\ checkpoint_totals (write_log (snd acc'))
     = checkpoint_totals (write_log st)
       ++ map (fun _ => JInt (len all_results)) batches
  /\ len (write_log (snd acc')) = len (write_log st) + len batches.
Proof.
  revert st. induction batches as [|b batches IH]; intros st.
  - cbn [batch_loop fold_left fst snd map]. rewrite app_nil_r.
    unfold len at 3. cbn [List.length]. repeat split; lia.
  - unfold batch_loop in *. cbn [fold_left]. rewrite no_attempt_step.
    set (st1 := write_temp _ _ _).
    destruct (IH st1) as (H1 & H2 & H3 & H4 & H5 & H6). cbn zeta.
    rewrite H1, H2, H3, H4, H5, H6. subst st1.
    rewrite load_after_other_write by apply checkpoint_name_suffix.
    cbn [write_temp now snd completed_count failed_items write_log map].
    unfold checkpoint_totals at 1. rewrite flat_map_app.
    fold (checkpoint_totals (write_log st)).
    cbn [flat_map fst snd]. rewrite len_app.
    repeat split; try reflexivity.
    + rewrite <- app_assoc. reflexivity.
    + unfold len. cbn [List.length]. lia.
Qed.

End NoAttempt.

Lemma run_without_attempts
    (cfg : config) (w : world) (st : state) (df : dataframe)
    (batch_size start_from_batch : Z) :
  fair w ->
  max_retries cfg <= 0 ->
  required_present df ->
  batch_size <> 0 ->
  exists r st',
    analyze_dataset cfg w st (ReadOk df) batch_size start_from_batch
    = (Final r, st')
    /\ detailed_results r = []
    /\ final_summary r = NoValidResults
    /\ final_failed_items r = failed_items st
    /\ completed_count st' = completed_count st
    /\ load_existing_results st' = load_existing_results st
    /\ checkpoint_totals (write_log st')
       = checkpoint_totals (write_log st)
         ++ map (fun _ => JInt 0)
                (batches_of df batch_size start_from_batch)
    /\ len (write_log st')
       = len (write_log st)
         + len (batches_of df batch_size start_from_batch).
Proof.
  intros Hfair Hmax Hcols HB.
  pose proof (analyze_dataset_run cfg w st df batch_size start_from_batch
                Hcols HB) as Hrun.
  destruct (no_attempt_loop cfg w Hmax Hfair (rows df) batch_size
              (batches_of df batch_size start_from_batch) [] st)
    as (H1 & H2 & H3 & H4 & H5 & H6).
  cbn zeta in *. rewrite H1 in Hrun. cbn [generate_summary] in Hrun.
  eexists _, _. split; [exact Hrun|].
  cbn [detailed_results final_summary final_failed_items completed_count
       write_log].
  repeat split; auto.
Qed.

(** X22.  A run with [max_retries <= 0] gets a result for no row.  It
    ends normally with no detailed result, the summary for an empty
    list, and the failure list and the completed count as they were;
    what is loaded from the output directory is as before, and the only
    files it writes are the checkpoints, one for each batch, each with a
    zero total. *)
Theorem no_attempts_run
    (cfg : config) (w : world) (st : state) (df : dataframe)
    (batch_size start_from_batch : Z) :
  fair w ->
  max_retries cfg <= 0 ->
  required_present df ->
  batch_size <> 0 ->
  exists r st',
    analyze_dataset cfg w st (ReadOk df) batch_size start_from_batch
    = (Final r, st')
    /\ detailed_results r = []
    /\ final_summary r = NoValidResults
    /\ final_failed_items r = failed_items st
    /\ completed_count st' = completed_count st
    /\ load_existing_results st' = load_existing_results st
    /\ checkpoint_totals (write_log st')
       = checkpoint_totals (write_log st)
         ++ map (fun _ => JInt 0)
                (batches_of df batch_size start_from_batch)
    /\ len (write_log st')
       = len (write_log st)
         + len (batches_of df batch_size start_from_batch).
Proof. apply run_without_attempts. Qed.

Lemma no_attempts_run_witness :
  fair answering_world
  /\ max_retries (Config 0 true) <= 0
  /\ required_present three_rows
  /\ 2 <> 0
  /\ exists r st',
      analyze_dataset (Config 0 true) answering_world empty_state
                      (ReadOk three_rows) 2 0
      = (Final r, st')
      /\ detailed_results r = []
      /\ checkpoint_totals (write_log st') = [JInt 0; JInt 0].
Proof.
  split; [apply fair_constant_world|]. split; [cbn; lia|].
  split; [reflexivity|]. split; [lia|].
  destruct (no_attempts_run (Config 0 true) answering_world empty_state
              three_rows 2 0 (fair_constant_world _) ltac:(cbn; lia)
              eq_refl ltac:(lia))
    as (r & st' & Hrun & Hd & _ & _ & _ & _ & Hc & _).
  exists r, st'. split; [exact Hrun|]. split; [exact Hd|].
  rewrite Hc. reflexivity.
Defined.
(* ================================================================== *)
(** ** The totals written in the checkpoints *)
(* ================================================================== *)

Section CheckpointTotals.

Variable cfg : config.
Variable w : world.

Lemma checkpoint_totals_app (l1 l2 : list (str * json)) :
  checkpoint_totals (l1 ++ l2) = checkpoint_totals l1 ++ checkpoint_totals l2.
Proof. unfold checkpoint_totals. apply flat_map_app. Qed.

Lemma process_single_item_totals (st : state) (item : Z * row) (b : Z) :
  checkpoint_totals (write_log (snd (process_single_item cfg w st item b)))
  = checkpoint_totals (write_log st).
Proof.
  destruct item as [index r]. unfold process_single_item.
  destruct (truthy _); [|reflexivity].
  destruct (py_value _); try reflexivity.
  cbn [snd write_log]. unfold save_intermediate_result.
  rewrite dump_temp_log.
  rewrite checkpoint_totals_app. cbn [checkpoint_totals flat_map fst].
  rewrite item_file_is_no_checkpoint. now rewrite !app_nil_r.
Qed.

Lemma run_items_totals (items : list (Z * row)) (st : state) (b : Z) :
  checkpoint_totals (write_log (snd (run_items cfg w st items b)))
  = checkpoint_totals (write_log st).
Proof.
  revert st. induction items as [|item items IH]; intros st; [reflexivity|].
  cbn [run_items].
  pose proof (process_single_item_totals st item b) as H1.
  destruct (process_single_item cfg w st item b) as [res st1].
  specialize (IH st1).
  destruct (run_items cfg w st1 items b) as [others st2].
  cbn [snd] in *. congruence.
Qed.

Lemma process_batch_totals (st : state) (data : list (Z * row)) (b : Z) :
  checkpoint_totals (write_log (snd (process_batch cfg w st data b)))
  = checkpoint_totals (write_log st).
Proof.
  unfold process_batch.
  pose proof (run_items_totals data st b) as H.
  destruct (run_items cfg w st data b) as [futures st1]. exact H.
Qed.

Lemma checkpoint_total (b : Z) (all_results : list dict)
    (failed : list json) (timestamp : str) :
  checkpoint_totals
    [(checkpoint_name, checkpoint b all_results failed timestamp)]
  = [JInt (len all_results)].
Proof. reflexivity. Qed.

Variable df_rows : list (Z * row).
Variable batch_size : Z.

Lemma batch_step_totals (all_results : list dict) (st : state) (b : Z) :
  checkpoint_totals
    (write_log (snd (batch_step cfg w df_rows batch_size (all_results, st) b)))
  = checkpoint_totals (write_log st)
    ++ [JInt (len all_results
              + len (batch_results cfg w df_rows batch_size b))].
Proof.
  unfold batch_step, batch_results.
  pose proof (process_batch_result cfg w st empty_state
                (batch_data df_rows batch_size b) b) as Hind.
  rewrite <- Hind.
  pose proof (process_batch_totals st (batch_data df_rows batch_size b) b)
    as H.
  destruct (process_batch cfg w st (batch_data df_rows batch_size b) b)
    as [res st1].
  cbn [fst snd] in *.
  destruct res as [|d res].
  - cbn [now write_temp snd fst write_log].
    rewrite checkpoint_totals_app, H, checkpoint_total. do 2 f_equal.
    unfold len at 2. cbn [List.length]. now rewrite Z.add_0_r.
  - cbn [now write_temp snd fst write_log]. unfold save_batch_results.
    rewrite dump_temp_log.
    rewrite !checkpoint_totals_app, H, checkpoint_total, len_app.
    cbn [checkpoint_totals flat_map fst].
    rewrite batch_file_is_no_checkpoint, !app_nil_r. reflexivity.
Qed.

Lemma batch_loop_totals (batches : list Z) (all_results : list dict)
    (st : state) :
  checkpoint_totals
    (write_log
       (snd (batch_loop cfg w df_rows batch_size batches (all_results, st))))
  = checkpoint_totals (write_log st)
    ++ map JInt
         (running_totals (len all_results)
            (map (fun b => len (batch_results cfg w df_rows batch_size b))
                 batches)).
Proof.
  revert all_results st. induction batches as [|b batches IH];
    intros all_results st.
  - cbn. now rewrite app_nil_r.
  - unfold batch_loop in *. cbn [fold_left map running_totals].
    pose proof (batch_step_totals all_results st b) as Hs.
    pose proof (batch_step_results cfg w df_rows batch_size all_results st b)
      as Hr.
    destruct (batch_step cfg w df_rows batch_size (all_results, st) b)
      as [all1 st1].
    cbn [fst snd] in *. rewrite IH, Hs, Hr, len_app, <- app_assoc.
    reflexivity.
Qed.

End CheckpointTotals.

Section RunningTotals.

Lemma running_totals_bounds (sizes : list Z) (a : Z) :
  Forall (fun n => 0 <= n) sizes ->
  StronglySorted Z.le (running_totals a sizes)
  /\ Forall (fun x => a <= x) (running_totals a sizes).
Proof.
  intros H. revert a. induction H as [|n sizes Hn Hs IH]; intros a.
  - split; constructor.
  - cbn [running_totals]. destruct (IH (a + n)) as [IH1 IH2]. split.
    + constructor; [exact IH1|exact IH2].
    + constructor; [lia|].
      eapply Forall_impl; [|exact IH2]. cbn beta. intros x Hx. lia.
Qed.

Lemma running_totals_last_cons (sizes : list Z) (n a d : Z) :
  last (running_totals a (n :: sizes)) d = a + n + total sizes.
Proof.
  revert n a. induction sizes as [|m sizes IH]; intros n a.
  - unfold total. cbn. lia.
  - change (running_totals a (n :: m :: sizes))
      with ((a + n) :: running_totals (a + n) (m :: sizes)).
    change (last ((a + n) :: running_totals (a + n) (m :: sizes)) d)
      with (last (running_totals (a + n) (m :: sizes)) d).
    rewrite IH. unfold total. cbn [fold_right]. lia.
Qed.

Lemma running_totals_last (sizes : list Z) (a : Z) :
  last (running_totals a sizes) a = a + total sizes.
Proof.
  destruct sizes as [|n sizes]; [unfold total; cbn; lia|].
  rewrite running_totals_last_cons. unfold total. cbn [fold_right]. lia.
Qed.

Lemma total_lens {X Y} (f : X -> list Y) (l : list X) :
  total (map (fun x => len (f x)) l) = len (concat (map f l)).
Proof.
  induction l as [|x l IH]; [reflexivity|].
  cbn [map concat total fold_right]. rewrite len_app.
  fold (total (map (fun x => len (f x)) l)). now rewrite IH.
Qed.

End RunningTotals.

Lemma run_checkpoint_totals
    (cfg : config) (w : world) (st st' : state) (df : dataframe)
    (batch_size start_from_batch : Z) (r : final_results) :
  required_present df ->
  batch_size <> 0 ->
  analyze_dataset cfg w st (ReadOk df) batch_size start_from_batch
  = (Final r, st') ->
  let sizes :=
    map (fun b => len (batch_results cfg w (rows df) batch_size b))
        (batches_of df batch_size start_from_batch) in
  checkpoint_totals (write_log st')
  = checkpoint_totals (write_log st) ++ map JInt (running_totals 0 sizes)
  /\ StronglySorted Z.le (running_totals 0 sizes)
  /\ Forall (fun x => 0 <= x) (running_totals 0 sizes)
  /\ last (running_totals 0 sizes) 0 = total_processed (final_metadata r).
Proof.
  intros Hcols HB Hrun sizes.
  destruct (analyze_dataset_final cfg w st st' df batch_size start_from_batch
              r Hcols HB Hrun)
    as (_ & _ & Htp & _ & _ & _ & _ & _ & Hlog & _).
  cbn zeta in *.
  assert (Hnn : Forall (fun n => 0 <= n) sizes).
  { subst sizes. apply Forall_forall. intros n Hn. apply in_map_iff in Hn.
    destruct Hn as (b & <- & _). apply len_nonneg. }
  destruct (running_totals_bounds sizes 0 Hnn) as [Hsorted Hlow].
  split; [|split; [exact Hsorted|split; [exact Hlow|]]].
  - rewrite Hlog. apply (batch_loop_totals cfg w (rows df) batch_size _ [] st).
  - rewrite running_totals_last, Htp, batch_loop_results. cbn [app].
    subst sizes. now rewrite total_lens.
Qed.

(** X23.  The [total_completed] values a run writes in its checkpoints
    are the running totals of the numbers of results of its own batches,
    counted from zero whatever the batch the run starts from: they never
    decrease, and the last one is the [total_processed] of the final
    results. *)
Theorem checkpoint_totals_count_the_run
    (cfg : config) (w : world) (st st' : state) (df : dataframe)
    (batch_size start_from_batch : Z) (r : final_results) :
  required_present df ->
  batch_size <> 0 ->
  analyze_dataset cfg w st (ReadOk df) batch_size start_from_batch
  = (Final r, st') ->
  let sizes :=
    map (fun b => len (batch_results cfg w (rows df) batch_size b))
        (batches_of df batch_size start_from_batch) in
  checkpoint_totals (write_log st')
  = checkpoint_totals (write_log st) ++ map JInt (running_totals 0 sizes)
  /\ StronglySorted Z.le (running_totals 0 sizes)
  /\ Forall (fun x => 0 <= x) (running_totals 0 sizes)
  /\ last (running_totals 0 sizes) 0 = total_processed (final_metadata r).
Proof. apply run_checkpoint_totals. Qed.

Lemma checkpoint_totals_count_the_run_witness :
  required_present three_rows
  /\ 2 <> 0
  /\ exists r st',
      analyze_dataset sample_config numeric_world
                      (restart interrupted_state) (ReadOk three_rows) 2 1
      = (Final r, st')
      /\ checkpoint_totals (write_log (restart interrupted_state))
         = [JInt 2]
      /\ checkpoint_totals (write_log st') = [JInt 2; JInt 1].
Proof.
  split; [reflexivity|]. split; [lia|].
  assert (E : exists r st',
             analyze_dataset sample_config numeric_world
                             (restart interrupted_state) (ReadOk three_rows)
                             2 1
             = (Final r, st')).
  { vm_compute. eexists _, _. reflexivity. }
  destruct E as (r & st' & E).
  exists r, st'. split; [exact E|]. split; [vm_compute; reflexivity|].
  destruct (checkpoint_totals_count_the_run sample_config numeric_world
              (restart interrupted_state) st' three_rows 2 1 r eq_refl
              ltac:(lia) E) as (H & _).
  rewrite H. vm_compute. reflexivity.
Defined.
(* ================================================================== *)
(** ** A run in which every row gives a result *)
(* ================================================================== *)

Section EveryRow.

Variable cfg : config.
Variable w : world.
Variable df_rows : list (Z * row).
Variable batch_size : Z.

(** Every row gives a result in the batch it is processed in. *)
Hypothesis every_row :
  forall b item,
    In item (batch_data df_rows batch_size b) ->
    succeeds cfg w b item = true.



End EveryRow.



